(** * Video extraction pipeline: a shallow embedding of [video_extractor.py]

    The development follows [VideoExtractor] method by method.  Python
    values become Rocq data, [self.uploaded_files], the file system and the
    log of external calls become an explicit state, and every method is a
    function in a small state-and-exception monad.  The polling loop of
    [upload_video] is the only unbounded loop; it is given fuel, and running
    out of fuel is a third outcome that no [except] clause catches. *)

From Stdlib Require Import String Ascii ZArith List Bool Lia.
From stdpp Require Import gmap strings list fin_maps.
From stdpp Require Import pretty.

Open Scope string_scope.

(** ** Python values *)

(** A YAML scalar as the pipeline reads it: a string, or [None] (an absent
    key read through [dict.get], or an explicit null).  Strings are sequences
    of one-byte characters. *)
Inductive value :=
| VNone
| VStr (s : string).

#[global] Instance value_eq_dec : EqDecision value.
Proof. solve_decision. Defined.

(** A job record of the [videos] list, with the keys [id], [title],
    [section], [path], [youtube_url], [filename] and [output]. *)
Abbreviation dict := (gmap string value).

(** [d.get(k)] *)
Definition get (d : dict) (k : string) : value := default VNone (d !! k).

(** [d.get(k, dflt)]: the default is used only when the key is absent. *)
Definition get_default (d : dict) (k : string) (dflt : value) : value :=
  default dflt (d !! k).

(** Truth value of an object: [None] and the empty string are false. *)
Definition truthy (v : value) : bool :=
  match v with
  | VNone => false
  | VStr s => negb (String.eqb s "")
  end.

(** [a or b] *)
Definition py_or (a b : value) : value := if truthy a then a else b.

(** [str(v)], as an f-string formats a value. *)
Definition str (v : value) : string :=
  match v with
  | VNone => "None"
  | VStr s => s
  end.

(** [x in video_list] for a list of strings. *)
Definition in_list (x : value) (l : list string) : bool :=
  match x with
  | VNone => false
  | VStr s => bool_decide (s ∈ l)
  end.

(** The newline character and substring containment. *)
Definition nl : string := String (ascii_of_nat 10) EmptyString.

Definition contains (s t : string) : Prop :=
  exists pre post, s = pre +:+ t +:+ post.

(** ** Exceptions and outcomes *)

(** The exceptions the pipeline raises itself or receives from the
    libraries it calls.  All of them derive from [Exception]. *)
Inductive exn :=
| KeyError (key : string)
| ValueError (msg : string)
| TypeError (msg : string)
| IndexError (msg : string)
| FileNotFoundError (msg : string)
| FileExistsError (msg : string)
| NotADirectoryError (msg : string)
| IsADirectoryError (msg : string)
| Exception (msg : string)
| ClientError (msg : string).

(** What a call does: it returns, it raises, or it is still running when
    the fuel of the polling loop is spent. *)
Inductive outcome (A : Type) :=
| Ok (a : A)
| Raise (e : exn)
| Diverge.

Arguments Ok {A} a.
Arguments Raise {A} e.
Arguments Diverge {A}.

(** ** Regular expressions: [re.match]

    [re.match(pattern, s)] succeeds when some prefix of [s] belongs to the
    language of [pattern].  Matching uses Brzozowski derivatives. *)
Module Re.

Inductive regex :=
| Void
| Eps
| Lit (c : ascii)
| Class (p : ascii -> bool)
| Cat (r1 r2 : regex)
| Alt (r1 r2 : regex)
| Star (r : regex).

(** [r?], [r+] and a literal string. *)
Definition Opt (r : regex) : regex := Alt r Eps.
Definition Plus (r : regex) : regex := Cat r (Star r).

Fixpoint Str (s : string) : regex :=
  match s with
  | EmptyString => Eps
  | String c s' => Cat (Lit c) (Str s')
  end.

Fixpoint nullable (r : regex) : bool :=
  match r with
  | Void => false
  | Eps => true
  | Lit _ => false
  | Class _ => false
  | Cat r1 r2 => nullable r1 && nullable r2
  | Alt r1 r2 => nullable r1 || nullable r2
  | Star _ => true
  end.

Fixpoint deriv (a : ascii) (r : regex) : regex :=
  match r with
  | Void => Void
  | Eps => Void
  | Lit c => if Ascii.eqb a c then Eps else Void
  | Class p => if p a then Eps else Void
  | Cat r1 r2 =>
      if nullable r1
      then Alt (Cat (deriv a r1) r2) (deriv a r2)
      else Cat (deriv a r1) r2
  | Alt r1 r2 => Alt (deriv a r1) (deriv a r2)
  | Star r1 => Cat (deriv a r1) (Star r1)
  end.

(** The language of a regular expression. *)
Inductive matches : regex -> string -> Prop :=
| MEps : matches Eps ""
| MLit c : matches (Lit c) (String c "")
| MClass p c : p c = true -> matches (Class p) (String c "")
| MCat r1 r2 s1 s2 :
    matches r1 s1 -> matches r2 s2 -> matches (Cat r1 r2) (s1 +:+ s2)
| MAltL r1 r2 s : matches r1 s -> matches (Alt r1 r2) s
| MAltR r1 r2 s : matches r2 s -> matches (Alt r1 r2) s
| MStar0 r : matches (Star r) ""
| MStarS r s1 s2 :
    matches r s1 -> matches (Star r) s2 -> matches (Star r) (s1 +:+ s2).

(** [re.match(r, s) is not None] *)
Fixpoint re_match (r : regex) (s : string) : bool :=
  nullable r ||
  match s with
  | EmptyString => false
  | String c s' => re_match (deriv c r) s'
  end.

(** [\w] on one-byte characters: letters, digits and the underscore. *)
Definition is_word (c : ascii) : bool :=
  let n := nat_of_ascii c in
  ((48 <=? n) && (n <=? 57) || (65 <=? n) && (n <=? 90)
   || (97 <=? n) && (n <=? 122) || (n =? 95))%nat.

(** [[\w-]] *)
Definition word_or_dash (c : ascii) : bool :=
  is_word c || Ascii.eqb c "-"%char.

End Re.

(** ** [pathlib.Path] and the file system *)

(** A path is the tuple [Path(s).parts]: the components of [s], with a
    leading ["/"] part when [s] is absolute.  Empty and ["."] components
    are dropped, [".."] is kept as a name. *)
Definition path := list string.

Fixpoint split_on (sep : ascii) (s : string) : list string :=
  match s with
  | EmptyString => [""]
  | String c s' =>
      if Ascii.eqb c sep then "" :: split_on sep s'
      else match split_on sep s' with
           | [] => [String c ""]
           | w :: ws => String c w :: ws
           end
  end.

Definition is_component (w : string) : bool :=
  negb (String.eqb w "") && negb (String.eqb w ".").

Definition Path (s : string) : path :=
  let parts := List.filter is_component (split_on "/"%char s) in
  if String.prefix "/" s then "/" :: parts else parts.

(** [p.parent]: the root and the current directory are their own parent. *)
Definition parent (p : path) : path :=
  match p with
  | [] => []
  | [_] => if bool_decide (p = ["/"]) then p else []
  | _ => removelast p
  end.

(** [p.name] *)
Definition name (p : path) : string :=
  if bool_decide (p = ["/"]) then "" else default "" (last p).

(** [s.rfind(".")]: the index of the last dot of [s]. *)
Fixpoint rfind_dot (s : string) : option nat :=
  match s with
  | EmptyString => None
  | String c s' =>
      match rfind_dot s' with
      | Some i => Some (S i)
      | None => if Ascii.eqb c "."%char then Some 0 else None
      end
  end.

(** [p.stem]: the name without its last suffix. *)
Definition stem (p : path) : string :=
  let n := name p in
  match rfind_dot n with
  | Some i =>
      if ((0 <? i) && (i <? String.length n - 1))%nat
      then String.substring 0 i n else n
  | None => n
  end.

Inductive node :=
| Dir
| Reg (content : string).

Abbreviation filesystem := (gmap path node).

(** The root and the current directory always exist. *)
Definition fs_lookup (fs : filesystem) (p : path) : option node :=
  match p with
  | [] => Some Dir
  | _ => if bool_decide (p = ["/"]) then Some Dir else fs !! p
  end.

(** [p.exists()] and [p.is_dir()] *)
Definition path_exists (fs : filesystem) (p : path) : bool :=
  match fs_lookup fs p with Some _ => true | None => false end.

Definition is_dir (fs : filesystem) (p : path) : bool :=
  match fs_lookup fs p with Some Dir => true | _ => false end.

Definition is_reg (fs : filesystem) (p : path) : bool :=
  match fs_lookup fs p with Some (Reg _) => true | _ => false end.

(** The prefixes of a path, shortest first, the path itself included. *)
Definition ancestors (p : path) : list path :=
  List.map (fun n => take n p) (seq 1 (length p)).

(** [p.mkdir(parents=True, exist_ok=True)]: every missing prefix of [p]
    becomes a directory; the call fails when [p] or one of its prefixes is
    a regular file. *)
Definition mkdir_parents (fs : filesystem) (p : path) : outcome filesystem :=
  match List.find (is_reg fs) (ancestors p) with
  | Some q =>
      if bool_decide (q = p) then Raise (FileExistsError "File exists")
      else Raise (NotADirectoryError "Not a directory")
  | None => Ok (foldr (fun q acc => <[q := Dir]> acc) fs (ancestors p))
  end.

(** [open(p, 'w')] followed by [f.write(content)] *)
Definition write_text (fs : filesystem) (p : path) (content : string)
  : outcome filesystem :=
  match fs_lookup fs p with
  | Some Dir => Raise (IsADirectoryError "Is a directory")
  | _ =>
      match fs_lookup fs (parent p) with
      | Some Dir => Ok (<[p := Reg content]> fs)
      | Some (Reg _) => Raise (NotADirectoryError "Not a directory")
      | None => Raise (FileNotFoundError "No such file or directory")
      end
  end.

(** [open(p, 'rb')] and reading the whole file *)
Definition read_bytes (fs : filesystem) (p : path) : outcome string :=
  match fs_lookup fs p with
  | Some (Reg c) => Ok c
  | Some Dir => Raise (IsADirectoryError "Is a directory")
  | None => Raise (FileNotFoundError "No such file or directory")
  end.

(** ** [str.format] with keyword arguments

    Replacement fields are plain names; [{{] and [}}] are escaped braces.
    Conversions and format specifications are not modelled. *)

Definition is_digit (c : ascii) : bool :=
  let n := nat_of_ascii c in ((48 <=? n) && (n <=? 57))%nat.

Fixpoint all_digits (s : string) : bool :=
  match s with
  | EmptyString => true
  | String c s' => is_digit c && all_digits s'
  end.

Fixpoint assoc (k : string) (kw : list (string * string)) : option string :=
  match kw with
  | [] => None
  | (k', v) :: kw' => if String.eqb k k' then Some v else assoc k kw'
  end.

Definition format_field (f : string) (kw : list (string * string))
  : outcome string :=
  if all_digits f
  then Raise (IndexError "Replacement index out of range for positional args tuple")
  else match assoc f kw with
       | Some v => Ok v
       | None => Raise (KeyError f)
       end.

Definition prepend (s : string) (r : outcome string) : outcome string :=
  match r with
  | Ok t => Ok (s +:+ t)
  | other => other
  end.

(** [field] is [Some f] while the scan is inside a replacement field whose
    name read so far is [f]. *)
Fixpoint format_go (t : string) (field : option string)
    (kw : list (string * string)) : outcome string :=
  match field, t with
  | None, EmptyString => Ok ""
  | None, String "{" (String "{" t') => prepend "{" (format_go t' None kw)
  | None, String "{" EmptyString =>
      Raise (ValueError "Single '{' encountered in format string")
  | None, String "{" t' => format_go t' (Some "") kw
  | None, String "}" (String "}" t') => prepend "}" (format_go t' None kw)
  | None, String "}" _ =>
      Raise (ValueError "Single '}' encountered in format string")
  | None, String c t' => prepend (String c "") (format_go t' None kw)
  | Some f, EmptyString =>
      Raise (ValueError "expected '}' before end of string")
  | Some f, String "}" t' =>
      match format_field f kw with
      | Ok v => prepend v (format_go t' None kw)
      | other => other
      end
  | Some f, String c t' => format_go t' (Some (f +:+ String c "")) kw
  end.

(** [template.format( **kw )] *)
Definition format (template : string) (kw : list (string * string))
  : outcome string :=
  format_go template None kw.

(** ** The generation service, the clock and the observable events *)

(** Modelled from the spec: [types.FileState] of the client library, which
    is not part of the repository; the spec gives the processing status the
    three values Ready, Processing and Failed. *)
Inductive FileState :=
| PROCESSING
| ACTIVE
| FAILED.

(** The file object of the Files API. *)
Record File := {
  file_name : string;
  file_uri : string;
  file_mime_type : string;
  file_state : FileState }.

(** What [self.uploaded_files] holds and [extract_content] receives: the
    local class [YouTubeVideo] or an uploaded file. *)
Inductive video_obj :=
| YouTubeVideo (url mime name : string)
| Uploaded (f : File).

Definition uri (o : video_obj) : string :=
  match o with
  | YouTubeVideo url _ _ => url
  | Uploaded f => file_uri f
  end.

Definition mime_type (o : video_obj) : string :=
  match o with
  | YouTubeVideo _ mime _ => mime
  | Uploaded f => file_mime_type f
  end.

Definition is_youtube (o : video_obj) : bool :=
  match o with
  | YouTubeVideo _ _ _ => true
  | Uploaded _ => false
  end.

(** The two places that call [time.sleep]. *)
Inductive sleep_site :=
| PollWait
| RateLimit.

(** The three progress lines of [process_video]. *)
Inductive message :=
| Processing (title : value)
| Succeeded (title : value)
| FailedToProcess (source : value) (e : exn).

(** Calls that leave the process, in the order they happen. *)
Inductive event :=
| FilesUpload (content display_name mime : string)
| FilesGet (name : string)
| GenerateContent (model uri mime prompt : string)
| Sleep (site : sleep_site) (seconds : Z)
| Printed (m : message).

(** The outside world.  Each answer may depend on everything that happened
    before the call, so any deterministic service is an instance. *)
Record external := {
  files_upload : list event -> string -> string -> string -> outcome File;
  files_get : list event -> string -> outcome File;
  generate_content :
    list event -> string -> string -> string -> string ->
    outcome (option string);
  today : list event -> string }.

(** ** Configuration and extractor state *)

(** The dictionary [yaml.safe_load] returns, one field per key the
    extractor reads; [None] is an absent key. *)
Record config := {
  cfg_api_key : value;
  cfg_model : option string;
  cfg_rate_limit_delay : option Z;
  cfg_prompt_template : option string;
  cfg_course_context : option string;
  cfg_output_format : option string;
  cfg_videos : option (list dict) }.

(** The attributes [__init__] sets and never changes afterwards. *)
Record extractor := {
  self_config : config;
  self_client : external;
  self_model_name : string }.

(** What changes while the extractor runs. *)
Record state := {
  uploaded_files : gmap string video_obj;
  fs : filesystem;
  trace : list event }.

Definition set_uploaded_files (c : gmap string video_obj) (st : state) : state :=
  {| uploaded_files := c; fs := fs st; trace := trace st |}.

Definition set_fs (f : filesystem) (st : state) : state :=
  {| uploaded_files := uploaded_files st; fs := f; trace := trace st |}.

Definition add_event (ev : event) (st : state) : state :=
  {| uploaded_files := uploaded_files st; fs := fs st;
     trace := trace st ++ [ev] |}.

(** ** The monad of methods *)

Definition M (A : Type) : Type := state -> outcome A * state.

Definition ret {A} (a : A) : M A := fun st => (Ok a, st).

Definition raise {A} (e : exn) : M A := fun st => (Raise e, st).

Definition diverge {A} : M A := fun st => (Diverge, st).

Definition bind {A B} (m : M A) (k : A -> M B) : M B :=
  fun st =>
    match m st with
    | (Ok a, st') => k a st'
    | (Raise e, st') => (Raise e, st')
    | (Diverge, st') => (Diverge, st')
    end.

(** [try: body except Exception as e: handler(e)] *)
Definition try_except {A} (body : M A) (handler : exn -> M A) : M A :=
  fun st =>
    match body st with
    | (Raise e, st') => handler e st'
    | other => other
    end.

Declare Scope method_scope.
Delimit Scope method_scope with method.
Notation "x <~ m ;; k" := (bind m (fun x => k))
  (at level 100, m at next level, right associativity) : method_scope.
Notation "m ;;; k" := (bind m (fun _ => k))
  (at level 100, right associativity) : method_scope.
Open Scope method_scope.

(** A pure computation that may raise. *)
Definition lift {A} (r : outcome A) : M A := fun st => (r, st).

Definition emit (ev : event) : M unit := fun st => (Ok tt, add_event ev st).

(** A call of the service: the answer is computed from the history before
    the call, and the call is logged. *)
Definition call {A} (ev : event) (answer : list event -> outcome A) : M A :=
  fun st => (answer (trace st), add_event ev st).

(** [time.sleep(seconds)] *)
Definition time_sleep (site : sleep_site) (seconds : Z) : M unit :=
  if (seconds <? 0)%Z
  then raise (ValueError "sleep length must be non-negative")
  else emit (Sleep site seconds).

(** [datetime.now().strftime('%Y-%m-%d')] *)
Definition strftime_now (self : extractor) : M string :=
  fun st => (Ok (today (self_client self) (trace st)), st).

(** ** [VideoExtractor] *)

(** [_setup_gemini]: the credential comes from the environment variable or
    from the configuration; the result is the model name. *)
Definition _setup_gemini (getenv_key : value) (cfg : config) : outcome string :=
  let api_key := py_or getenv_key (cfg_api_key cfg) in
  if negb (truthy api_key)
  then Raise (ValueError
    "GEMINI_API_KEY not found. Set it as environment variable or in config.yaml")
  else Ok (default "gemini-1.5-pro" (cfg_model cfg)).

(** [_load_config]: the parsed file is returned as it is. *)
Definition _load_config (config_file : option config) : outcome config :=
  match config_file with
  | None => Raise (FileNotFoundError "Config file not found")
  | Some parsed => Ok parsed
  end.

(** [__init__]: the extractor and its empty cache, in a world whose file
    system is [disk]. *)
Definition init (config_file : option config) (getenv_key : value)
    (client : external) (disk : filesystem) : outcome (extractor * state) :=
  match _load_config config_file with
  | Ok cfg =>
      match _setup_gemini getenv_key cfg with
      | Ok model_name =>
          Ok ({| self_config := cfg; self_client := client;
                 self_model_name := model_name |},
              {| uploaded_files := ∅; fs := disk; trace := [] |})
      | Raise e => Raise e
      | Diverge => Diverge
      end
  | Raise e => Raise e
  | Diverge => Diverge
  end.

Definition youtube_patterns : list Re.regex :=
  let scheme :=
    Re.Opt (Re.Cat (Re.Str "http") (Re.Cat (Re.Opt (Re.Lit "s")) (Re.Str "://"))) in
  let www := Re.Opt (Re.Str "www.") in
  let ident := Re.Plus (Re.Class Re.word_or_dash) in
  [ Re.Cat scheme (Re.Cat www (Re.Cat (Re.Str "youtube.com/watch?v=") ident));
    Re.Cat scheme (Re.Cat www (Re.Cat (Re.Str "youtu.be/") ident));
    Re.Cat scheme (Re.Cat www (Re.Cat (Re.Str "youtube.com/embed/") ident)) ].

(** [_is_youtube_url]: [any(re.match(pattern, url) for pattern in ...)] *)
Definition _is_youtube_url (url : string) : bool :=
  existsb (fun pattern => Re.re_match pattern url) youtube_patterns.

(** [create_youtube_video_object] *)
Definition create_youtube_video_object (self : extractor)
    (youtube_url : string) (display_name : value) : M video_obj :=
  fun st =>
    match uploaded_files st !! youtube_url with
    | Some cached => (Ok cached, st)
    | None =>
        let video_obj :=
          YouTubeVideo youtube_url "video/mp4"
            (str (py_or display_name (VStr youtube_url))) in
        (Ok video_obj,
         set_uploaded_files (<[youtube_url := video_obj]> (uploaded_files st)) st)
    end.

(** The loop [while video_file_obj.state == PROCESSING] of [upload_video]. *)
Fixpoint wait_while_processing (fuel : nat) (self : extractor)
    (video_file_obj : File) : M File :=
  match file_state video_file_obj with
  | PROCESSING =>
      match fuel with
      | O => diverge
      | S fuel' =>
          time_sleep PollWait 2;;;
          next <~ call (FilesGet (file_name video_file_obj))
                    (fun h => files_get (self_client self) h
                                (file_name video_file_obj));;
          wait_while_processing fuel' self next
      end
  | _ => ret video_file_obj
  end.

(** [upload_video] *)
Definition upload_video (fuel : nat) (self : extractor)
    (video_path : string) (display_name : value) : M video_obj :=
  fun st =>
    let video_file := Path video_path in
    if negb (path_exists (fs st) video_file)
    then (Raise (FileNotFoundError ("Video file not found: " +:+ video_path)), st)
    else
      match uploaded_files st !! video_path with
      | Some cached => (Ok cached, st)
      | None =>
          let display_name := str (py_or display_name (VStr (stem video_file))) in
          (f <~ lift (read_bytes (fs st) video_file);;
           uploaded <~ call (FilesUpload f display_name "video/mp4")
                         (fun h => files_upload (self_client self) h
                                     f display_name "video/mp4");;
           video_file_obj <~ wait_while_processing fuel self uploaded;;
           match file_state video_file_obj with
           | FAILED =>
               raise (Exception "Video processing failed: FileState.FAILED")
           | _ =>
               fun st' =>
                 (Ok (Uploaded video_file_obj),
                  set_uploaded_files
                    (<[video_path := Uploaded video_file_obj]>
                       (uploaded_files st')) st')
           end) st
      end.

(** [_build_extraction_prompt] *)
Definition _build_extraction_prompt (self : extractor) (video_metadata : dict)
  : outcome string :=
  let template := default "" (cfg_prompt_template (self_config self)) in
  format template
    [ ("title", str (get_default video_metadata "title" (VStr "Unknown")));
      ("section", str (get_default video_metadata "section" (VStr "Unknown")));
      ("course_context", default "" (cfg_course_context (self_config self)));
      ("output_format", default "" (cfg_output_format (self_config self))) ].

(** [extract_content].  Its [except] clause prints and raises the same
    exception again, so it is transparent. *)
Definition extract_content (self : extractor) (video_file_obj : video_obj)
    (video_metadata : dict) : M string :=
  prompt <~ lift (_build_extraction_prompt self video_metadata);;
  text <~ call (GenerateContent (self_model_name self) (uri video_file_obj)
                  (mime_type video_file_obj) prompt)
            (fun h => generate_content (self_client self) h
                        (self_model_name self) (uri video_file_obj)
                        (mime_type video_file_obj) prompt);;
  match text with
  | Some t =>
      if String.eqb t "" then raise (Exception "Empty response from Gemini")
      else ret t
  | None => raise (Exception "Empty response from Gemini")
  end.

(** The f-string of [_generate_metadata_header], for a given date. *)
Definition header_text (video_metadata : dict) (date : string) : string :=
  let source_info :=
    py_or (get video_metadata "youtube_url")
          (get_default video_metadata "filename" (VStr "Unknown")) in
  let source_label :=
    if truthy (get video_metadata "youtube_url")
    then "YouTube URL" else "Video File" in
  "# " +:+ str (get_default video_metadata "title" (VStr "Untitled"))
  +:+ nl +:+ nl
  +:+ "**Section:** "
  +:+ str (get_default video_metadata "section" (VStr "Unknown Section"))
  +:+ nl
  +:+ "**Extracted:** " +:+ date +:+ nl
  +:+ "**" +:+ source_label +:+ ":** " +:+ str source_info +:+ nl
  +:+ nl
  +:+ "---" +:+ nl.

(** [_generate_metadata_header] *)
Definition _generate_metadata_header (self : extractor) (video_metadata : dict)
  : M string :=
  date <~ strftime_now self;;
  ret (header_text video_metadata date).

(** [save_markdown] *)
Definition save_markdown (self : extractor) (content : string)
    (output_path : value) (video_metadata : dict) : M unit :=
  match output_path with
  | VNone =>
      raise (TypeError "expected str, bytes or os.PathLike object, not NoneType")
  | VStr p =>
      let output_file := Path p in
      (fun st =>
         match mkdir_parents (fs st) (parent output_file) with
         | Ok fs' => (Ok tt, set_fs fs' st)
         | Raise e => (Raise e, st)
         | Diverge => (Diverge, st)
         end);;;
      header <~ _generate_metadata_header self video_metadata;;
      let full_content := header +:+ nl +:+ nl +:+ content in
      fun st =>
        match write_text (fs st) output_file full_content with
        | Ok fs' => (Ok tt, set_fs fs' st)
        | Raise e => (Raise e, st)
        | Diverge => (Diverge, st)
        end
  end.

(** The three stages of one job, the body of the [try] of [process_video]. *)
Definition process_video_body (fuel : nat) (self : extractor)
    (video_config : dict) (youtube_url video_path output_path video_title : value)
  : M bool :=
  video_file_obj <~
    (if truthy youtube_url
     then create_youtube_video_object self (str youtube_url)
            (get video_config "title")
     else upload_video fuel self (str video_path) (get video_config "title"));;
  content <~ extract_content self video_file_obj video_config;;
  save_markdown self content output_path video_config;;;
  emit (Printed (Succeeded video_title));;;
  ret true.

(** [process_video] *)
Definition process_video (fuel : nat) (self : extractor) (video_config : dict)
  : M bool :=
  let youtube_url := get video_config "youtube_url" in
  let video_path := get video_config "path" in
  match video_config !! "output" with
  | None => raise (KeyError "output")
  | Some output_path =>
      if negb (truthy youtube_url) && negb (truthy video_path)
      then raise (ValueError
        "Video config must specify either 'youtube_url' or 'path'")
      else
        let video_source := py_or youtube_url video_path in
        let video_title := get_default video_config "title" video_source in
        emit (Printed (Processing video_title));;;
        try_except
          (process_video_body fuel self video_config
             youtube_url video_path output_path video_title)
          (fun e =>
             emit (Printed (FailedToProcess video_source e));;;
             ret false)
  end.

(** The summary [process_batch] returns; [errors] is [None] when the
    dictionary has no such key. *)
Record error_entry := {
  video : value;
  source : value }.

Record results := {
  total : nat;
  success : nat;
  failed : nat;
  errors : option (list error_entry) }.

(** The filter of [process_batch]. *)
Definition requested (video_list : list string) (v : dict) : bool :=
  in_list (get v "path") video_list
  || in_list (get v "youtube_url") video_list
  || in_list (get v "id") video_list.

Definition select_videos (self : extractor) (video_list : option (list string))
  : list dict :=
  let videos := default [] (cfg_videos (self_config self)) in
  match video_list with
  | None => videos
  | Some l =>
      match l with
      | [] => videos
      | _ :: _ => List.filter (requested l) videos
      end
  end.

(** The bookkeeping of one loop iteration. *)
Definition record_result (video_config : dict) (ok : bool) (r : results)
  : results :=
  if ok
  then {| total := total r; success := S (success r); failed := failed r;
          errors := errors r |}
  else
    let video_source :=
      py_or (get video_config "youtube_url") (get video_config "path") in
    {| total := total r; success := success r; failed := S (failed r);
       errors := Some (default [] (errors r) ++
                       [ {| video := get_default video_config "title" video_source;
                            source := video_source |} ])%list |}.

(** [for i, video_config in enumerate(videos, 1)], from index [i] on. *)
Fixpoint batch_loop (fuel : nat) (self : extractor) (n i : nat)
    (videos : list dict) (r : results) : M results :=
  match videos with
  | [] => ret r
  | video_config :: rest =>
      ok <~ process_video fuel self video_config;;
      let r' := record_result video_config ok r in
      (if (i <? n)%nat
       then time_sleep RateLimit
              (default 2%Z (cfg_rate_limit_delay (self_config self)))
       else ret tt);;;
      batch_loop fuel self n (S i) rest r'
  end.

(** [process_batch] *)
Definition process_batch (fuel : nat) (self : extractor)
    (video_list : option (list string)) : M results :=
  let videos := select_videos self video_list in
  match videos with
  | [] => ret {| total := 0; success := 0; failed := 0; errors := None |}
  | _ =>
      batch_loop fuel self (length videos) 1 videos
        {| total := length videos; success := 0; failed := 0;
           errors := Some [] |}
  end.

(** ** What a run shows at the level of the batch *)

(** The title [process_video] prints for a job and the source it reports. *)
Definition source_of (video_config : dict) : value :=
  py_or (get video_config "youtube_url") (get video_config "path").

Definition title_of (video_config : dict) : value :=
  get_default video_config "title" (source_of video_config).

Definition error_of (video_config : dict) : error_entry :=
  {| video := title_of video_config; source := source_of video_config |}.

(** A job that passes the checks at the head of [process_video]. *)
Definition valid_job (video_config : dict) : bool :=
  match video_config !! "output" with
  | Some _ =>
      truthy (get video_config "youtube_url") || truthy (get video_config "path")
  | None => false
  end.

(** The events a batch is made of: the start of a job and the pause
    between two jobs. *)
Definition batch_level (ev : event) : bool :=
  match ev with
  | Printed (Processing _) => true
  | Sleep RateLimit _ => true
  | _ => false
  end.

Definition batch_view (t : list event) : list event := List.filter batch_level t.


Definition is_upload (ev : event) : bool :=
  match ev with
  | FilesUpload _ _ _ => true
  | _ => false
  end.

(** The jobs started one after the other with one pause of [d] between
    two consecutive jobs. *)
Fixpoint schedule (d : Z) (titles : list value) : list event :=
  match titles with
  | [] => []
  | [t] => [Printed (Processing t)]
  | t :: rest => Printed (Processing t) :: Sleep RateLimit d :: schedule d rest
  end.

(** The same, for the part of the loop that starts at index [i] of [n]. *)
Fixpoint loop_view (d : Z) (n i : nat) (titles : list value) : list event :=
  match titles with
  | [] => []
  | t :: rest =>
      Printed (Processing t) ::
      (if (i <? n)%nat then [Sleep RateLimit d] else []) ++
      loop_view d n (S i) rest
  end.

(** The state in which the batch reaches its job number [j] (from 0), and
    what [process_video] does there. *)
Definition initial_results (videos : list dict) : results :=
  {| total := length videos; success := 0; failed := 0; errors := Some [] |}.


(** The service answers of the polling loop: from history [h] and object
    [obj], the status leaves [PROCESSING] after exactly [n] polls, with the
    object [final] and the history [h']. *)
Inductive settles (self : extractor)
  : list event -> File -> nat -> File -> list event -> Prop :=
| settles_now h obj :
    file_state obj <> PROCESSING -> settles self h obj 0 obj h
| settles_later h obj next n final h' :
    file_state obj = PROCESSING ->
    files_get (self_client self) (h ++ [Sleep PollWait 2]) (file_name obj)
      = Ok next ->
    settles self (h ++ [Sleep PollWait 2; FilesGet (file_name obj)])
      next n final h' ->
    settles self h obj (S n) final h'.

(** The events of the polling loop: before each poll of the file called
    [nm], a sleep of 2 seconds. *)
Definition poll_events (names : list string) : list event :=
  flat_map (fun nm => [Sleep PollWait 2; FilesGet nm]) names.

(** A file system on which [save_markdown] can write [p]: no prefix of the
    parent directory is a regular file and [p] is not a directory. *)
Definition writable (fs : filesystem) (p : path) : bool :=
  forallb (fun q => negb (is_reg fs q)) (ancestors (parent p))
  && negb (is_dir fs p).

(** [self.config.get('rate_limit_delay', 2)] *)
Definition rate_limit_delay (self : extractor) : Z :=
  default 2%Z (cfg_rate_limit_delay (self_config self)).


(** The titles of the jobs started, in the order of their start lines. *)
Fixpoint started (t : list event) : list value :=
  match t with
  | [] => []
  | Printed (Processing title) :: t' => title :: started t'
  | _ :: t' => started t'
  end.

(** The summary of a run without jobs: it has no [errors] key. *)
Definition empty_summary : results :=
  {| total := 0; success := 0; failed := 0; errors := None |}.

(** [extends P st st']: from [st] to [st'] the trace has grown by events
    that satisfy [P]; [emits P m]: method [m] only adds such events. *)
Definition extends (P : event -> bool) (st st' : state) : Prop :=
  exists d, (trace st' = trace st ++ d)%list /\ Forall (fun ev => P ev = true) d.

Definition emits {A} (P : event -> bool) (m : M A) : Prop :=
  forall st, extends P st (snd (m st)).

(** The events of one job after its start line. *)
Definition job_event (ev : event) : bool :=
  match ev with
  | Printed (Processing _) => false
  | Sleep RateLimit _ => false
  | _ => true
  end.

(** The first stage of a job: the source is referenced or uploaded. *)
Definition prepare (fuel : nat) (self : extractor) (video_config : dict)
  : M video_obj :=
  if truthy (get video_config "youtube_url")
  then create_youtube_video_object self (str (get video_config "youtube_url"))
         (get video_config "title")
  else upload_video fuel self (str (get video_config "path"))
         (get video_config "title").

(** The three stages of a job, and what it means that exception [e]
    escapes stage [s] of job [video_config] started in state [st]. *)
Inductive stage :=
| Preparation
| Extraction
| Writing.

Definition job_fails (fuel : nat) (self : extractor) (video_config : dict)
    (st : state) (s : stage) (e : exn) : Prop :=
  let st1 := add_event (Printed (Processing (title_of video_config))) st in
  match s with
  | Preparation => fst (prepare fuel self video_config st1) = Raise e
  | Extraction =>
      exists obj st2,
        prepare fuel self video_config st1 = (Ok obj, st2) /\
        fst (extract_content self obj video_config st2) = Raise e
  | Writing =>
      exists obj st2 content st3,
        prepare fuel self video_config st1 = (Ok obj, st2) /\
        extract_content self obj video_config st2 = (Ok content, st3) /\
        fst (save_markdown self content (get video_config "output")
               video_config st3) = Raise e
  end.

(** ** A small world to run the pipeline in *)
Module Demo.

Definition is_get (ev : event) : bool :=
  match ev with FilesGet _ => true | _ => false end.

(** A service that reports [PROCESSING] on upload and on the first two
    polls of a session, answers every generation request, and never
    fails. *)
Definition client : external := {|
  files_upload h content display_name mime :=
    Ok {| file_name := "files/" +:+ display_name;
          file_uri := "https://files/" +:+ display_name;
          file_mime_type := mime; file_state := PROCESSING |};
  files_get h name :=
    Ok {| file_name := name; file_uri := "https://" +:+ name;
          file_mime_type := "video/mp4";
          file_state :=
            if (length (List.filter is_get h) <? 2)%nat
            then PROCESSING else ACTIVE |};
  generate_content h model uri mime prompt := Ok (Some "BODY");
  today h := "2024-01-01" |}.

(** A service whose processing never ends. *)
Definition stuck_client : external := {|
  files_upload h content display_name mime :=
    Ok {| file_name := "files/x"; file_uri := "https://files/x";
          file_mime_type := mime; file_state := PROCESSING |};
  files_get h name :=
    Ok {| file_name := name; file_uri := "https://files/x";
          file_mime_type := "video/mp4"; file_state := PROCESSING |};
  generate_content h model uri mime prompt := Ok (Some "BODY");
  today h := "2024-01-01" |}.

(** A service whose processing fails after one poll. *)
Definition failing_client : external := {|
  files_upload h content display_name mime :=
    Ok {| file_name := "files/x"; file_uri := "https://files/x";
          file_mime_type := mime; file_state := PROCESSING |};
  files_get h name :=
    Ok {| file_name := name; file_uri := "https://files/x";
          file_mime_type := "video/mp4"; file_state := FAILED |};
  generate_content h model uri mime prompt := Ok (Some "BODY");
  today h := "2024-01-01" |}.

Definition job (fields : list (string * string)) : dict :=
  list_to_map (List.map (fun kv => (fst kv, VStr (snd kv))) fields).

Definition job_a : dict :=
  job [("id", "a"); ("title", "T"); ("section", "S");
       ("youtube_url", "https://youtu.be/abc123"); ("output", "out/a.md")].

Definition job_b : dict :=
  job [("id", "b"); ("title", "B"); ("path", "videos/missing.mp4");
       ("output", "out/b.md")].

Definition job_c : dict :=
  job [("id", "c"); ("path", "videos/c.mp4"); ("output", "out/c.md")].

Definition job_both : dict :=
  job [("title", "T"); ("youtube_url", "https://youtu.be/abc123");
       ("path", "videos/c.mp4"); ("output", "out/both.md")].

Definition job_vimeo : dict :=
  job [("title", "V"); ("youtube_url", "https://vimeo.com/abc123");
       ("output", "out/v.md")].

Definition job_none : dict :=
  job [("title", "N"); ("output", "out/n.md")].

Definition cfg (videos : list dict) : config := {|
  cfg_api_key := VStr "key"; cfg_model := None;
  cfg_rate_limit_delay := Some 5%Z;
  cfg_prompt_template := Some "Extract {title} / {section}";
  cfg_course_context := None; cfg_output_format := None;
  cfg_videos := Some videos |}.

Definition extractor_of (c : external) (videos : list dict) : extractor := {|
  self_config := cfg videos; self_client := c;
  self_model_name := "gemini-1.5-pro" |}.

Definition self : extractor := extractor_of client [job_a; job_b; job_c].

Definition five : extractor :=
  extractor_of client [job_a; job_b; job_c; job_both; job_vimeo].

Definition disk : filesystem :=
  <[ ["videos"; "c.mp4"] := Reg "bytes" ]> (<[ ["videos"] := Dir ]> ∅).

Definition st0 : state := {| uploaded_files := ∅; fs := disk; trace := [] |}.

(** The state after the upload of [videos/c.mp4], the handle it returns,
    and the same state once the local file has been removed. *)
Definition after_upload : state :=
  snd (upload_video 5 self "videos/c.mp4" VNone st0).

Definition handle_c : video_obj :=
  Uploaded {| file_name := "files/c"; file_uri := "https://files/c";
              file_mime_type := "video/mp4"; file_state := ACTIVE |}.

Definition file_removed : state :=
  set_fs (delete ["videos"; "c.mp4"] (fs after_upload)) after_upload.

(** The state after a first upload that the service failed to process. *)
Definition after_failure : state :=
  snd (upload_video 5 (extractor_of failing_client []) "videos/c.mp4" VNone st0).

(** A state in which the output of [job_a] already exists. *)
Definition st_old : state :=
  {| uploaded_files := ∅;
     fs := <[ ["out"; "a.md"] := Reg "old text" ]> (<[ ["out"] := Dir ]> disk);
     trace := [] |}.

End Demo.

(** ** Further observations on a run *)

(** How many events of a trace satisfy [p]. *)
Definition count_events (p : event -> bool) (t : list event) : nat :=
  length (List.filter p t).

Definition is_generate (ev : event) : bool :=
  match ev with
  | GenerateContent _ _ _ _ => true
  | _ => false
  end.

(** [adds p n m]: method [m] extends the trace, by at most [n] events that
    satisfy [p]. *)
Definition adds {A} (p : event -> bool) (n : nat) (m : M A) : Prop :=
  forall st, exists d,
    (trace (snd (m st)) = trace st ++ d)%list /\ count_events p d <= n.

(** [keeps R m]: the states before and after [m] are related by [R]. *)
Definition keeps {A} (R : state -> state -> Prop) (m : M A) : Prop :=
  forall st, R st (snd (m st)).

(** The cache only grows: an entry stays, with the same handle. *)
Definition cache_grows (st st' : state) : Prop :=
  uploaded_files st ⊆ uploaded_files st'.

(** Outside the paths [S] the file system is the same. *)
Definition same_outside (S : path -> Prop) (st st' : state) : Prop :=
  forall q, ~ S q -> fs_lookup (fs st') q = fs_lookup (fs st) q.

(** Nothing is removed and nothing changes its kind. *)
Definition kind_of (n : node) : bool :=
  match n with Dir => true | Reg _ => false end.

Definition nothing_lost (st st' : state) : Prop :=
  forall q n, fs_lookup (fs st) q = Some n ->
    exists n', fs_lookup (fs st') q = Some n' /\ kind_of n' = kind_of n.

(** The paths a job may write: its output file and the directories above
    it. *)
Definition output_paths (video_config : dict) (q : path) : Prop :=
  exists p, video_config !! "output" = Some (VStr p)
            /\ (q = Path p \/ q ∈ ancestors (parent (Path p))).

(** The sources of the failure lines and the titles of the success lines of
    a trace, in order. *)
Fixpoint failed_sources (t : list event) : list value :=
  match t with
  | [] => []
  | Printed (FailedToProcess src _) :: t' => src :: failed_sources t'
  | _ :: t' => failed_sources t'
  end.

Fixpoint succeeded_titles (t : list event) : list value :=
  match t with
  | [] => []
  | Printed (Succeeded title) :: t' => title :: succeeded_titles t'
  | _ :: t' => succeeded_titles t'
  end.

(** Text in which every brace is doubled, as [str.format] wants literal
    braces written. *)
Fixpoint escape_braces (s : string) : string :=
  match s with
  | EmptyString => EmptyString
  | String c s' =>
      if Ascii.eqb c "{"%char then String c (String c (escape_braces s'))
      else if Ascii.eqb c "}"%char then String c (String c (escape_braces s'))
      else String c (escape_braces s')
  end.

(** The two lines that close a job: its success line or its failure line. *)
Definition is_verdict (ev : event) : bool :=
  match ev with
  | Printed (Succeeded _) => true
  | Printed (FailedToProcess _ _) => true
  | _ => false
  end.

(** Two outcomes of the same kind: both return, or both raise the same
    exception, or both do not end. *)
Definition same_error {A} (o o' : outcome A) : Prop :=
  match o, o' with
  | Ok _, Ok _ => True
  | Raise e, Raise e' => e = e'
  | Diverge, Diverge => True
  | _, _ => False
  end.

(** A prompt template seen as a sequence of literal texts and replacement
    fields; [template_of] writes it down the way [str.format] reads it, with
    the braces of the literal texts doubled. *)
Inductive piece :=
| Text (s : string)
| Field (field_name : string).

Definition piece_text (p : piece) : string :=
  match p with
  | Text s => escape_braces s
  | Field k => "{" +:+ k +:+ "}"
  end.

Definition template_of (ps : list piece) : string :=
  foldr (fun p t => piece_text p +:+ t) "" ps.

(** The keyword arguments [_build_extraction_prompt] passes to [format]. *)
Definition prompt_fields (self : extractor) (video_metadata : dict)
  : list (string * string) :=
  [ ("title", str (get_default video_metadata "title" (VStr "Unknown")));
    ("section", str (get_default video_metadata "section" (VStr "Unknown")));
    ("course_context", default "" (cfg_course_context (self_config self)));
    ("output_format", default "" (cfg_output_format (self_config self))) ].

(** The text a template stands for, once its fields have their values. *)
Definition fill (kw : list (string * string)) (ps : list piece) : string :=
  foldr (fun p t =>
           match p with
           | Text s => s
           | Field k => default "" (assoc k kw)
           end +:+ t) "" ps.

Definition known_field (p : piece) : Prop :=
  match p with
  | Text _ => True
  | Field k => k ∈ ["title"; "section"; "course_context"; "output_format"]
  end.

(** The demonstration extractor with a template that names a field
    [_build_extraction_prompt] does not pass. *)
Definition unfillable : extractor := {|
  self_config := {|
    cfg_api_key := VStr "key"; cfg_model := None;
    cfg_rate_limit_delay := Some 5%Z;
    cfg_prompt_template := Some "Extract {speaker}";
    cfg_course_context := None; cfg_output_format := None;
    cfg_videos := Some [Demo.job_a; Demo.job_c] |};
  self_client := Demo.client;
  self_model_name := "gemini-1.5-pro" |}.

(** The shape the three patterns of [_is_youtube_url] share: an optional
    scheme, an optional [www.], the text [host], and then at least one
    word character or dash. *)
Definition youtube_pattern (host : string) : Re.regex :=
  Re.Cat (Re.Opt (Re.Cat (Re.Str "http")
                    (Re.Cat (Re.Opt (Re.Lit "s")) (Re.Str "://"))))
    (Re.Cat (Re.Opt (Re.Str "www."))
       (Re.Cat (Re.Str host) (Re.Plus (Re.Class Re.word_or_dash)))).

Definition youtube_hosts : list string :=
  ["youtube.com/watch?v="; "youtu.be/"; "youtube.com/embed/"].

(** ** The command line *)

(** What [argparse] hands to [main]: [--config] with its default, the
    names after [--videos], and [--api-key]. *)
Record arguments := {
  args_config : string;
  args_videos : option (list string);
  args_api_key : option string }.

(** [if args.api_key: os.environ['GEMINI_API_KEY'] = args.api_key]: the
    value of the variable afterwards, from its value [environ_key] before. *)
Definition set_api_key (args : arguments) (environ_key : value) : value :=
  match args_api_key args with
  | Some k => if truthy (VStr k) then VStr k else environ_key
  | None => environ_key
  end.

(** [main].  [environ_key] is the value of [GEMINI_API_KEY] in the
    environment of the process, [config_files] what each configuration path
    holds once parsed.  The result is the exit status: the one given to
    [sys.exit], or 0 when [main] returns; an exception that [main] does not
    catch is its outcome. *)
Definition main (fuel : nat) (args : arguments) (environ_key : value)
    (config_files : string -> option config) (client : external)
    (disk : filesystem) : outcome nat * state :=
  let environ_key := set_api_key args environ_key in
  match init (config_files (args_config args)) environ_key client disk with
  | Ok (extractor, st) =>
      match process_batch fuel extractor (args_videos args) st with
      | (Ok results, st') =>
          if (0 <? failed results)%nat then (Ok 1, st') else (Ok 0, st')
      | (Raise e, st') => (Raise e, st')
      | (Diverge, st') => (Diverge, st')
      end
  | Raise e => (Ok 1, {| uploaded_files := ∅; fs := disk; trace := [] |})
  | Diverge => (Diverge, {| uploaded_files := ∅; fs := disk; trace := [] |})
  end.

(** * [init_video_pipeline.py]

    The script that sets up a project directory.  Its statements act on the
    file system one after the other; the first one that raises ends the
    function, and the file system stays as the statements before it have
    left it. *)
Module init_video_pipeline.

Definition action := filesystem -> outcome filesystem.

Fixpoint run (ops : list action) (fs : filesystem)
  : outcome unit * filesystem :=
  match ops with
  | [] => (Ok tt, fs)
  | op :: rest =>
      match op fs with
      | Ok fs' => run rest fs'
      | Raise e => (Raise e, fs)
      | Diverge => (Diverge, fs)
      end
  end.

(** [p.mkdir(exist_ok=True)]: the directory above [p] must exist; an
    existing directory at [p] is accepted, an existing file is not.  When
    the directory above [p] is missing, [os.mkdir] reports the regular file
    it meets on the way to it, if there is one, and the missing directory
    otherwise. *)
Definition mkdir_exist_ok (p : path) : action := fun fs =>
  match fs_lookup fs p with
  | Some Dir => Ok fs
  | Some (Reg _) => Raise (FileExistsError "File exists")
  | None =>
      match fs_lookup fs (parent p) with
      | Some Dir => Ok (<[p := Dir]> fs)
      | Some (Reg _) => Raise (NotADirectoryError "Not a directory")
      | None =>
          if existsb (is_reg fs) (ancestors (parent p))
          then Raise (NotADirectoryError "Not a directory")
          else Raise (FileNotFoundError "No such file or directory")
      end
  end.

(** [shutil.copy2(src, dst)]: a destination that is a directory stands for
    the file of the same name inside it; copying a file onto itself raises
    [shutil.SameFileError], kept here as a plain exception; the content of
    the source replaces what the destination held.  File metadata is not
    modelled. *)
Definition copy2 (src dst : path) : action := fun fs =>
  let dst := if is_dir fs dst then (dst ++ [name src])%list else dst in
  if bool_decide (src = dst) && path_exists fs src
  then Raise (Exception "SameFileError: source and destination are the same file")
  else
    match read_bytes fs src with
    | Ok content => write_text fs dst content
    | Raise e => Raise e
    | Diverge => Diverge
    end.

(** [if src.exists(): shutil.copy2(src, dst)] *)
Definition copy_if_exists (src dst : path) : action := fun fs =>
  if path_exists fs src then copy2 src dst fs else Ok fs.

Definition readme_content : string :=
"# Video Extraction Pipeline

Extract structured content from videos using Google Gemini API.
**Supports both local video files and YouTube URLs!**

## Quick Start

1. **Install dependencies:**
   ```bash
   uv pip install google-genai pyyaml python-dotenv
   ```

2. **Set up API key:**
   ```bash
   cd scripts
   cp .env.example .env
   # Edit .env and add your GEMINI_API_KEY
   ```

3. **Configure videos:**
   Edit `scripts/config.yaml` and add your video paths or YouTube URLs

4. **Run extraction:**
   ```bash
   cd scripts
   python3 video_extractor.py
   ```

## Directory Structure

```
.
├── scripts/
│   ├── video_extractor.py  # Main extraction script
│   ├── config.yaml         # Pipeline configuration
│   └── .env               # API key (create from .env.example)
├── videos/                 # Place your video files here
└── extracted/             # Extracted markdown outputs
```

## Configuration

Edit `scripts/config.yaml` to:
- Set model (gemini-2.5-pro or gemini-2.5-flash)
- Adjust rate limiting for free tier (60s delay recommended)
- Customize extraction prompts
- Define video list with local paths OR YouTube URLs
  - Local files: use `path` field
  - YouTube videos: use `youtube_url` field (no download needed!)
  - Mix both types in the same config

## Usage

Process all videos:
```bash
cd scripts
python3 video_extractor.py
```

Process specific videos:
```bash
python3 video_extractor.py --videos video-id-1 video-id-2
```

Custom config:
```bash
python3 video_extractor.py --config custom_config.yaml
```

## Next Steps

1. Update `scripts/config.yaml` with your video list:
   - For local files: Place videos in `videos/` directory and use `path` field
   - For YouTube: Add URLs with `youtube_url` field (public videos only)
2. Customize extraction prompts for your content type
3. Run pilot test on 2-3 videos to validate quality
4. Process remaining videos after prompt tuning

**YouTube Limitations:**
- Only public videos supported (not private/unlisted)
- 8-hour daily limit per Gemini API account

For detailed setup and customization, see the skill documentation.
".

(** [init_pipeline].  [skill_dir] is [Path(__file__).parent.parent]. *)
Definition init_pipeline (skill_dir project_path : path)
    (videos_path : option path) : filesystem -> outcome unit * filesystem :=
  let scripts_dir := (project_path ++ ["scripts"])%list in
  let videos_dir := default (project_path ++ ["videos"])%list videos_path in
  let output_dir := (project_path ++ ["extracted"])%list in
  run [ (fun fs => mkdir_parents fs project_path);
        mkdir_exist_ok scripts_dir;
        mkdir_exist_ok videos_dir;
        mkdir_exist_ok output_dir;
        copy_if_exists (skill_dir ++ ["scripts"; "video_extractor.py"])%list
          (scripts_dir ++ ["video_extractor.py"])%list;
        copy_if_exists (skill_dir ++ ["references"; "config_template.yaml"])%list
          (scripts_dir ++ ["config.yaml"])%list;
        copy_if_exists (skill_dir ++ ["assets"; ".env.example"])%list
          (scripts_dir ++ [".env.example"])%list;
        (fun fs => write_text fs (project_path ++ ["README.md"])%list
                     readme_content) ]%list.

(** [main]: the exit status. *)
Definition main (skill_dir project_path : path) (videos_path : option path)
    (fs : filesystem) : outcome nat * filesystem :=
  match init_pipeline skill_dir project_path videos_path fs with
  | (Ok _, fs') => (Ok 0, fs')
  | (Raise e, fs') => (Ok 1, fs')
  | (Diverge, fs') => (Diverge, fs')
  end.

End init_video_pipeline.

(** What a statement may do to the file system: at the paths [T] it may
    create something, or replace something by a thing of the same kind;
    every other path is as before. *)
Definition changes_only (T : path -> Prop) (fs fs' : filesystem) : Prop :=
  forall q,
    fs_lookup fs' q = fs_lookup fs q
    \/ (T q /\ exists n', fs_lookup fs' q = Some n'
                         /\ forall n, fs_lookup fs q = Some n ->
                                      kind_of n = kind_of n').

(** The paths [init_pipeline] may touch: the project directory and what is
    above and below it, and the directory of the videos. *)
Definition touched (project_path videos_dir q : path) : Prop :=
  q ∈ ancestors project_path \/ project_path `prefix_of` q \/ q = videos_dir.

(** File [src] as it was in [fs] has been copied to [dst] in [fs'], or
    into [dst] when that is a directory, the way [shutil.copy2] does. *)
Definition copied (fs fs' : filesystem) (src dst : path) : Prop :=
  forall c,
    fs_lookup fs src = Some (Reg c) ->
    fs_lookup fs' (if is_dir fs' dst then (dst ++ [name src])%list else dst)
    = Some (Reg c).

(** Every regular file of [fs] is in [fs'] with the same content. *)
Definition files_kept (fs fs' : filesystem) : Prop :=
  forall q c, fs_lookup fs q = Some (Reg c) -> fs_lookup fs' q = Some (Reg c).

(** A skill directory with its three core files, and a project whose
    [config.yaml] has been edited. *)
Definition skill_disk : filesystem :=
  <[ ["skill"; "scripts"; "video_extractor.py"] := Reg "code" ]>
  (<[ ["skill"; "references"; "config_template.yaml"] := Reg "template" ]>
  (<[ ["skill"; "assets"; ".env.example"] := Reg "GEMINI_API_KEY=" ]>
  (<[ ["skill"; "scripts"] := Dir ]>
  (<[ ["skill"; "references"] := Dir ]>
  (<[ ["skill"; "assets"] := Dir ]>
  (<[ ["skill"] := Dir ]>
  (<[ ["proj"; "scripts"; "config.yaml"] := Reg "edited" ]>
  (<[ ["proj"; "scripts"] := Dir ]>
  (<[ ["proj"] := Dir ]> ∅))))))))).

(** The regular files, and what they hold, are the same in both file
    systems. *)
Definition same_files (fs fs' : filesystem) : Prop :=
  forall q c, fs_lookup fs' q = Some (Reg c) <-> fs_lookup fs q = Some (Reg c).



(** ** The summary on the screen *)

(** [_print_summary]: the texts given to [print], one per call, and how the
    method ends.  [results['errors']] raises [KeyError] on a summary that
    has no such key, after the six lines before it have been printed. *)
Definition _print_summary (results : results) : list string * outcome unit :=
  let rule := String.concat "" (repeat "=" 70) in
  let counters :=
    [ nl +:+ rule; "PROCESSING SUMMARY"; rule;
      "Total videos: " +:+ pretty (total results);
      "✓ Successful: " +:+ pretty (success results);
      "✗ Failed: " +:+ pretty (failed results) ]%list in
  match errors results with
  | None => (counters, Raise (KeyError "errors"))
  | Some [] => (counters, Ok tt)
  | Some l =>
      ((counters
        ++ (nl +:+ "Failed videos:")
           :: List.map (fun error => "  - " +:+ str (video error)) l)%list,
       Ok tt)
  end.

(** The exit status of the process that runs [main]: the one [main] gives
    to [sys.exit], 0 when [main] returns, and 1 when an exception leaves
    [main], which the interpreter reports with a traceback.  A run that
    does not end has no exit status. *)
Definition exit_status (o : outcome nat) : option nat :=
  match o with
  | Ok code => Some code
  | Raise _ => Some 1
  | Diverge => None
  end.

(** ** Paths that name a file in one way only *)

(** A component that is a name: not empty, not [.] or [..], and without a
    slash; and a relative path made of names only.  The file system of this
    development is keyed by the components as they are written: it has no
    links, [..] is a name like another, and an absolute path is another key
    than a relative one.  For two plain paths, to be the same key and to be
    the same file is one thing; so what is said of files at paths that are
    kept apart is said of plain paths. *)
Fixpoint has_slash (s : string) : bool :=
  match s with
  | EmptyString => false
  | String c s' => Ascii.eqb c "/"%char || has_slash s'
  end.

Definition is_name (w : string) : bool :=
  negb (String.eqb w "") && negb (String.eqb w ".")
  && negb (String.eqb w "..") && negb (has_slash w).

Definition plain (p : path) : bool := forallb is_name p.

(** ** Where the library models are exact *)

(** A template whose replacement fields are plain names: between an opening
    brace and the brace that closes it there is no [.], [[], [!], [:] or
    opening brace, so no attribute, index, conversion, format specification
    or nested field.  On such a
    template [format] does what [str.format] does; on the others
    [str.format] looks into the values, which [format] does not model. *)
Fixpoint plain_fields_from (inside : bool) (t : string) : bool :=
  match t with
  | EmptyString => true
  | String c t' =>
      if inside
      then
        if Ascii.eqb c "}"%char then plain_fields_from false t'
        else
          negb (Ascii.eqb c "."%char || Ascii.eqb c "["%char
                || Ascii.eqb c "!"%char || Ascii.eqb c ":"%char
                || Ascii.eqb c "{"%char)
          && plain_fields_from true t'
      else if Ascii.eqb c "{"%char
      then
        match t' with
        | EmptyString => true
        | String c' t'' =>
            if Ascii.eqb c' "{"%char then plain_fields_from false t''
            else plain_fields_from true t'
        end
      else plain_fields_from false t'
  end.

Definition plain_fields (t : string) : bool := plain_fields_from false t.

(** A string of the ASCII range.  On these [Re.is_word] is [\w]; on a
    [str] pattern Python's [\w] also takes the letters and digits beyond
    ASCII. *)
Fixpoint ascii_only (s : string) : bool :=
  match s with
  | EmptyString => true
  | String c s' => (nat_of_ascii c <? 128)%nat && ascii_only s'
  end.

Open Scope list_scope.

(** * Properties *)

(** ** The model at work *)

Example Path_parts :
  Path "/a//b/./c.md" = ["/"; "a"; "b"; "c.md"] /\ Path "out/a.md" = ["out"; "a.md"]
  /\ parent (Path "out/a.md") = ["out"] /\ parent (Path "a.md") = [].
Proof. by vm_compute. Qed.

Example stem_drops_last_suffix :
  stem (Path "videos/c.mp4") = "c" /\ stem (Path "x.tar.gz") = "x.tar"
  /\ stem (Path ".env") = ".env".
Proof. by vm_compute. Qed.

Example format_fills_fields :
  format "Extract {title} of {section} {{raw}}" [("title", "T"); ("section", "S")]
  = Ok "Extract T of S {raw}".
Proof. by vm_compute. Qed.

Example format_missing_key :
  format "Extract {title} {speaker}" [("title", "T")] = Raise (KeyError "speaker").
Proof. by vm_compute. Qed.

Example format_single_brace :
  format "Extract {title} }" [("title", "T")]
  = Raise (ValueError "Single '}' encountered in format string").
Proof. by vm_compute. Qed.

Example youtube_url_shapes :
  List.map _is_youtube_url
    ["youtu.be/x"; "http://www.youtube.com/watch?v=a-b_c&t=1";
     "https://youtu.be/"; "see https://youtu.be/abc"; "https://youtube.com/watch"]
  = [true; true; false; false; false].
Proof. by vm_compute. Qed.

(** The batch of the three demo jobs: the second one names a file that does
    not exist. *)
Example demo_batch :
  fst (process_batch 5 Demo.self None Demo.st0)
  = Ok {| total := 3; success := 2; failed := 1;
          errors := Some [ {| video := VStr "B";
                              source := VStr "videos/missing.mp4" |} ] |}
  /\ trace (snd (process_batch 5 Demo.self None Demo.st0))
     = [Printed (Processing (VStr "T"));
        GenerateContent "gemini-1.5-pro" "https://youtu.be/abc123" "video/mp4"
          "Extract T / S";
        Printed (Succeeded (VStr "T"));
        Sleep RateLimit 5;
        Printed (Processing (VStr "B"));
        Printed (FailedToProcess (VStr "videos/missing.mp4")
                   (FileNotFoundError "Video file not found: videos/missing.mp4"));
        Sleep RateLimit 5;
        Printed (Processing (VStr "videos/c.mp4"));
        FilesUpload "bytes" "c" "video/mp4";
        Sleep PollWait 2; FilesGet "files/c";
        Sleep PollWait 2; FilesGet "files/c";
        Sleep PollWait 2; FilesGet "files/c";
        GenerateContent "gemini-1.5-pro" "https://files/c" "video/mp4"
          "Extract Unknown / Unknown";
        Printed (Succeeded (VStr "videos/c.mp4"))].
Proof. by vm_compute. Qed.

(** With fuel for one poll only, the third job is still waiting. *)
Example demo_batch_out_of_fuel :
  fst (process_batch 1 Demo.self None Demo.st0) = Diverge.
Proof. by vm_compute. Qed.

(** ** The monad *)

Lemma bind_ok {A B} (m : M A) (k : A -> M B) st a st' :
  m st = (Ok a, st') -> bind m k st = k a st'.
Proof. intros H. unfold bind. by rewrite H. Qed.

Lemma bind_raise {A B} (m : M A) (k : A -> M B) st e st' :
  m st = (Raise e, st') -> bind m k st = (Raise e, st').
Proof. intros H. unfold bind. by rewrite H. Qed.

Lemma bind_diverge {A B} (m : M A) (k : A -> M B) st st' :
  m st = (Diverge, st') -> bind m k st = (Diverge, st').
Proof. intros H. unfold bind. by rewrite H. Qed.

Lemma bind_assoc {A B C} (m : M A) (k : A -> M B) (h : B -> M C) st :
  bind (bind m k) h st = bind m (fun a => bind (k a) h) st.
Proof. unfold bind. by destruct (m st) as [[a | e |] st1]. Qed.

Lemma bind_ext {A B} (m : M A) (k k' : A -> M B) st :
  (forall a st1, k a st1 = k' a st1) -> bind m k st = bind m k' st.
Proof. intros H. unfold bind. by destruct (m st) as [[a | e |] st1]. Qed.

(** ** Which events a method can add to the trace *)

Lemma extends_refl P st : extends P st st.
Proof. exists []. split; [by rewrite app_nil_r | constructor]. Qed.

Lemma extends_same P st st' : trace st' = trace st -> extends P st st'.
Proof. intros H. exists []. split; [by rewrite app_nil_r | constructor]. Qed.

Lemma extends_trans P st1 st2 st3 :
  extends P st1 st2 -> extends P st2 st3 -> extends P st1 st3.
Proof.
  intros (d1 & E1 & F1) (d2 & E2 & F2). exists (d1 ++ d2). split.
  - by rewrite E2, E1, app_assoc.
  - by apply Forall_app.
Qed.

Lemma extends_add P ev st : P ev = true -> extends P st (add_event ev st).
Proof. intros H. exists [ev]. split; [done | by repeat constructor]. Qed.

Lemma emits_ret {A} P (a : A) : emits P (ret a).
Proof. intros st. apply extends_refl. Qed.

Lemma emits_raise {A} P e : emits P (@raise A e).
Proof. intros st. apply extends_refl. Qed.

Lemma emits_diverge {A} P : emits P (@diverge A).
Proof. intros st. apply extends_refl. Qed.

Lemma emits_lift {A} P (r : outcome A) : emits P (lift r).
Proof. intros st. apply extends_refl. Qed.

Lemma emits_emit P ev : P ev = true -> emits P (emit ev).
Proof. intros H st. by apply extends_add. Qed.

Lemma emits_call {A} P ev (f : list event -> outcome A) :
  P ev = true -> emits P (call ev f).
Proof. intros H st. by apply extends_add. Qed.

Lemma emits_bind {A B} P (m : M A) (k : A -> M B) :
  emits P m -> (forall a, emits P (k a)) -> emits P (bind m k).
Proof.
  intros Hm Hk st. unfold bind. specialize (Hm st).
  destruct (m st) as [[a | e |] st1]; simpl in *; try done.
  eapply extends_trans; [exact Hm | apply Hk].
Qed.

Lemma emits_try_except {A} P (body : M A) (handler : exn -> M A) :
  emits P body -> (forall e, emits P (handler e)) ->
  emits P (try_except body handler).
Proof.
  intros Hb Hh st. unfold try_except. specialize (Hb st).
  destruct (body st) as [[a | e |] st1]; simpl in *; try done.
  eapply extends_trans; [exact Hb | apply Hh].
Qed.

Lemma emits_time_sleep P site d :
  P (Sleep site d) = true -> emits P (time_sleep site d).
Proof.
  intros H. unfold time_sleep. destruct (d <? 0)%Z.
  - apply emits_raise.
  - by apply emits_emit.
Qed.

Lemma emits_strftime_now P self : emits P (strftime_now self).
Proof. intros st. apply extends_refl. Qed.

Lemma emits_create_youtube_video_object P self url dn :
  emits P (create_youtube_video_object self url dn).
Proof.
  intros st. unfold create_youtube_video_object.
  destruct (uploaded_files st !! url); apply extends_same; done.
Qed.

Lemma emits_wait_while_processing P fuel self obj :
  P (Sleep PollWait 2) = true -> (forall n, P (FilesGet n) = true) ->
  emits P (wait_while_processing fuel self obj).
Proof.
  intros Hs Hg. revert obj. induction fuel as [| fuel IH]; intros obj; simpl.
  - destruct (file_state obj); first [apply emits_diverge | apply emits_ret].
  - destruct (file_state obj); try apply emits_ret.
    apply emits_bind; [by apply emits_time_sleep |]. intros _.
    apply emits_bind; [by apply emits_call |]. intros next. apply IH.
Qed.

Lemma emits_upload_video P fuel self p dn :
  P (Sleep PollWait 2) = true -> (forall n, P (FilesGet n) = true) ->
  (forall c d m, P (FilesUpload c d m) = true) ->
  emits P (upload_video fuel self p dn).
Proof.
  intros Hs Hg Hu st. unfold upload_video.
  destruct (negb (path_exists (fs st) (Path p))); [apply extends_refl |].
  destruct (uploaded_files st !! p); [apply extends_refl |].
  refine (emits_bind P _ _ _ _ st); [apply emits_lift |]. intros f.
  apply emits_bind; [by apply emits_call |]. intros up.
  apply emits_bind; [by apply emits_wait_while_processing |]. intros obj.
  destruct (file_state obj); try apply emits_raise;
    intros st1; by apply extends_same.
Qed.

Lemma emits_extract_content P self obj vc :
  (forall a b c d, P (GenerateContent a b c d) = true) ->
  emits P (extract_content self obj vc).
Proof.
  intros Hg. unfold extract_content.
  apply emits_bind; [apply emits_lift |]. intros prompt.
  apply emits_bind; [by apply emits_call |]. intros [t |].
  - destruct (String.eqb t ""); [apply emits_raise | apply emits_ret].
  - apply emits_raise.
Qed.

Lemma emits_generate_metadata_header P self vc :
  emits P (_generate_metadata_header self vc).
Proof.
  unfold _generate_metadata_header.
  apply emits_bind; [apply emits_strftime_now |]. intros d. apply emits_ret.
Qed.

Lemma emits_save_markdown P self content out vc :
  emits P (save_markdown self content out vc).
Proof.
  unfold save_markdown. destruct out as [| p]; [apply emits_raise |].
  apply emits_bind.
  { intros st. destruct (mkdir_parents _ _); by apply extends_same. }
  intros _. apply emits_bind; [apply emits_generate_metadata_header |].
  intros h st. destruct (write_text _ _ _); by apply extends_same.
Qed.

(** ** One job *)

Lemma job_event_not_batch_level ev : job_event ev = true -> batch_level ev = false.
Proof. by destruct ev as [| | | [] |[]]. Qed.

Lemma batch_view_app t1 t2 : batch_view (t1 ++ t2) = batch_view t1 ++ batch_view t2.
Proof. unfold batch_view. apply List.filter_app. Qed.

Lemma batch_view_job_events d :
  Forall (fun ev => job_event ev = true) d -> batch_view d = [].
Proof.
  induction 1 as [| ev d H _ IH]; [done |]. unfold batch_view in *. simpl.
  by rewrite (job_event_not_batch_level _ H).
Qed.

Lemma extends_batch_view st st' :
  extends job_event st st' -> batch_view (trace st') = batch_view (trace st).
Proof.
  intros (d & -> & Hd).
  by rewrite batch_view_app, (batch_view_job_events _ Hd), app_nil_r.
Qed.

Lemma valid_job_output vc :
  valid_job vc = true ->
  exists out, vc !! "output" = Some out /\
    negb (truthy (get vc "youtube_url")) && negb (truthy (get vc "path")) = false.
Proof.
  unfold valid_job. destruct (vc !! "output") as [out |]; [| done].
  intros H. exists out. split; [done |].
  by destruct (truthy (get vc "youtube_url")), (truthy (get vc "path")).
Qed.

(** For a valid job [process_video] is the [try] statement run after the
    start line. *)
Lemma process_video_valid fuel self vc out st :
  valid_job vc = true -> vc !! "output" = Some out ->
  process_video fuel self vc st =
    try_except
      (process_video_body fuel self vc (get vc "youtube_url") (get vc "path")
         out (title_of vc))
      (fun e => emit (Printed (FailedToProcess (source_of vc) e));;; ret false)
      (add_event (Printed (Processing (title_of vc))) st).
Proof.
  intros Hv Hout. destruct (valid_job_output _ Hv) as (out' & Hout' & Hsrc).
  unfold process_video. rewrite Hout, Hsrc. reflexivity.
Qed.

Lemma process_video_body_stages fuel self vc out title :
  process_video_body fuel self vc (get vc "youtube_url") (get vc "path") out title
  = (video_file_obj <~ prepare fuel self vc;;
     content <~ extract_content self video_file_obj vc;;
     save_markdown self content out vc;;;
     emit (Printed (Succeeded title));;;
     ret true).
Proof. reflexivity. Qed.

Lemma emits_prepare fuel self vc : emits job_event (prepare fuel self vc).
Proof.
  unfold prepare. destruct (truthy _).
  - apply emits_create_youtube_video_object.
  - by apply emits_upload_video.
Qed.

Lemma emits_process_video_body fuel self vc out title :
  emits job_event
    (process_video_body fuel self vc (get vc "youtube_url") (get vc "path")
       out title).
Proof.
  rewrite process_video_body_stages.
  apply emits_bind; [apply emits_prepare |]. intros obj.
  apply emits_bind; [by apply emits_extract_content |]. intros content.
  apply emits_bind; [apply emits_save_markdown |]. intros _.
  apply emits_bind; [by apply emits_emit | intros _; apply emits_ret].
Qed.

(** A valid job never lets an exception out, and at the level of the
    batch it shows its start line only. *)
Lemma process_video_catches fuel self vc st :
  valid_job vc = true ->
  (exists b, fst (process_video fuel self vc st) = Ok b
          \/ fst (process_video fuel self vc st) = Diverge)
  /\ batch_view (trace (snd (process_video fuel self vc st)))
     = batch_view (trace st) ++ [Printed (Processing (title_of vc))].
Proof.
  intros Hv. destruct (valid_job_output _ Hv) as (out & Hout & _).
  rewrite (process_video_valid _ _ _ out) by done.
  set (st1 := add_event _ st).
  assert (Hview : batch_view (trace st1)
                  = batch_view (trace st) ++ [Printed (Processing (title_of vc))]).
  { unfold st1. simpl. by rewrite batch_view_app. }
  pose proof (emits_process_video_body fuel self vc out (title_of vc) st1) as Hb.
  unfold try_except.
  destruct (process_video_body _ _ _ _ _ _ _ st1) as [[b | e |] st2]; simpl in *.
  - split; [eauto |]. by rewrite (extends_batch_view _ _ Hb).
  - split; [exists false; by left |].
    unfold batch_view in *. rewrite List.filter_app. simpl. rewrite app_nil_r.
    rewrite <- Hview. apply (extends_batch_view _ _ Hb).
  - split; [exists true; by right |]. by rewrite (extends_batch_view _ _ Hb).
Qed.

Lemma process_video_invalid fuel self vc st :
  valid_job vc = false -> exists e, process_video fuel self vc st = (Raise e, st).
Proof.
  unfold valid_job, process_video. destruct (vc !! "output"); [| eauto].
  intros H. apply orb_false_elim in H as [-> ->]. simpl. eauto.
Qed.


(** A failure in each of the other two stages: a template that names an
    unknown field makes the extraction stage raise [KeyError], and an
    output directory that is a regular file makes the writing stage raise
    [FileExistsError]. *)
Example extraction_stage_failure :
  job_fails 5
    {| self_config :=
         {| cfg_api_key := VStr "key"; cfg_model := None;
            cfg_rate_limit_delay := None;
            cfg_prompt_template := Some "Extract {speaker}";
            cfg_course_context := None; cfg_output_format := None;
            cfg_videos := Some [Demo.job_a] |};
       self_client := Demo.client; self_model_name := "gemini-1.5-pro" |}
    Demo.job_a Demo.st0 Extraction (KeyError "speaker").
Proof. eexists _, _. split; [reflexivity | by vm_compute]. Qed.

Example writing_stage_failure :
  job_fails 5 Demo.self Demo.job_a
    {| uploaded_files := ∅; fs := <[ ["out"] := Reg "a file" ]> Demo.disk;
       trace := [] |}
    Writing (FileExistsError "File exists").
Proof.
  eexists _, _, _, _. split; [reflexivity |]. split; [reflexivity |].
  by vm_compute.
Qed.

(** ** The loop of [process_batch] *)


Lemma time_sleep_ok site d st :
  (0 <= d)%Z -> time_sleep site d st = (Ok tt, add_event (Sleep site d) st).
Proof.
  intros H. unfold time_sleep. by rewrite (proj2 (Z.ltb_ge d 0) H).
Qed.

Lemma time_sleep_inv site d st o st' :
  time_sleep site d st = (o, st') ->
  (o = Ok tt /\ st' = add_event (Sleep site d) st /\ (0 <= d)%Z)
  \/ (exists e, o = Raise e /\ st' = st /\ (d < 0)%Z).
Proof.
  unfold time_sleep. destruct (d <? 0)%Z eqn:E; intros [= <- <-].
  - right. apply Z.ltb_lt in E. eauto.
  - left. apply Z.ltb_ge in E. eauto.
Qed.

Lemma batch_loop_cons fuel self n i v vs r st :
  batch_loop fuel self n i (v :: vs) r st =
  match process_video fuel self v st with
  | (Ok ok, st1) =>
      match (if (i <? n)%nat
             then time_sleep RateLimit (rate_limit_delay self)
             else ret tt) st1 with
      | (Ok _, st2) => batch_loop fuel self n (S i) vs (record_result v ok r) st2
      | (Raise e, st2) => (Raise e, st2)
      | (Diverge, st2) => (Diverge, st2)
      end
  | (Raise e, st1) => (Raise e, st1)
  | (Diverge, st1) => (Diverge, st1)
  end.
Proof. reflexivity. Qed.

Lemma pause_inv (c : bool) d st o st' :
  (if c then time_sleep RateLimit d else ret tt) st = (o, st') ->
  (o = Ok tt /\
   st' = if c then add_event (Sleep RateLimit d) st else st)
  \/ (exists e, o = Raise e).
Proof.
  destruct c.
  - intros H. apply time_sleep_inv in H as [(-> & -> & _) | (e & -> & _)]; eauto.
  - intros [= <- <-]. eauto.
Qed.

(** What a completed loop shows: each job starts in turn, and a pause
    follows every job but the last one of the batch. *)
Lemma batch_loop_view fuel self n i videos r st r' st' :
  batch_loop fuel self n i videos r st = (Ok r', st') ->
  batch_view (trace st')
  = batch_view (trace st)
    ++ loop_view (rate_limit_delay self) n i (List.map title_of videos).
Proof.
  revert i r st. induction videos as [| v videos IH]; intros i r st.
  - intros [= _ <-]. simpl. by rewrite app_nil_r.
  - rewrite batch_loop_cons.
    destruct (process_video fuel self v st) as [o st1] eqn:Ev.
    destruct (valid_job v) eqn:Hv.
    2:{ destruct (process_video_invalid fuel self v st Hv) as (e & He).
        rewrite He in Ev. by injection Ev as <- <-. }
    pose proof (process_video_catches fuel self v st Hv) as [_ Hview].
    rewrite Ev in Hview. simpl in Hview.
    destruct o as [b | e |]; try done.
    destruct ((if (i <? n)%nat then _ else ret tt) st1) as [o2 st2] eqn:Ep.
    apply pause_inv in Ep as [(-> & ->) | (e & ->)]; [| done].
    intros H. apply IH in H. rewrite H. simpl.
    destruct (i <? n)%nat; simpl.
    + rewrite batch_view_app, Hview. by rewrite <- !app_assoc.
    + rewrite Hview. by rewrite <- app_assoc.
Qed.

(** A loop over valid jobs with a non-negative delay completes unless
    some polling loop does not. *)
Lemma batch_loop_total fuel self n i videos r st :
  Forall (fun v => valid_job v = true) videos ->
  (0 <= rate_limit_delay self)%Z ->
  fst (batch_loop fuel self n i videos r st) <> Diverge ->
  exists r' st', batch_loop fuel self n i videos r st = (Ok r', st').
Proof.
  intros Hv Hd. revert i r st.
  induction Hv as [| v videos Hv _ IH]; intros i r st; [simpl; eauto |].
  rewrite batch_loop_cons.
  destruct (process_video_catches fuel self v st Hv) as [(b & [Hb | Hb]) _];
    destruct (process_video fuel self v st) as [o st1]; simpl in Hb; subst o;
    [| done].
  destruct (i <? n)%nat.
  - rewrite time_sleep_ok by done. apply IH.
  - apply IH.
Qed.

Lemma loop_view_schedule d n i titles :
  n + 1 = i + length titles ->
  loop_view d n i titles = schedule d titles.
Proof.
  revert i. induction titles as [| t rest IH]; intros i Hn; [done |].
  simpl in *. destruct rest as [| t' rest].
  - simpl in *. by rewrite (proj2 (Nat.ltb_ge i n)) by lia.
  - rewrite (proj2 (Nat.ltb_lt i n)) by (simpl in *; lia).
    simpl. f_equal. f_equal. apply IH. simpl in *. lia.
Qed.




(** The counters of a completed loop. *)
Lemma batch_loop_counts fuel self n i videos r st r' st' l0 :
  errors r = Some l0 ->
  batch_loop fuel self n i videos r st = (Ok r', st') ->
  total r' = total r
  /\ success r' + failed r' = success r + failed r + length videos
  /\ exists l, errors r' = Some (l0 ++ l) /\ failed r' = failed r + length l.
Proof.
  revert i r st l0. induction videos as [| v videos IH]; intros i r st l0 He.
  - intros [= <- _]. simpl. repeat split; [lia |].
    exists []. by rewrite app_nil_r, He.
  - rewrite batch_loop_cons.
    destruct (process_video fuel self v st) as [[b | e |] st1]; try done.
    destruct ((if (i <? n)%nat then _ else ret tt) st1) as [[[] | e |] st2];
      try done.
    intros H. destruct b.
    + eapply IH in H as (Ht & Hs & l & Hl & Hf); [| simpl; exact He].
      simpl in *. repeat split; [done | lia | eauto].
    + eapply IH in H as (Ht & Hs & l & Hl & Hf);
        [| unfold record_result; simpl; rewrite He; reflexivity].
      simpl in *. repeat split; [done | lia |].
      exists (error_of v :: l). rewrite Hl. split.
      * by rewrite <- app_assoc.
      * simpl. lia.
Qed.

Lemma started_app t1 t2 : started (t1 ++ t2) = started t1 ++ started t2.
Proof.
  induction t1 as [| ev t1 IH]; [done |].
  destruct ev as [| | | |[]]; simpl; by rewrite IH.
Qed.

Lemma started_batch_view t : started (batch_view t) = started t.
Proof.
  unfold batch_view. induction t as [| ev t IH]; [done |].
  destruct ev as [| | | [] |[]]; simpl; by rewrite IH.
Qed.

Lemma started_schedule d titles : started (schedule d titles) = titles.
Proof.
  induction titles as [| t rest IH]; [done |].
  destruct rest as [| t' rest]; [done |].
  transitivity (t :: started (schedule d (t' :: rest))); [reflexivity |].
  by rewrite IH.
Qed.

(** ** [process_batch] *)

Lemma process_batch_empty fuel self video_list st :
  select_videos self video_list = [] ->
  process_batch fuel self video_list st = (Ok empty_summary, st).
Proof. intros H. unfold process_batch. by rewrite H. Qed.

Lemma process_batch_nonempty fuel self video_list st :
  select_videos self video_list <> [] ->
  process_batch fuel self video_list st =
  batch_loop fuel self (length (select_videos self video_list)) 1
    (select_videos self video_list)
    (initial_results (select_videos self video_list)) st.
Proof.
  intros H. unfold process_batch.
  by destruct (select_videos self video_list).
Qed.

(** A completed run: the summary counts, and the schedule it followed. *)
Lemma process_batch_completed fuel self video_list st r st' :
  select_videos self video_list <> [] ->
  process_batch fuel self video_list st = (Ok r, st') ->
  total r = length (select_videos self video_list)
  /\ success r + failed r = total r
  /\ (exists l, errors r = Some l /\ length l = failed r)
  /\ batch_view (trace st')
     = batch_view (trace st)
       ++ schedule (rate_limit_delay self)
            (List.map title_of (select_videos self video_list)).
Proof.
  intros Hne. rewrite process_batch_nonempty by done. intros H.
  destruct (batch_loop_counts fuel self _ _ _
              (initial_results (select_videos self video_list)) st r st' []
              eq_refl H) as (Ht & Hs & l & Hl & Hf).
  pose proof (batch_loop_view _ _ _ _ _ _ _ _ _ H) as Hview.
  simpl in *. repeat split; [done | lia | eauto |].
  rewrite Hview. f_equal. apply loop_view_schedule.
  rewrite length_map. lia.
Qed.

Lemma requested_iff l v :
  requested l v = true <->
  exists s, s ∈ l /\
    (v !! "path" = Some (VStr s) \/ v !! "youtube_url" = Some (VStr s)
     \/ v !! "id" = Some (VStr s)).
Proof.
  assert (Hin : forall k, in_list (get v k) l = true <->
                          exists s, s ∈ l /\ v !! k = Some (VStr s)).
  { intros k. unfold get, in_list.
    destruct (v !! k) as [[| s] |]; simpl.
    - split; [done | by intros (s & _ & ?)].
    - rewrite bool_decide_eq_true. split; [eauto |].
      by intros (s' & ? & [= ->]).
    - split; [done | by intros (s & _ & ?)]. }
  unfold requested. rewrite !orb_true_iff, !Hin. split.
  - intros [[(s & ? & ?) | (s & ? & ?)] | (s & ? & ?)]; eauto 6.
  - intros (s & ? & [? | [? | ?]]); eauto 6.
Qed.

(** ** The claims about the batch *)

(** C10.  A batch run over a non-empty job list that returns a summary
    satisfies [success + failed = total], and its failure list has one
    entry per failed job.  Over an empty job list the run returns the
    summary with three zero counters and no [errors] key at all. *)
Theorem process_batch_summary_invariant fuel self video_list st :
  (forall r st',
     process_batch fuel self video_list st = (Ok r, st') ->
     select_videos self video_list <> [] ->
     total r = length (select_videos self video_list)
     /\ success r + failed r = total r
     /\ exists l, errors r = Some l /\ length l = failed r)
  /\ (select_videos self video_list = [] ->
      process_batch fuel self video_list st = (Ok empty_summary, st)
      /\ errors empty_summary = None).
Proof.
  split.
  - intros r st' H Hne.
    destruct (process_batch_completed _ _ _ _ _ _ Hne H) as (? & ? & ? & _).
    done.
  - intros H. split; [by apply process_batch_empty | done].
Qed.

Lemma process_batch_summary_invariant_witness :
  (exists r st',
     process_batch 5 Demo.self None Demo.st0 = (Ok r, st')
     /\ success r + failed r = total r
     /\ exists l, errors r = Some l /\ length l = failed r)
  /\ process_batch 5 Demo.self (Some ["nothing"]) Demo.st0
     = (Ok empty_summary, Demo.st0).
Proof.
  split.
  - destruct (process_batch 5 Demo.self None Demo.st0) as [o st'] eqn:E.
    assert (Ho : exists r, o = Ok r).
    { assert (E1 : fst (process_batch 5 Demo.self None Demo.st0) = o)
        by (by rewrite E).
      vm_compute in E1. subst o. eauto. }
    destruct Ho as (r & ->). exists r, st'. split; [done |].
    destruct (process_batch_summary_invariant 5 Demo.self None Demo.st0)
      as [H _].
    destruct (H r st' E) as (_ & ? & ?); [discriminate | done].
  - destruct (process_batch_summary_invariant 5 Demo.self (Some ["nothing"])
                Demo.st0) as [_ H].
    apply H. reflexivity.
Defined.

(** C3.  A job that sets neither [youtube_url] nor [path] is rejected by
    [process_video] before its preparation begins: a [ValueError] (or the
    [KeyError] of a missing [output]) is raised outside the [try], the
    trace, the cache and the file system are untouched, so no service call
    has been attempted for the job. *)
Theorem process_video_rejects_sourceless_job fuel self video_config st :
  truthy (get video_config "youtube_url") = false ->
  truthy (get video_config "path") = false ->
  process_video fuel self video_config st =
    (Raise (match video_config !! "output" with
            | Some _ =>
                ValueError
                  "Video config must specify either 'youtube_url' or 'path'"
            | None => KeyError "output"
            end), st).
Proof.
  intros Hu Hp. unfold process_video. rewrite Hu, Hp.
  by destruct (video_config !! "output").
Qed.

Lemma process_video_rejects_sourceless_job_witness :
  process_video 5 Demo.self Demo.job_none Demo.st0 =
    (Raise (ValueError
              "Video config must specify either 'youtube_url' or 'path'"),
     Demo.st0).
Proof.
  exact (process_video_rejects_sourceless_job 5 Demo.self Demo.job_none
           Demo.st0 eq_refl eq_refl).
Defined.



(** Without a filter, and with the empty list too ([if video_list:]), every
    configured job is taken. *)
Lemma select_videos_no_filter self :
  select_videos self None = default [] (cfg_videos (self_config self))
  /\ select_videos self (Some []) = default [] (cfg_videos (self_config self)).
Proof. done. Qed.

(** C7.  With a non-empty filter the batch run takes exactly the jobs
    whose [path], [youtube_url] or [id] is an element of the filter list
    (equality of strings, no patterns), in the order of the configuration:
    the summary counts them and they are started in that order.  When no
    job is requested the run returns the summary with [total = 0] and
    raises nothing. *)
Theorem process_batch_filter fuel self video_list st videos :
  video_list <> [] ->
  videos = List.filter (requested video_list)
             (default [] (cfg_videos (self_config self))) ->
  select_videos self (Some video_list) = videos
  /\ (forall v, v ∈ videos <->
        v ∈ default [] (cfg_videos (self_config self)) /\
        exists s, s ∈ video_list /\
          (v !! "path" = Some (VStr s) \/ v !! "youtube_url" = Some (VStr s)
           \/ v !! "id" = Some (VStr s)))
  /\ (videos = [] ->
      process_batch fuel self (Some video_list) st = (Ok empty_summary, st)
      /\ total empty_summary = 0)
  /\ (forall r st',
        process_batch fuel self (Some video_list) st = (Ok r, st') ->
        total r = length videos
        /\ started (trace st') = started (trace st) ++ List.map title_of videos)
  /\ (Forall (fun v => valid_job v = true) videos ->
      (0 <= rate_limit_delay self)%Z ->
      fst (process_batch fuel self (Some video_list) st) <> Diverge ->
      exists r st', process_batch fuel self (Some video_list) st = (Ok r, st')).
Proof.
  intros Hl ->.
  assert (Hsel : select_videos self (Some video_list)
                 = List.filter (requested video_list)
                     (default [] (cfg_videos (self_config self)))).
  { unfold select_videos. by destruct video_list. }
  split; [done |]. rewrite <- Hsel. split; [| split; [| split]].
  - intros v. rewrite Hsel, list_elem_of_In, List.filter_In, <- list_elem_of_In.
    by rewrite requested_iff.
  - intros H. split; [by apply process_batch_empty | done].
  - intros r st' H.
    destruct (select_videos self (Some video_list)) as [| v vs] eqn:E.
    + rewrite process_batch_empty in H by done. injection H as <- <-.
      by rewrite app_nil_r.
    + rewrite <- E in *.
      assert (Hne : select_videos self (Some video_list) <> []) by (by rewrite E).
      destruct (process_batch_completed _ _ _ _ _ _ Hne H)
        as (Ht & _ & _ & Hview).
      split; [done |].
      rewrite <- (started_batch_view (trace st')), Hview, started_app.
      by rewrite started_batch_view, started_schedule.
  - intros Hv Hd Hnd.
    destruct (select_videos self (Some video_list)) as [| v vs] eqn:E.
    + rewrite process_batch_empty by done. eauto.
    + rewrite <- E in *.
      assert (Hne : select_videos self (Some video_list) <> []) by (by rewrite E).
      rewrite process_batch_nonempty in * by done.
      by apply batch_loop_total.
Qed.

(** ** Isolation of one failing job *)




Lemma process_batch_filter_witness :
  exists r st',
    process_batch 5 Demo.five (Some ["b"; "https://vimeo.com/abc123"]) Demo.st0
    = (Ok r, st')
    /\ total r = 2
    /\ started (trace st') = [VStr "B"; VStr "V"].
Proof.
  destruct (process_batch_filter 5 Demo.five ["b"; "https://vimeo.com/abc123"]
              Demo.st0 [Demo.job_b; Demo.job_vimeo]
              ltac:(discriminate) ltac:(reflexivity))
    as (_ & _ & _ & Hok & Hret).
  destruct Hret as (r & st' & E).
  - repeat constructor.
  - by vm_compute.
  - by vm_compute.
  - exists r, st'. split; [done |].
    destruct (Hok r st' E) as [Ht Hs]. split; [done |].
    rewrite Hs. by vm_compute.
Defined.

(** ** The file system *)

Lemma elem_of_ancestors q p :
  q ∈ ancestors p <-> exists n, 1 <= n <= length p /\ q = take n p.
Proof.
  unfold ancestors. rewrite list_elem_of_In, List.in_map_iff. split.
  - intros (n & <- & Hn). apply List.in_seq in Hn. exists n. split; [lia | done].
  - intros (n & Hn & ->). exists n. split; [done |]. apply List.in_seq. lia.
Qed.

Lemma ancestors_self p : p <> [] -> p ∈ ancestors p.
Proof.
  intros Hp. apply elem_of_ancestors. exists (length p).
  destruct p; [done |]. split; [simpl; lia | by rewrite firstn_all].
Qed.

Lemma ancestors_length q p : q ∈ ancestors p -> 1 <= length q <= length p.
Proof.
  intros (n & Hn & ->)%elem_of_ancestors. rewrite length_take. lia.
Qed.

Lemma is_dir_false_not_root fs p : is_dir fs p = false -> p <> [] /\ p <> ["/"].
Proof.
  unfold is_dir, fs_lookup. destruct p as [| x p]; [done |].
  case_bool_decide as E; [done |]. intros _. split; [done | exact E].
Qed.

Lemma parent_length p : p <> [] -> p <> ["/"] -> length (parent p) < length p.
Proof.
  intros H1 H2. destruct p as [| x [| y p]]; [done | |].
  - unfold parent. rewrite bool_decide_eq_false_2 by done. simpl. lia.
  - unfold parent. rewrite List.removelast_firstn_len, length_take. simpl. lia.
Qed.

Lemma fs_lookup_raw fs p :
  p <> [] -> p <> ["/"] -> fs_lookup fs p = fs !! p.
Proof.
  intros H1 H2. unfold fs_lookup. destruct p; [done |].
  by rewrite bool_decide_eq_false_2.
Qed.

Lemma fs_lookup_insert fs p x q :
  p <> [] -> p <> ["/"] ->
  fs_lookup (<[p := x]> fs) q = if bool_decide (q = p) then Some x else fs_lookup fs q.
Proof.
  intros H1 H2. case_bool_decide as E.
  - subst q. rewrite fs_lookup_raw by done. apply lookup_insert_eq.
  - unfold fs_lookup. destruct q as [| y q]; [done |].
    case_bool_decide; [done |]. by rewrite lookup_insert_ne.
Qed.

Lemma fs_lookup_dirs fs l q :
  fs_lookup (foldr (fun q acc => <[q := Dir]> acc) fs l) q
  = if bool_decide (q ∈ l) then Some Dir else fs_lookup fs q.
Proof.
  assert (Hroot : forall fs', q = [] \/ q = ["/"] -> fs_lookup fs' q = Some Dir).
  { intros fs' [-> | ->]; done. }
  destruct (decide (q = [] \/ q = ["/"])) as [Hq | Hq].
  { rewrite !Hroot by done. by case_bool_decide. }
  assert (q <> [] /\ q <> ["/"]) as [H1 H2] by tauto.
  rewrite !fs_lookup_raw by done.
  induction l as [| a l IH]; simpl; [done |].
  destruct (decide (q = a)) as [-> | Hne].
  - rewrite lookup_insert_eq. by rewrite bool_decide_eq_true_2 by left.
  - rewrite lookup_insert_ne by done. rewrite IH.
    case_bool_decide as E1; case_bool_decide as E2; try done.
    + exfalso. apply E2. by right.
    + exfalso. apply elem_of_cons in E2 as [? | ?]; done.
Qed.

Lemma mkdir_parents_ok fs p :
  forallb (fun q => negb (is_reg fs q)) (ancestors p) = true ->
  mkdir_parents fs p
  = Ok (foldr (fun q acc => <[q := Dir]> acc) fs (ancestors p)).
Proof.
  intros H. unfold mkdir_parents.
  destruct (List.find (is_reg fs) (ancestors p)) as [q |] eqn:E; [| done].
  apply List.find_some in E as [Hin Hreg].
  rewrite List.forallb_forall in H. specialize (H q Hin). by rewrite Hreg in H.
Qed.

(** ** [save_markdown] *)

(** What a successful [save_markdown] leaves behind. *)
Lemma save_markdown_writable self content p video_metadata st :
  writable (fs st) (Path p) = true ->
  exists fs',
    save_markdown self content (VStr p) video_metadata st
    = (Ok tt, set_fs fs' st)
    /\ fs_lookup fs' (Path p)
       = Some (Reg (header_text video_metadata
                      (today (self_client self) (trace st))
                    +:+ nl +:+ nl +:+ content))
    /\ Forall (fun q => fs_lookup fs' q = Some Dir) (ancestors (parent (Path p)))
    /\ (forall q, q <> Path p -> q ∉ ancestors (parent (Path p)) ->
        fs_lookup fs' q = fs_lookup (fs st) q).
Proof.
  unfold writable. intros [Hanc Hdir]%andb_true_iff.
  apply negb_true_iff in Hdir.
  destruct (is_dir_false_not_root _ _ Hdir) as [Hp1 Hp2].
  pose proof (parent_length _ Hp1 Hp2) as Hlen.
  set (output_file := Path p) in *.
  set (fs1 := foldr (fun q acc => <[q := Dir]> acc) (fs st)
                (ancestors (parent output_file))).
  assert (Hnotin : output_file ∉ ancestors (parent output_file)).
  { intros Hin%ancestors_length. lia. }
  assert (Hparent : fs_lookup fs1 (parent output_file) = Some Dir).
  { destruct (decide (parent output_file = [])) as [-> | Hne]; [done |].
    unfold fs1. rewrite fs_lookup_dirs.
    by rewrite bool_decide_eq_true_2 by (by apply ancestors_self). }
  assert (Hself : fs_lookup fs1 output_file = fs_lookup (fs st) output_file).
  { unfold fs1. rewrite fs_lookup_dirs. by rewrite bool_decide_eq_false_2. }
  set (doc := header_text video_metadata (today (self_client self) (trace st))
              +:+ nl +:+ nl +:+ content).
  exists (<[output_file := Reg doc]> fs1). split; [| split; [| split]].
  - unfold save_markdown. fold output_file. unfold bind at 1.
    rewrite mkdir_parents_ok by done. fold fs1.
    unfold _generate_metadata_header, bind, strftime_now, ret. simpl.
    fold doc. unfold write_text. rewrite Hself, Hparent.
    unfold is_dir in Hdir.
    destruct (fs_lookup (fs st) output_file) as [[| c] |]; done.
  - rewrite fs_lookup_insert by done. by rewrite bool_decide_eq_true_2.
  - apply Forall_forall. intros q Hq. rewrite fs_lookup_insert by done.
    rewrite bool_decide_eq_false_2 by (intros ->; done).
    unfold fs1. rewrite fs_lookup_dirs. by rewrite bool_decide_eq_true_2.
  - intros q Hq1 Hq2. rewrite fs_lookup_insert by done.
    rewrite bool_decide_eq_false_2 by done.
    unfold fs1. rewrite fs_lookup_dirs. by rewrite bool_decide_eq_false_2.
Qed.

(** ** Substrings *)

Lemma string_app_assoc (s1 s2 s3 : string) :
  (s1 +:+ s2) +:+ s3 = s1 +:+ s2 +:+ s3.
Proof.
  induction s1 as [| c s1 IH]; [done |].
  change (String c ((s1 +:+ s2) +:+ s3) = String c (s1 +:+ s2 +:+ s3)).
  by f_equal.
Qed.

Lemma string_app_nil_r (s : string) : s +:+ "" = s.
Proof.
  induction s as [| c s IH]; [done |].
  change (String c (s +:+ "") = String c s). by f_equal.
Qed.

Lemma contains_refl s : contains s s.
Proof. exists "", "". change ("" +:+ s +:+ "") with (s +:+ ""). by rewrite string_app_nil_r. Qed.

Lemma contains_prefix t post : contains (t +:+ post) t.
Proof. by exists "", post. Qed.

Lemma contains_app_r pre s t : contains s t -> contains (pre +:+ s) t.
Proof.
  intros (a & b & ->). exists (pre +:+ a), b. by rewrite string_app_assoc.
Qed.

Lemma contains_app_l s post t : contains s t -> contains (s +:+ post) t.
Proof.
  intros (a & b & ->). exists a, (b +:+ post).
  by rewrite !string_app_assoc.
Qed.

Ltac find_contains :=
  first [ apply contains_refl | apply contains_prefix
        | apply contains_app_r; find_contains ].

Lemma truthy_VStr s : s <> "" -> truthy (VStr s) = true.
Proof. intros H. simpl. by apply negb_true_iff, String.eqb_neq. Qed.

(** The header of a job with a title, a section and a remote URL. *)
Lemma header_text_remote video_metadata title section url date :
  video_metadata !! "title" = Some (VStr title) ->
  video_metadata !! "section" = Some (VStr section) ->
  video_metadata !! "youtube_url" = Some (VStr url) ->
  url <> "" ->
  header_text video_metadata date
  = "# " +:+ title +:+ nl +:+ nl
    +:+ "**Section:** " +:+ section +:+ nl
    +:+ "**Extracted:** " +:+ date +:+ nl
    +:+ "**YouTube URL:** " +:+ url +:+ nl
    +:+ nl +:+ "---" +:+ nl.
Proof.
  intros Ht Hs Hu Hne. unfold header_text, get, get_default, py_or.
  rewrite Ht, Hs, Hu. simpl default. by rewrite (truthy_VStr _ Hne).
Qed.

(** C5.  For a job with a title, a section and a remote URL, [save_markdown]
    writes at the output path the header, an empty line and the extracted
    text, in this order; the header holds the title, the section and the
    URL.  The file that was there before is replaced, and the missing
    directories above it are created.  The path must be one that can be
    written: not a directory, under no regular file. *)
Theorem save_markdown_document
    self content p video_metadata title section url st :
  video_metadata !! "title" = Some (VStr title) ->
  video_metadata !! "section" = Some (VStr section) ->
  video_metadata !! "youtube_url" = Some (VStr url) ->
  url <> "" ->
  writable (fs st) (Path p) = true ->
  exists st',
    save_markdown self content (VStr p) video_metadata st = (Ok tt, st')
    /\ fs_lookup (fs st') (Path p)
       = Some (Reg (header_text video_metadata
                      (today (self_client self) (trace st))
                    +:+ nl +:+ nl +:+ content))
    /\ contains (header_text video_metadata
                   (today (self_client self) (trace st))) title
    /\ contains (header_text video_metadata
                   (today (self_client self) (trace st))) section
    /\ contains (header_text video_metadata
                   (today (self_client self) (trace st))) url
    /\ contains (header_text video_metadata
                   (today (self_client self) (trace st))
                 +:+ nl +:+ nl +:+ content) content
    /\ Forall (fun q => fs_lookup (fs st') q = Some Dir)
         (ancestors (parent (Path p)))
    /\ (forall q, q <> Path p -> q ∉ ancestors (parent (Path p)) ->
        fs_lookup (fs st') q = fs_lookup (fs st) q).
Proof.
  intros Ht Hs Hu Hne Hw.
  destruct (save_markdown_writable self content p video_metadata st Hw)
    as (fs' & E & Hdoc & Hdirs & Hframe).
  exists (set_fs fs' st). split; [done |]. split; [done |].
  rewrite (header_text_remote _ _ _ _ _ Ht Hs Hu Hne).
  repeat split; try done; find_contains.
Qed.

Lemma save_markdown_document_witness :
  fs_lookup (fs Demo.st_old) ["out"; "a.md"] = Some (Reg "old text")
  /\ exists st',
       save_markdown Demo.self "BODY" (VStr "out/a.md") Demo.job_a Demo.st_old
       = (Ok tt, st')
       /\ fs_lookup (fs st') ["out"; "a.md"]
          = Some (Reg ("# T" +:+ nl +:+ nl
                       +:+ "**Section:** S" +:+ nl
                       +:+ "**Extracted:** 2024-01-01" +:+ nl
                       +:+ "**YouTube URL:** https://youtu.be/abc123" +:+ nl
                       +:+ nl +:+ "---" +:+ nl
                       +:+ nl +:+ nl +:+ "BODY")).
Proof.
  split; [by vm_compute |].
  destruct (save_markdown_document Demo.self "BODY" "out/a.md" Demo.job_a
              "T" "S" "https://youtu.be/abc123" Demo.st_old)
    as (st' & E & Hdoc & _).
  - by vm_compute.
  - by vm_compute.
  - by vm_compute.
  - discriminate.
  - by vm_compute.
  - exists st'. split; [done |].
    change (Path "out/a.md") with ["out"; "a.md"] in Hdoc.
    rewrite Hdoc. by vm_compute.
Defined.

(** ** A job with both a remote URL and a local path *)

Lemma get_delete_ne (d : dict) k k' : k <> k' -> get (delete k d) k' = get d k'.
Proof. intros H. unfold get. by rewrite lookup_delete_ne. Qed.

Lemma get_default_delete_ne (d : dict) k k' dflt :
  k <> k' -> get_default (delete k d) k' dflt = get_default d k' dflt.
Proof. intros H. unfold get_default. by rewrite lookup_delete_ne. Qed.

Lemma header_text_delete_path vc date :
  header_text (delete "path" vc) date = header_text vc date.
Proof.
  unfold header_text.
  by rewrite !get_default_delete_ne, !get_delete_ne by done.
Qed.

Lemma build_prompt_delete_path self vc :
  _build_extraction_prompt self (delete "path" vc)
  = _build_extraction_prompt self vc.
Proof.
  unfold _build_extraction_prompt. by rewrite !get_default_delete_ne by done.
Qed.

Lemma extract_content_delete_path self obj vc st :
  extract_content self obj (delete "path" vc) st = extract_content self obj vc st.
Proof. unfold extract_content. by rewrite build_prompt_delete_path. Qed.

Lemma save_markdown_delete_path self content out vc st :
  save_markdown self content out (delete "path" vc) st
  = save_markdown self content out vc st.
Proof.
  unfold save_markdown. destruct out as [| p]; [done |].
  apply bind_ext. intros _ st1.
  unfold _generate_metadata_header, bind, strftime_now, ret.
  by rewrite header_text_delete_path.
Qed.

Lemma bind_cong {A B} (m m' : M A) (k k' : A -> M B) st :
  m st = m' st -> (forall a st1, k a st1 = k' a st1) ->
  bind m k st = bind m' k' st.
Proof. intros Hm Hk. unfold bind. rewrite Hm. by destruct (m' st) as [[] ?]. Qed.

(** The path of a job plays no part once its [youtube_url] is set. *)
Lemma process_video_ignores_path fuel self vc st :
  truthy (get vc "youtube_url") = true ->
  process_video fuel self vc st = process_video fuel self (delete "path" vc) st.
Proof.
  intros Hu. unfold process_video.
  rewrite (get_delete_ne vc "path" "youtube_url") by done.
  rewrite (lookup_delete_ne vc "path" "output") by done.
  destruct (vc !! "output") as [out |]; [| done].
  rewrite Hu. simpl negb. simpl andb. unfold py_or. rewrite Hu.
  rewrite get_default_delete_ne by done.
  apply bind_ext. intros _ st1. unfold try_except.
  assert (Hbody : forall vp vp',
    process_video_body fuel self vc (get vc "youtube_url") vp out
      (get_default vc "title" (get vc "youtube_url")) st1
    = process_video_body fuel self (delete "path" vc) (get vc "youtube_url")
        vp' out (get_default vc "title" (get vc "youtube_url")) st1).
  { intros vp vp'. unfold process_video_body. rewrite Hu.
    rewrite (get_delete_ne vc "path" "title") by done.
    apply bind_ext. intros obj st2.
    apply bind_cong; [by rewrite extract_content_delete_path |].
    intros content st3.
    apply bind_cong; [by rewrite save_markdown_delete_path | done]. }
  by rewrite (Hbody (get vc "path") (get (delete "path" vc) "path")).
Qed.

Lemma emits_process_video_remote fuel self vc :
  truthy (get vc "youtube_url") = true ->
  emits (fun ev => negb (is_upload ev)) (process_video fuel self vc).
Proof.
  intros Hu. unfold process_video.
  destruct (vc !! "output") as [out |]; [| apply emits_raise].
  rewrite Hu. simpl negb. simpl andb. cbv iota.
  apply emits_bind; [by apply emits_emit |]. intros _.
  apply emits_try_except.
  - unfold process_video_body. rewrite Hu.
    apply emits_bind; [apply emits_create_youtube_video_object |]. intros obj.
    apply emits_bind; [by apply emits_extract_content |]. intros content.
    apply emits_bind; [apply emits_save_markdown |]. intros _.
    apply emits_bind; [by apply emits_emit | intros _; apply emits_ret].
  - intros e. apply emits_bind; [by apply emits_emit |]. intros _.
    apply emits_ret.
Qed.

Lemma write_text_ok fs p content fs' :
  write_text fs p content = Ok fs' ->
  fs_lookup fs' p = Some (Reg content).
Proof.
  unfold write_text. intros H.
  assert (Hp : p <> [] /\ p <> ["/"]).
  { split; intros ->; done. }
  destruct Hp as [H1 H2].
  destruct (fs_lookup fs p) as [[| c] |];
    destruct (fs_lookup fs (parent p)) as [[| c'] |]; try done;
    injection H as <-; rewrite fs_lookup_insert by done;
    by rewrite bool_decide_eq_true_2.
Qed.

(** What [save_markdown] has done when it returns. *)
Lemma save_markdown_inv self content out vm st st' :
  save_markdown self content out vm st = (Ok tt, st') ->
  exists p,
    out = VStr p
    /\ fs_lookup (fs st') (Path p)
       = Some (Reg (header_text vm (today (self_client self) (trace st))
                    +:+ nl +:+ nl +:+ content))
    /\ trace st' = trace st.
Proof.
  unfold save_markdown. destruct out as [| p]; [done |]. intros H.
  exists p. split; [done |]. revert H. unfold bind at 1.
  destruct (mkdir_parents (fs st) (parent (Path p))) as [fs1 | e |]; try done.
  unfold _generate_metadata_header, bind, strftime_now, ret. simpl.
  destruct (write_text fs1 (Path p) _) as [fs2 | e |] eqn:E; try done.
  intros [= <-]. simpl. split; [| done]. by eapply write_text_ok.
Qed.

Lemma header_text_source_line vc date :
  truthy (get vc "youtube_url") = true ->
  contains (header_text vc date)
    ("**YouTube URL:** " +:+ str (get vc "youtube_url") +:+ nl).
Proof.
  intros Hu. unfold header_text, py_or. rewrite Hu.
  do 10 apply contains_app_r.
  exists "", (nl +:+ "---" +:+ nl).
  rewrite (string_app_assoc "**YouTube URL:** "), string_app_assoc.
  reflexivity.
Qed.

(** C9.  When a job sets [youtube_url], whatever its [path] is (so in
    particular when both are set), the remote URL wins without a word: the
    job runs exactly as the same job without a [path], it is prepared by
    [create_youtube_video_object], no file is uploaded, and the source line
    of the document it writes is the YouTube URL line. *)
Theorem process_video_remote_precedence fuel self video_config st :
  truthy (get video_config "youtube_url") = true ->
  process_video fuel self video_config st
  = process_video fuel self (delete "path" video_config) st
  /\ prepare fuel self video_config
     = create_youtube_video_object self (str (get video_config "youtube_url"))
         (get video_config "title")
  /\ extends (fun ev => negb (is_upload ev)) st
       (snd (process_video fuel self video_config st))
  /\ forall st',
       process_video fuel self video_config st = (Ok true, st') ->
       exists p date content,
         video_config !! "output" = Some (VStr p)
         /\ fs_lookup (fs st') (Path p)
            = Some (Reg (header_text video_config date
                         +:+ nl +:+ nl +:+ content))
         /\ contains (header_text video_config date)
              ("**YouTube URL:** " +:+ str (get video_config "youtube_url")
               +:+ nl).
Proof.
  intros Hu. split; [by apply process_video_ignores_path |].
  split; [unfold prepare; by rewrite Hu |].
  split; [by apply emits_process_video_remote |].
  intros st' H.
  destruct (valid_job video_config) eqn:Hv.
  2:{ destruct (process_video_invalid fuel self video_config st Hv) as (e & He).
      by rewrite He in H. }
  destruct (valid_job_output _ Hv) as (out & Hout & _).
  rewrite (process_video_valid _ _ _ out) in H by done.
  set (st1 := add_event _ st) in H.
  rewrite process_video_body_stages in H. unfold try_except in H.
  unfold bind at 1 in H.
  destruct (prepare fuel self video_config st1) as [[obj | e |] st2];
    [| by injection H | done].
  unfold bind at 1 in H.
  destruct (extract_content self obj video_config st2) as [[content | e |] st3];
    [| by injection H | done].
  unfold bind at 1 in H.
  destruct (save_markdown self content out video_config st3)
    as [[[] | e |] st4] eqn:Es; [| by injection H | done].
  apply save_markdown_inv in Es as (p & -> & Hdoc & _).
  injection H as <-.
  exists p, (today (self_client self) (trace st3)), content.
  split; [done |]. split; [exact Hdoc |].
  by apply header_text_source_line.
Qed.

Lemma process_video_remote_precedence_witness :
  truthy (get Demo.job_both "path") = true
  /\ exists st',
       process_video 5 Demo.self Demo.job_both Demo.st0 = (Ok true, st')
       /\ List.filter is_upload (trace st') = []
       /\ exists doc,
            fs_lookup (fs st') ["out"; "both.md"] = Some (Reg doc)
            /\ contains doc
                 ("**YouTube URL:** https://youtu.be/abc123" +:+ nl).
Proof.
  split; [by vm_compute |].
  destruct (process_video_remote_precedence 5 Demo.self Demo.job_both Demo.st0)
    as (_ & _ & _ & Hdoc); [by vm_compute |].
  destruct (process_video 5 Demo.self Demo.job_both Demo.st0) as [o st'] eqn:E.
  assert (Ho : o = Ok true).
  { assert (E1 : fst (process_video 5 Demo.self Demo.job_both Demo.st0) = o)
      by (by rewrite E).
    vm_compute in E1. by subst o. }
  subst o. exists st'. split; [done |]. split.
  - assert (E2 : trace (snd (process_video 5 Demo.self Demo.job_both Demo.st0))
                 = trace st') by (by rewrite E).
    rewrite <- E2. by vm_compute.
  - destruct (Hdoc st' eq_refl) as (p & date & content & Hp & Hfile & Hline).
    assert (p = "out/both.md") as ->.
    { assert (Hp' : Demo.job_both !! "output" = Some (VStr "out/both.md"))
        by (by vm_compute).
      congruence. }
    exists (header_text Demo.job_both date +:+ nl +:+ nl +:+ content).
    split; [exact Hfile |].
    apply contains_app_l.
    destruct Hline as (a & b & Hline). exists a, b. rewrite Hline.
    reflexivity.
Defined.

(** ** The polling loop of [upload_video] *)

Lemma settles_final self h obj n final h' :
  settles self h obj n final h' -> file_state final <> PROCESSING.
Proof. induction 1; done. Qed.

Lemma settles_events self h obj n final h' :
  settles self h obj n final h' ->
  exists names, length names = n /\ h' = h ++ poll_events names.
Proof.
  induction 1 as [h obj Hs | h obj next n final h' Hs Hget _ (names & Hn & ->)].
  - exists []. by rewrite app_nil_r.
  - exists (file_name obj :: names). split; [simpl; lia |].
    by rewrite <- app_assoc.
Qed.

(** With fuel for [n] polls the loop follows the service until it
    settles. *)
Lemma wait_while_processing_settles self h obj n final h' :
  settles self h obj n final h' ->
  forall fuel st, trace st = h -> n <= fuel ->
  exists st',
    wait_while_processing fuel self obj st = (Ok final, st')
    /\ trace st' = h' /\ uploaded_files st' = uploaded_files st
    /\ fs st' = fs st.
Proof.
  induction 1 as [h obj Hs | h obj next n final h' Hs Hget _ IH];
    intros fuel st Ht Hfuel.
  - exists st. destruct fuel; simpl; by destruct (file_state obj).
  - destruct fuel as [| fuel]; [lia |]. simpl. rewrite Hs.
    unfold bind at 1. rewrite time_sleep_ok by done.
    unfold bind at 1, call. simpl. rewrite Ht, Hget.
    destruct (IH fuel (add_event (FilesGet (file_name obj))
                         (add_event (Sleep PollWait 2) st)))
      as (st' & E & ? & ? & ?); [| lia | eauto].
    simpl. by rewrite Ht, <- app_assoc.
Qed.

(** A service that keeps answering [PROCESSING] keeps the loop running,
    whatever the fuel. *)
Lemma wait_while_processing_stuck self :
  (forall h nm, exists o,
      files_get (self_client self) h nm = Ok o /\ file_state o = PROCESSING) ->
  forall fuel obj st,
    file_state obj = PROCESSING ->
    fst (wait_while_processing fuel self obj st) = Diverge.
Proof.
  intros Hstuck. induction fuel as [| fuel IH]; intros obj st Hs; simpl;
    rewrite Hs; [done |].
  unfold bind at 1. rewrite time_sleep_ok by done.
  unfold bind at 1, call. simpl.
  destruct (Hstuck (trace st ++ [Sleep PollWait 2]) (file_name obj))
    as (o & -> & Ho).
  by apply IH.
Qed.

Lemma path_exists_reg fs p c :
  fs_lookup fs p = Some (Reg c) -> path_exists fs p = true.
Proof. unfold path_exists. by intros ->. Qed.

(** [upload_video] up to the polling loop, for a regular file that is not
    in the cache. *)
Lemma upload_video_fresh fuel self video_path display_name st content up :
  fs_lookup (fs st) (Path video_path) = Some (Reg content) ->
  uploaded_files st !! video_path = None ->
  files_upload (self_client self) (trace st) content
    (str (py_or display_name (VStr (stem (Path video_path))))) "video/mp4"
  = Ok up ->
  upload_video fuel self video_path display_name st
  = (video_file_obj <~ wait_while_processing fuel self up;;
     match file_state video_file_obj with
     | FAILED => raise (Exception "Video processing failed: FileState.FAILED")
     | _ =>
         fun st' =>
           (Ok (Uploaded video_file_obj),
            set_uploaded_files
              (<[video_path := Uploaded video_file_obj]> (uploaded_files st'))
              st')
     end)
      (add_event
         (FilesUpload content
            (str (py_or display_name (VStr (stem (Path video_path)))))
            "video/mp4") st).
Proof.
  intros Hfile Hcache Hup. unfold upload_video.
  rewrite (path_exists_reg _ _ _ Hfile), Hcache. simpl negb. cbv iota.
  unfold bind at 1, lift, read_bytes. rewrite Hfile.
  unfold bind at 1, call. by rewrite Hup.
Qed.

(** C6.  [upload_video] on a local path: when the path does not exist it
    raises [FileNotFoundError] and nothing else happens.  When the path is
    a regular file (not in the cache yet) and the upload is accepted, the
    file is sent once and its status is polled, after a sleep of 2 seconds
    each time, for as many polls [n] as the service takes to leave
    [PROCESSING]: there is no bound on [n].  A final [FAILED] status raises
    the processing exception, any other status returns the file and caches
    it.  When the service never leaves [PROCESSING] the call never
    returns. *)
Theorem upload_video_local_variant self video_path display_name st :
  (forall fuel,
     path_exists (fs st) (Path video_path) = false ->
     upload_video fuel self video_path display_name st
     = (Raise (FileNotFoundError ("Video file not found: " +:+ video_path)), st))
  /\ (forall fuel content up n final h',
        fs_lookup (fs st) (Path video_path) = Some (Reg content) ->
        uploaded_files st !! video_path = None ->
        files_upload (self_client self) (trace st) content
          (str (py_or display_name (VStr (stem (Path video_path)))))
          "video/mp4" = Ok up ->
        settles self
          (trace st
           ++ [FilesUpload content
                 (str (py_or display_name (VStr (stem (Path video_path)))))
                 "video/mp4"])
          up n final h' ->
        n <= fuel ->
        exists st',
          upload_video fuel self video_path display_name st
          = (match file_state final with
             | FAILED =>
                 Raise (Exception "Video processing failed: FileState.FAILED")
             | _ => Ok (Uploaded final)
             end, st')
          /\ trace st' = h'
          /\ (exists names,
                length names = n
                /\ h' = trace st
                        ++ FilesUpload content
                             (str (py_or display_name
                                     (VStr (stem (Path video_path)))))
                             "video/mp4"
                           :: poll_events names)
          /\ (file_state final = ACTIVE \/ file_state final = FAILED)
          /\ uploaded_files st'
             = match file_state final with
               | FAILED => uploaded_files st
               | _ => <[video_path := Uploaded final]> (uploaded_files st)
               end)
  /\ (forall fuel content up,
        fs_lookup (fs st) (Path video_path) = Some (Reg content) ->
        uploaded_files st !! video_path = None ->
        files_upload (self_client self) (trace st) content
          (str (py_or display_name (VStr (stem (Path video_path)))))
          "video/mp4" = Ok up ->
        file_state up = PROCESSING ->
        (forall h nm, exists o,
            files_get (self_client self) h nm = Ok o
            /\ file_state o = PROCESSING) ->
        fst (upload_video fuel self video_path display_name st) = Diverge).
Proof.
  split; [| split].
  - intros fuel H. unfold upload_video. by rewrite H.
  - intros fuel content up n final h' Hfile Hcache Hup Hsettles Hfuel.
    rewrite (upload_video_fresh _ _ _ _ _ _ _ Hfile Hcache Hup).
    set (st1 := add_event _ st).
    destruct (settles_events _ _ _ _ _ _ Hsettles) as (names & Hn & Hh').
    destruct (wait_while_processing_settles _ _ _ _ _ _ Hsettles fuel st1
                eq_refl Hfuel) as (st2 & E & Ht & Hc & _).
    pose proof (settles_final _ _ _ _ _ _ Hsettles) as Hfinal.
    unfold bind. rewrite E.
    destruct (file_state final) eqn:Ef; [done | |].
    + eexists. split; [reflexivity |]. simpl.
      rewrite Ht, Hc. repeat split; try done; [| by left].
      exists names. split; [done |]. by rewrite Hh', <- app_assoc.
    + exists st2. split; [reflexivity |].
      rewrite Ht, Hc. repeat split; try done; [| by right].
      exists names. split; [done |]. by rewrite Hh', <- app_assoc.
  - intros fuel content up Hfile Hcache Hup Hproc Hstuck.
    rewrite (upload_video_fresh _ _ _ _ _ _ _ Hfile Hcache Hup).
    set (st1 := add_event _ st). unfold bind.
    pose proof (wait_while_processing_stuck self Hstuck fuel up st1 Hproc) as H.
    by destruct (wait_while_processing fuel self up st1) as [[] ?].
Qed.

Lemma upload_video_local_variant_witness :
  upload_video 5 Demo.self "videos/missing.mp4" VNone Demo.st0
  = (Raise (FileNotFoundError "Video file not found: videos/missing.mp4"),
     Demo.st0)
  /\ (exists st',
        upload_video 5 Demo.self "videos/c.mp4" VNone Demo.st0
        = (Ok (Uploaded {| file_name := "files/c"; file_uri := "https://files/c";
                           file_mime_type := "video/mp4";
                           file_state := ACTIVE |}), st')
        /\ trace st'
           = [FilesUpload "bytes" "c" "video/mp4";
              Sleep PollWait 2; FilesGet "files/c";
              Sleep PollWait 2; FilesGet "files/c";
              Sleep PollWait 2; FilesGet "files/c"])
  /\ (exists st',
        upload_video 5 (Demo.extractor_of Demo.failing_client [])
          "videos/c.mp4" VNone Demo.st0
        = (Raise (Exception "Video processing failed: FileState.FAILED"), st'))
  /\ (forall fuel,
        fst (upload_video fuel (Demo.extractor_of Demo.stuck_client [])
               "videos/c.mp4" VNone Demo.st0) = Diverge).
Proof.
  split; [| split; [| split]].
  - destruct (upload_video_local_variant Demo.self "videos/missing.mp4" VNone
                Demo.st0) as (H & _).
    apply H. by vm_compute.
  - destruct (upload_video_local_variant Demo.self "videos/c.mp4" VNone
                Demo.st0) as (_ & H & _).
    edestruct (H 5) as (st' & E & Ht & _).
    + reflexivity.
    + reflexivity.
    + reflexivity.
    + do 3 (eapply settles_later; [reflexivity | reflexivity |]).
      apply settles_now. discriminate.
    + lia.
    + exists st'. split; [rewrite E; reflexivity |]. rewrite Ht. reflexivity.
  - destruct (upload_video_local_variant
                (Demo.extractor_of Demo.failing_client []) "videos/c.mp4" VNone
                Demo.st0) as (_ & H & _).
    edestruct (H 5) as (st' & E & _).
    + reflexivity.
    + reflexivity.
    + reflexivity.
    + eapply settles_later; [reflexivity | reflexivity |].
      apply settles_now. discriminate.
    + lia.
    + exists st'. rewrite E. reflexivity.
  - intros fuel.
    destruct (upload_video_local_variant
                (Demo.extractor_of Demo.stuck_client []) "videos/c.mp4" VNone
                Demo.st0) as (_ & _ & H).
    eapply H.
    + reflexivity.
    + reflexivity.
    + reflexivity.
    + reflexivity.
    + intros h nm. eexists. split; reflexivity.
Defined.

(** ** The cache of prepared sources *)

Lemma wait_while_processing_frame fuel self obj st o st' :
  wait_while_processing fuel self obj st = (o, st') ->
  fs st' = fs st /\ uploaded_files st' = uploaded_files st.
Proof.
  revert obj st. induction fuel as [| fuel IH]; intros obj st; simpl.
  - destruct (file_state obj); by intros [= _ <-].
  - destruct (file_state obj); try by intros [= _ <-].
    unfold bind at 1. rewrite time_sleep_ok by done.
    unfold bind at 1, call. simpl.
    destruct (files_get _ _ _) as [next | e |]; try by intros [= _ <-].
    intros H. by apply IH in H as [-> ->].
Qed.

(** A handle returned by [upload_video] is in the cache under the path, the
    path exists, and the file system is as before. *)
Lemma upload_video_ok fuel self video_path display_name st obj st1 :
  upload_video fuel self video_path display_name st = (Ok obj, st1) ->
  uploaded_files st1 !! video_path = Some obj
  /\ fs st1 = fs st
  /\ path_exists (fs st) (Path video_path) = true.
Proof.
  unfold upload_video.
  destruct (path_exists (fs st) (Path video_path)) eqn:Hex; [| done].
  simpl negb. cbv iota.
  destruct (uploaded_files st !! video_path) as [cached |] eqn:Hc.
  { intros [= <- <-]. done. }
  unfold bind at 1, lift.
  destruct (read_bytes (fs st) (Path video_path)) as [content | e |]; try done.
  unfold bind at 1, call.
  destruct (files_upload _ _ _ _ _) as [up | e |]; try done.
  set (st0 := add_event _ st). unfold bind.
  destruct (wait_while_processing fuel self up st0) as [[final | e |] st2] eqn:Ew;
    try done.
  apply wait_while_processing_frame in Ew as [Hfs Hcache].
  destruct (file_state final); try done; intros [= <- <-]; simpl;
    by rewrite lookup_insert_eq.
Qed.

(** A cached path that still exists is answered from the cache: the state,
    and so the trace, does not change. *)
Lemma upload_video_cached fuel self video_path display_name st obj :
  uploaded_files st !! video_path = Some obj ->
  path_exists (fs st) (Path video_path) = true ->
  upload_video fuel self video_path display_name st = (Ok obj, st).
Proof. intros Hc Hex. unfold upload_video. by rewrite Hex, Hc. Qed.

Lemma create_youtube_video_object_ok self url display_name st :
  exists obj st1,
    create_youtube_video_object self url display_name st = (Ok obj, st1)
    /\ uploaded_files st1 !! url = Some obj
    /\ trace st1 = trace st /\ fs st1 = fs st.
Proof.
  unfold create_youtube_video_object.
  destruct (uploaded_files st !! url) as [cached |] eqn:Hc.
  - by exists cached, st.
  - eexists _, _. split; [reflexivity |]. simpl. by rewrite lookup_insert_eq.
Qed.

Lemma create_youtube_video_object_cached self url display_name st obj :
  uploaded_files st !! url = Some obj ->
  create_youtube_video_object self url display_name st = (Ok obj, st).
Proof. intros Hc. unfold create_youtube_video_object. by rewrite Hc. Qed.

(** A call of [upload_video] that raises leaves the cache and the file
    system as they were. *)
Lemma upload_video_raise_frame fuel self video_path display_name st e st' :
  upload_video fuel self video_path display_name st = (Raise e, st') ->
  uploaded_files st' = uploaded_files st /\ fs st' = fs st.
Proof.
  unfold upload_video.
  destruct (negb (path_exists (fs st) (Path video_path)));
    [by intros [= _ <-] |].
  destruct (uploaded_files st !! video_path) as [cached |]; [done |].
  unfold bind at 1, lift.
  destruct (read_bytes (fs st) (Path video_path)) as [content | e0 |];
    [| by intros [= _ <-] | done].
  unfold bind at 1, call.
  destruct (files_upload _ _ _ _ _) as [up | e0 |];
    [| by intros [= _ <-] | done].
  set (st0 := add_event _ st). unfold bind.
  destruct (wait_while_processing fuel self up st0) as [[final | e0 |] st2] eqn:Ew;
    apply wait_while_processing_frame in Ew as [Hfs Hcache];
    [| by intros [= _ <-] | done].
  destruct (file_state final); try done. by intros [= _ <-].
Qed.

(** A call of [upload_video] for a regular file that is not in the cache
    begins by sending the file. *)
Lemma upload_video_sends_first fuel self video_path display_name st content :
  uploaded_files st !! video_path = None ->
  fs_lookup (fs st) (Path video_path) = Some (Reg content) ->
  exists d,
    trace (snd (upload_video fuel self video_path display_name st))
    = trace st
      ++ FilesUpload content
           (str (py_or display_name (VStr (stem (Path video_path)))))
           "video/mp4" :: d.
Proof.
  intros Hcache Hfile. unfold upload_video.
  rewrite (path_exists_reg _ _ _ Hfile), Hcache. simpl negb. cbv iota.
  unfold bind at 1, lift, read_bytes. rewrite Hfile.
  unfold bind at 1, call.
  destruct (files_upload _ _ _ _ _) as [up | e0 |];
    [| exists []; done | exists []; done].
  set (st0 := add_event _ st).
  assert (H : emits (fun _ => true)
                (video_file_obj <~ wait_while_processing fuel self up;;
                 match file_state video_file_obj with
                 | FAILED =>
                     raise (Exception "Video processing failed: FileState.FAILED")
                 | _ =>
                     fun st' =>
                       (Ok (Uploaded video_file_obj),
                        set_uploaded_files
                          (<[video_path := Uploaded video_file_obj]>
                             (uploaded_files st')) st')
                 end)).
  { apply emits_bind; [by apply emits_wait_while_processing |]. intros obj.
    destruct (file_state obj); try apply emits_raise;
      intros st1; by apply extends_same. }
  destruct (H st0) as (d & Hd & _). exists d.
  rewrite Hd. unfold st0. simpl. by rewrite <- app_assoc.
Qed.

(** C4, as the code has it.  When the first preparation of an identity
    returned a handle, the second one returns the same handle and leaves
    the state as it is, so it makes no service call at all: always so for
    a remote URL, and for a local path as long as the path still exists,
    because [upload_video] looks at the path before it looks into the
    cache.  A first call that raises caches nothing: it leaves the cache as
    it was, so that the next call for the file, still absent from the
    cache, begins by sending it again.  Only [upload_video] can raise;
    [create_youtube_video_object] always returns. *)
Theorem prepare_twice_cached
    fuel fuel' self identity display_name display_name' st obj st1 :
  (create_youtube_video_object self identity display_name st = (Ok obj, st1) ->
   create_youtube_video_object self identity display_name' st1 = (Ok obj, st1))
  /\ (upload_video fuel self identity display_name st = (Ok obj, st1) ->
      upload_video fuel' self identity display_name' st1 = (Ok obj, st1)
      /\ forall st2,
           uploaded_files st2 !! identity = Some obj ->
           path_exists (fs st2) (Path identity) = true ->
           upload_video fuel' self identity display_name' st2 = (Ok obj, st2))
  /\ (forall e st',
        upload_video fuel self identity display_name st = (Raise e, st') ->
        uploaded_files st' = uploaded_files st
        /\ fs st' = fs st
        /\ forall content,
             uploaded_files st !! identity = None ->
             fs_lookup (fs st') (Path identity) = Some (Reg content) ->
             exists d,
               trace (snd (upload_video fuel' self identity display_name' st'))
               = trace st'
                 ++ FilesUpload content
                      (str (py_or display_name' (VStr (stem (Path identity)))))
                      "video/mp4" :: d)
  /\ (forall e st',
        create_youtube_video_object self identity display_name st
        <> (Raise e, st')).
Proof.
  split; [| split; [| split]].
  - intros H. apply create_youtube_video_object_cached.
    destruct (create_youtube_video_object_ok self identity display_name st)
      as (obj' & st1' & E & Hc & _).
    rewrite E in H. by injection H as <- <-.
  - intros H. apply upload_video_ok in H as (Hc & Hfs & Hex). split.
    + apply upload_video_cached; [done | by rewrite Hfs].
    + intros st2 Hc2 Hex2. by apply upload_video_cached.
  - intros e st' H. apply upload_video_raise_frame in H as [Hc Hfs].
    split; [done |]. split; [done |]. intros content Hnone Hfile.
    apply upload_video_sends_first; [by rewrite Hc | done].
  - intros e st'.
    destruct (create_youtube_video_object_ok self identity display_name st)
      as (obj' & st1' & -> & _).
    done.
Qed.

Lemma prepare_twice_cached_witness :
  (exists obj st1,
     upload_video 5 Demo.self "videos/c.mp4" VNone Demo.st0 = (Ok obj, st1)
     /\ upload_video 0 Demo.self "videos/c.mp4" (VStr "again") st1
        = (Ok obj, st1))
  /\ (exists obj st1,
        create_youtube_video_object Demo.self "https://youtu.be/abc123"
          (VStr "T") Demo.st0 = (Ok obj, st1)
        /\ create_youtube_video_object Demo.self "https://youtu.be/abc123"
             VNone st1 = (Ok obj, st1))
  /\ (exists e st' d,
        upload_video 5 (Demo.extractor_of Demo.failing_client [])
          "videos/c.mp4" VNone Demo.st0 = (Raise e, st')
        /\ uploaded_files st' = uploaded_files Demo.st0
        /\ trace (snd (upload_video 5
                         (Demo.extractor_of Demo.failing_client [])
                         "videos/c.mp4" VNone st'))
           = trace st'
             ++ FilesUpload "bytes"
                  (str (py_or VNone (VStr (stem (Path "videos/c.mp4")))))
                  "video/mp4" :: d).
Proof.
  split; [| split].
  - destruct (upload_video 5 Demo.self "videos/c.mp4" VNone Demo.st0)
      as [o st1] eqn:E.
    assert (Ho : exists obj, o = Ok obj).
    { assert (E1 : fst (upload_video 5 Demo.self "videos/c.mp4" VNone Demo.st0)
                   = o) by (by rewrite E).
      vm_compute in E1. subst o. eauto. }
    destruct Ho as (obj & ->). exists obj, st1. split; [done |].
    destruct (prepare_twice_cached 5 0 Demo.self "videos/c.mp4" VNone
                (VStr "again") Demo.st0 obj st1) as (_ & H & _).
    by destruct (H E) as [H1 _].
  - destruct (create_youtube_video_object Demo.self "https://youtu.be/abc123"
                (VStr "T") Demo.st0) as [o st1] eqn:E.
    assert (Ho : exists obj, o = Ok obj).
    { assert (E1 : fst (create_youtube_video_object Demo.self
                          "https://youtu.be/abc123" (VStr "T") Demo.st0) = o)
        by (by rewrite E).
      vm_compute in E1. subst o. eauto. }
    destruct Ho as (obj & ->). exists obj, st1. split; [done |].
    destruct (prepare_twice_cached 0 0 Demo.self "https://youtu.be/abc123"
                (VStr "T") VNone Demo.st0 obj st1) as [H _].
    exact (H E).
  - destruct (upload_video 5 (Demo.extractor_of Demo.failing_client [])
                "videos/c.mp4" VNone Demo.st0) as [o st'] eqn:E.
    assert (Ho : exists e, o = Raise e).
    { apply (f_equal fst) in E. simpl in E. subst o. vm_compute. eauto. }
    destruct Ho as (e & ->).
    destruct (prepare_twice_cached 5 5
                (Demo.extractor_of Demo.failing_client [])
                "videos/c.mp4" VNone VNone Demo.st0 Demo.handle_c Demo.st0)
      as (_ & _ & H & _).
    destruct (H e st' E) as (Hc & Hfs & Hnext).
    destruct (Hnext "bytes") as (d & Hd); [reflexivity | by rewrite Hfs |].
    by exists e, st', d.
Defined.

(** C4, as the claim has it, fails: the handle of [videos/c.mp4] is in the
    cache after the first call, the file is then removed, and the second
    call raises [FileNotFoundError] where the claim has it return the
    cached handle without looking at the file again. *)
Lemma upload_video_second_call_rechecks_file :
  fst (upload_video 5 Demo.self "videos/c.mp4" VNone Demo.st0)
  = Ok Demo.handle_c
  /\ uploaded_files Demo.file_removed !! "videos/c.mp4" = Some Demo.handle_c
  /\ fst (upload_video 5 Demo.self "videos/c.mp4" VNone Demo.file_removed)
     = Raise (FileNotFoundError "Video file not found: videos/c.mp4")
  /\ fst (upload_video 5 Demo.self "videos/c.mp4" VNone Demo.file_removed)
     <> Ok Demo.handle_c.
Proof. by vm_compute. Qed.

(** A first call that fails leaves nothing in the cache, and the next call
    sends the file again. *)
Lemma upload_video_retransmits_after_failure :
  fst (upload_video 5 (Demo.extractor_of Demo.failing_client [])
         "videos/c.mp4" VNone Demo.st0)
  = Raise (Exception "Video processing failed: FileState.FAILED")
  /\ uploaded_files Demo.after_failure !! "videos/c.mp4" = None
  /\ length (List.filter is_upload
               (trace (snd (upload_video 5
                              (Demo.extractor_of Demo.failing_client [])
                              "videos/c.mp4" VNone Demo.after_failure)))) = 2.
Proof. by vm_compute. Qed.

(** ** The matcher decides prefix membership *)

Lemma append_eq_empty (s1 s2 : string) : s1 +:+ s2 = "" -> s1 = "" /\ s2 = "".
Proof. destruct s1; [done | discriminate]. Qed.

Lemma append_eq_cons (s1 s2 : string) a s :
  s1 +:+ s2 = String a s ->
  (s1 = "" /\ s2 = String a s) \/ (exists s1', s1 = String a s1' /\ s = s1' +:+ s2).
Proof.
  destruct s1 as [| c s1]; [by left |].
  intros [= -> <-]. right. eauto.
Qed.

Lemma nullable_matches r : Re.nullable r = true <-> Re.matches r "".
Proof.
  split.
  - induction r; simpl; intros H; try done.
    + constructor.
    + apply andb_true_iff in H as [H1 H2].
      change "" with ("" +:+ ""). constructor; auto.
    + apply orb_true_iff in H as [H | H];
        [apply Re.MAltL | apply Re.MAltR]; auto.
    + constructor.
  - remember "" as s eqn:Es. intros H. revert Es.
    induction H; intros Es; simpl; try done.
    + apply append_eq_empty in Es as [-> ->]. by rewrite IHmatches1, IHmatches2.
    + by rewrite IHmatches.
    + rewrite IHmatches by done. apply orb_true_r.
Qed.

Lemma star_cons_inv r a s :
  Re.matches (Re.Star r) (String a s) ->
  exists s1 s2,
    s = s1 +:+ s2 /\ Re.matches r (String a s1) /\ Re.matches (Re.Star r) s2.
Proof.
  remember (Re.Star r) as r' eqn:Er. remember (String a s) as w eqn:Ew.
  intros H. revert Er Ew.
  induction H as [| | | | | | | r0 s1 s2 H1 _ H2 IH2]; intros Er Ew; try done.
  injection Er as ->.
  apply append_eq_cons in Ew as [[-> ->] | (s1' & -> & ->)].
  - by apply IH2.
  - eauto.
Qed.

Lemma deriv_matches a r s :
  Re.matches (Re.deriv a r) s <-> Re.matches r (String a s).
Proof.
  revert s. induction r as [| | c | p | r1 IH1 r2 IH2 | r1 IH1 r2 IH2 | r IH];
    intros s; simpl.
  - split; inversion 1.
  - split; inversion 1.
  - destruct (Ascii.eqb_spec a c) as [-> | Hne]; split; inversion 1; subst;
      try done; constructor.
  - destruct (p a) eqn:Hp; split; inversion 1; subst; try congruence.
    + by constructor.
    + constructor.
  - assert (Hcat : Re.matches (Re.Cat (Re.deriv a r1) r2) s ->
                   Re.matches (Re.Cat r1 r2) (String a s)).
    { inversion 1; subst.
      change (String a (s1 +:+ s2)) with (String a s1 +:+ s2).
      constructor; [by apply IH1 | done]. }
    destruct (Re.nullable r1) eqn:Hn; split.
    + inversion 1; subst; [by apply Hcat |].
      change (String a s) with ("" +:+ String a s).
      constructor; [by apply nullable_matches | by apply IH2].
    + inversion 1 as [| | | ? ? s1 s2 H1 H2 | | | |]; subst.
      match goal with
      | Heq : _ +:+ _ = String _ _ |- _ =>
          apply append_eq_cons in Heq as [[-> ->] | (s1' & -> & ->)]
      end.
      * apply Re.MAltR. by apply IH2.
      * apply Re.MAltL. constructor; [by apply IH1 | done].
    + apply Hcat.
    + inversion 1 as [| | | ? ? s1 s2 H1 H2 | | | |]; subst.
      match goal with
      | Heq : _ +:+ _ = String _ _ |- _ =>
          apply append_eq_cons in Heq as [[-> ->] | (s1' & -> & ->)]
      end.
      * apply nullable_matches in H1. congruence.
      * constructor; [by apply IH1 | done].
  - split.
    + inversion 1; subst; [apply Re.MAltL | apply Re.MAltR]; firstorder.
    + inversion 1; subst; [apply Re.MAltL | apply Re.MAltR]; firstorder.
  - split.
    + inversion 1; subst.
      change (String a (s1 +:+ s2)) with (String a s1 +:+ s2).
      constructor; [by apply IH | done].
    + intros (s1 & s2 & -> & H1 & H2)%star_cons_inv.
      constructor; [by apply IH | done].
Qed.

(** [re_match r s] holds exactly when a prefix of [s] is in the language of
    [r], which is what [re.match] decides. *)
Lemma re_match_spec r s :
  Re.re_match r s = true <-> exists pre post, s = pre +:+ post /\ Re.matches r pre.
Proof.
  revert r. induction s as [| a s IH]; intros r; simpl.
  - rewrite orb_false_r, nullable_matches. split.
    + intros H. by exists "", "".
    + intros (pre & post & Heq & H). symmetry in Heq.
      by apply append_eq_empty in Heq as [-> _].
  - rewrite orb_true_iff, nullable_matches, IH. split.
    + intros [H | (pre & post & -> & H)].
      * by exists "", (String a s).
      * exists (String a pre), post. split; [done | by apply deriv_matches].
    + intros (pre & post & Heq & H). symmetry in Heq.
      apply append_eq_cons in Heq as [[-> _] | (pre' & -> & ->)].
      * by left.
      * right. exists pre', post. split; [done | by apply deriv_matches].
Qed.

Lemma is_youtube_url_spec url :
  _is_youtube_url url = true <->
  exists pattern pre post,
    In pattern youtube_patterns /\ url = pre +:+ post /\ Re.matches pattern pre.
Proof.
  unfold _is_youtube_url. rewrite List.existsb_exists. split.
  - intros (pattern & Hin & H). apply re_match_spec in H as (pre & post & ? & ?).
    eauto 6.
  - intros (pattern & pre & post & Hin & Heq & H). exists pattern.
    split; [done |]. apply re_match_spec. eauto.
Qed.

(** ** Remote URLs *)

(** C2, as the code has it.  [_is_youtube_url] accepts the three YouTube
    forms and rejects the Vimeo URL, but no method calls it: a job is taken
    as remote as soon as its [youtube_url] is not empty, and
    [create_youtube_video_object] accepts every string.  For an identity
    that is not in the cache it returns at once a handle whose [uri] is the
    string itself, with no service call and no exception. *)
Theorem remote_preparation_accepts_any_url self :
  (forall youtube_url display_name st,
     uploaded_files st !! youtube_url = None ->
     exists st',
       create_youtube_video_object self youtube_url display_name st
       = (Ok (YouTubeVideo youtube_url "video/mp4"
                (str (py_or display_name (VStr youtube_url)))), st')
       /\ trace st' = trace st)
  /\ (forall fuel video_config,
        truthy (get video_config "youtube_url") = true ->
        prepare fuel self video_config
        = create_youtube_video_object self
            (str (get video_config "youtube_url")) (get video_config "title"))
  /\ _is_youtube_url "https://youtu.be/abc123" = true
  /\ _is_youtube_url "https://www.youtube.com/watch?v=abc123" = true
  /\ _is_youtube_url "https://youtube.com/embed/abc123" = true
  /\ _is_youtube_url "https://vimeo.com/abc123" = false.
Proof.
  split; [| split; [| by vm_compute]].
  - intros youtube_url display_name st Hc.
    unfold create_youtube_video_object. rewrite Hc. eauto.
  - intros fuel video_config Hu. unfold prepare. by rewrite Hu.
Qed.

Lemma remote_preparation_accepts_any_url_witness :
  exists st',
    create_youtube_video_object Demo.self "https://youtu.be/abc123" (VStr "T")
      Demo.st0
    = (Ok (YouTubeVideo "https://youtu.be/abc123" "video/mp4" "T"), st')
    /\ trace st' = [].
Proof.
  destruct (remote_preparation_accepts_any_url Demo.self) as (H & _).
  apply (H "https://youtu.be/abc123" (VStr "T") Demo.st0). reflexivity.
Defined.

(** C2, as the claim has it, fails: the Vimeo URL does not have one of the
    YouTube shapes, and yet its preparation returns a handle, and the whole
    job succeeds with the URL sent to the generation service. *)
Lemma vimeo_url_is_prepared :
  _is_youtube_url "https://vimeo.com/abc123" = false
  /\ fst (create_youtube_video_object Demo.self "https://vimeo.com/abc123"
            (VStr "V") Demo.st0)
     = Ok (YouTubeVideo "https://vimeo.com/abc123" "video/mp4" "V")
  /\ fst (process_video 5 Demo.self Demo.job_vimeo Demo.st0) = Ok true
  /\ trace (snd (process_video 5 Demo.self Demo.job_vimeo Demo.st0))
     = [Printed (Processing (VStr "V"));
        GenerateContent "gemini-1.5-pro" "https://vimeo.com/abc123" "video/mp4"
          "Extract V / Unknown";
        Printed (Succeeded (VStr "V"))].
Proof. by vm_compute. Qed.

(** ** Checks made before the [try] *)

(** Loading never looks at the job list: a job without a source gets
    through [__init__]. *)
Lemma init_accepts_sourceless_job :
  exists self st,
    init (Some (Demo.cfg [Demo.job_none])) VNone Demo.client Demo.disk
    = Ok (self, st)
    /\ cfg_videos (self_config self) = Some [Demo.job_none].
Proof. eexists _, _. split; reflexivity. Qed.

(** The error of a job without a source is raised outside the [try] of
    [process_video], so it leaves [process_batch] too: the job after it is
    not started. *)
Lemma sourceless_job_aborts_batch :
  fst (process_batch 5
         (Demo.extractor_of Demo.client [Demo.job_a; Demo.job_none; Demo.job_c])
         None Demo.st0)
  = Raise (ValueError "Video config must specify either 'youtube_url' or 'path'")
  /\ started (trace (snd (process_batch 5
        (Demo.extractor_of Demo.client [Demo.job_a; Demo.job_none; Demo.job_c])
        None Demo.st0)))
     = [VStr "T"].
Proof. by vm_compute. Qed.

(** ** Relations that every method keeps *)

Section Keeps.
Context (R : state -> state -> Prop) `{!PreOrder R}.
Hypothesis R_event : forall ev st, R st (add_event ev st).

Lemma keeps_ret {A} (a : A) : keeps R (ret a).
Proof. intros st. simpl. reflexivity. Qed.

Lemma keeps_raise {A} e : keeps R (@raise A e).
Proof. intros st. simpl. reflexivity. Qed.

Lemma keeps_diverge {A} : keeps R (@diverge A).
Proof. intros st. simpl. reflexivity. Qed.

Lemma keeps_lift {A} (r : outcome A) : keeps R (lift r).
Proof. intros st. simpl. reflexivity. Qed.

Lemma keeps_emit ev : keeps R (emit ev).
Proof. intros st. apply R_event. Qed.

Lemma keeps_call {A} ev (f : list event -> outcome A) : keeps R (call ev f).
Proof. intros st. apply R_event. Qed.

Lemma keeps_bind {A B} (m : M A) (k : A -> M B) :
  keeps R m -> (forall a, keeps R (k a)) -> keeps R (bind m k).
Proof.
  intros Hm Hk st. unfold bind. specialize (Hm st).
  destruct (m st) as [[a | e |] st1]; simpl in *; try done.
  etrans; [exact Hm | apply Hk].
Qed.

Lemma keeps_try_except {A} (body : M A) (handler : exn -> M A) :
  keeps R body -> (forall e, keeps R (handler e)) ->
  keeps R (try_except body handler).
Proof.
  intros Hb Hh st. unfold try_except. specialize (Hb st).
  destruct (body st) as [[a | e |] st1]; simpl in *; try done.
  etrans; [exact Hb | apply Hh].
Qed.

Lemma keeps_time_sleep site d : keeps R (time_sleep site d).
Proof.
  unfold time_sleep. destruct (d <? 0)%Z; [apply keeps_raise | apply keeps_emit].
Qed.

Lemma keeps_wait_while_processing fuel self obj :
  keeps R (wait_while_processing fuel self obj).
Proof.
  revert obj. induction fuel as [| fuel IH]; intros obj; simpl.
  - destruct (file_state obj); first [apply keeps_diverge | apply keeps_ret].
  - destruct (file_state obj); try apply keeps_ret.
    apply keeps_bind; [apply keeps_time_sleep |]. intros _.
    apply keeps_bind; [apply keeps_call |]. intros next. apply IH.
Qed.

Lemma keeps_extract_content self obj vc : keeps R (extract_content self obj vc).
Proof.
  unfold extract_content.
  apply keeps_bind; [apply keeps_lift |]. intros prompt.
  apply keeps_bind; [apply keeps_call |]. intros [t |].
  - destruct (String.eqb t ""); [apply keeps_raise | apply keeps_ret].
  - apply keeps_raise.
Qed.

(** What the relation must allow: a new cache entry. *)
Hypothesis R_cache : forall st k obj,
  uploaded_files st !! k = None ->
  R st (set_uploaded_files (<[k := obj]> (uploaded_files st)) st).

Lemma keeps_create_youtube_video_object self url dn :
  keeps R (create_youtube_video_object self url dn).
Proof.
  intros st. unfold create_youtube_video_object.
  destruct (uploaded_files st !! url) eqn:E; simpl; [reflexivity |].
  by apply R_cache.
Qed.

Lemma keeps_upload_video fuel self p dn : keeps R (upload_video fuel self p dn).
Proof.
  intros st. unfold upload_video.
  destruct (negb (path_exists (fs st) (Path p))); [simpl; reflexivity |].
  destruct (uploaded_files st !! p) eqn:Hc; [simpl; reflexivity |].
  unfold bind at 1, lift.
  destruct (read_bytes (fs st) (Path p)) as [content | e |];
    [| simpl; reflexivity | simpl; reflexivity].
  unfold bind at 1, call.
  destruct (files_upload _ _ _ _ _) as [up | e |];
    [| simpl; apply R_event | simpl; apply R_event].
  set (st0 := add_event _ st). unfold bind.
  destruct (wait_while_processing fuel self up st0) as [o st2] eqn:Ew.
  assert (H02 : R st0 st2).
  { pose proof (keeps_wait_while_processing fuel self up st0) as H.
    by rewrite Ew in H. }
  assert (Hst2 : R st st2) by (etrans; [apply R_event | exact H02]).
  destruct o as [final | e |]; simpl; try done.
  apply wait_while_processing_frame in Ew as [_ Hcache].
  destruct (file_state final); simpl; try done;
    (etrans; [exact Hst2 |]; apply R_cache; by rewrite Hcache).
Qed.

(** One job, when the relation allows what [save_markdown] does for it. *)
Lemma keeps_process_video fuel self vc :
  (forall content out, vc !! "output" = Some out ->
     keeps R (save_markdown self content out vc)) ->
  keeps R (process_video fuel self vc).
Proof.
  intros Hsave. unfold process_video.
  destruct (vc !! "output") as [out |] eqn:Hout; [| apply keeps_raise].
  destruct (negb _ && negb _); [apply keeps_raise |].
  apply keeps_bind; [apply keeps_emit |]. intros _.
  apply keeps_try_except.
  - unfold process_video_body.
    apply keeps_bind.
    { destruct (truthy _);
        [apply keeps_create_youtube_video_object | apply keeps_upload_video]. }
    intros obj. apply keeps_bind; [apply keeps_extract_content |].
    intros content. apply keeps_bind; [by apply Hsave |]. intros _.
    apply keeps_bind; [apply keeps_emit | intros _; apply keeps_ret].
  - intros e. apply keeps_bind; [apply keeps_emit | intros _; apply keeps_ret].
Qed.

Lemma keeps_batch_loop fuel self n i videos r :
  (forall v content out, v ∈ videos -> v !! "output" = Some out ->
     keeps R (save_markdown self content out v)) ->
  keeps R (batch_loop fuel self n i videos r).
Proof.
  revert i r. induction videos as [| v videos IH]; intros i r Hsave; simpl.
  - apply keeps_ret.
  - apply keeps_bind.
    { apply keeps_process_video. intros content out. apply Hsave. by left. }
    intros ok. apply keeps_bind.
    { destruct (i <? n)%nat; [apply keeps_time_sleep | apply keeps_ret]. }
    intros _. apply IH. intros v' content out Hin. apply Hsave. by right.
Qed.

Lemma keeps_process_batch fuel self video_list :
  (forall v content out,
     v ∈ select_videos self video_list -> v !! "output" = Some out ->
     keeps R (save_markdown self content out v)) ->
  keeps R (process_batch fuel self video_list).
Proof.
  intros Hsave. unfold process_batch.
  destruct (select_videos self video_list) as [| v vs] eqn:E;
    [apply keeps_ret |].
  by apply keeps_batch_loop.
Qed.
End Keeps.

(** ** What [save_markdown] does to the file system *)

Lemma mkdir_parents_inv fs p fs1 :
  mkdir_parents fs p = Ok fs1 ->
  fs1 = foldr (fun q acc => <[q := Dir]> acc) fs (ancestors p)
  /\ forall q, q ∈ ancestors p -> is_reg fs q = false.
Proof.
  unfold mkdir_parents.
  destruct (List.find (is_reg fs) (ancestors p)) as [q |] eqn:E.
  - by destruct (bool_decide (q = p)).
  - intros [= <-]. split; [done |]. intros q Hq.
    apply list_elem_of_In in Hq.
    pose proof (List.find_none _ _ E q Hq) as H. done.
Qed.

Lemma write_text_inv fs p content fs2 :
  write_text fs p content = Ok fs2 ->
  fs2 = <[p := Reg content]> fs /\ p <> [] /\ p <> ["/"] /\ is_dir fs p = false.
Proof.
  unfold write_text, is_dir. intros H.
  assert (p <> [] /\ p <> ["/"]) as [H1 H2] by (split; intros ->; done).
  destruct (fs_lookup fs p) as [[| c] |];
    destruct (fs_lookup fs (parent p)) as [[| c'] |]; try done;
    by injection H as <-.
Qed.

(** The states [save_markdown] can end in: the same file system, the
    directories above the output created, or these and the document
    written. *)
Lemma save_markdown_fs self content p vm st o st' :
  save_markdown self content (VStr p) vm st = (o, st') ->
  fs st' = fs st
  \/ ((forall q, q ∈ ancestors (parent (Path p)) -> is_reg (fs st) q = false)
      /\ (fs st' = foldr (fun q acc => <[q := Dir]> acc) (fs st)
                     (ancestors (parent (Path p)))
          \/ (exists doc,
                fs st' = <[Path p := Reg doc]>
                           (foldr (fun q acc => <[q := Dir]> acc) (fs st)
                              (ancestors (parent (Path p))))
                /\ Path p <> [] /\ Path p <> ["/"]
                /\ is_dir (foldr (fun q acc => <[q := Dir]> acc) (fs st)
                             (ancestors (parent (Path p)))) (Path p) = false))).
Proof.
  unfold save_markdown. unfold bind at 1.
  destruct (mkdir_parents (fs st) (parent (Path p))) as [fs1 | e |] eqn:Em;
    [| intros [= _ <-]; by left | intros [= _ <-]; by left].
  apply mkdir_parents_inv in Em as [-> Hreg].
  unfold _generate_metadata_header, bind, strftime_now, ret. simpl.
  match goal with
  | |- context [write_text ?f ?out ?d] =>
      destruct (write_text f out d) as [fs2 | e |] eqn:Ew
  end; intros [= _ <-]; right; (split; [done |]); [| by left | by left].
  apply write_text_inv in Ew as (-> & ? & ? & ?). right. eauto.
Qed.

Lemma save_markdown_frame self content out vm st q :
  ~ (exists p, out = VStr p
               /\ (q = Path p \/ q ∈ ancestors (parent (Path p)))) ->
  fs_lookup (fs (snd (save_markdown self content out vm st))) q
  = fs_lookup (fs st) q.
Proof.
  intros Hq. destruct out as [| p]; [done |].
  assert (Hq1 : q <> Path p) by (intros ->; apply Hq; eauto).
  assert (Hq2 : q ∉ ancestors (parent (Path p))) by (intros ?; apply Hq; eauto).
  destruct (save_markdown self content (VStr p) vm st) as [o st'] eqn:E.
  destruct (save_markdown_fs _ _ _ _ _ _ _ E)
    as [H | (_ & [H | (doc & H & ? & ? & _)])]; simpl; rewrite H; [done | |].
  - by rewrite fs_lookup_dirs, bool_decide_eq_false_2.
  - rewrite fs_lookup_insert, bool_decide_eq_false_2 by done.
    by rewrite fs_lookup_dirs, bool_decide_eq_false_2.
Qed.

Lemma is_reg_false_kind fs q n :
  is_reg fs q = false -> fs_lookup fs q = Some n -> n = Dir.
Proof. unfold is_reg. intros H E. rewrite E in H. by destruct n. Qed.

Lemma save_markdown_nothing_lost self content out vm st :
  nothing_lost st (snd (save_markdown self content out vm st)).
Proof.
  intros q n Hn. destruct out as [| p]; [by exists n |].
  destruct (save_markdown self content (VStr p) vm st) as [o st'] eqn:E.
  destruct (save_markdown_fs _ _ _ _ _ _ _ E)
    as [H | (Hreg & [H | (doc & H & H1 & H2 & Hdir)])]; simpl; rewrite H;
    [by exists n | |].
  - rewrite fs_lookup_dirs. case_bool_decide as Hin; [| by exists n].
    exists Dir. split; [done |]. by rewrite (is_reg_false_kind _ _ _ (Hreg q Hin) Hn).
  - rewrite fs_lookup_insert by done. case_bool_decide as Hq.
    + subst q. exists (Reg doc). split; [done |].
      unfold is_dir in Hdir. rewrite fs_lookup_dirs in Hdir.
      case_bool_decide as Hin; [done |]. rewrite Hn in Hdir. by destruct n.
    + rewrite fs_lookup_dirs. case_bool_decide as Hin; [| by exists n].
      exists Dir. split; [done |].
      by rewrite (is_reg_false_kind _ _ _ (Hreg q Hin) Hn).
Qed.

(** ** The relations are preorders *)

#[local] Instance cache_grows_preorder : PreOrder cache_grows.
Proof.
  split.
  - intros st. unfold cache_grows. reflexivity.
  - intros st1 st2 st3 H12 H23. unfold cache_grows in *. by etrans.
Qed.

#[local] Instance same_outside_preorder S : PreOrder (same_outside S).
Proof.
  split.
  - by intros st q Hq.
  - intros st1 st2 st3 H12 H23 q Hq. by rewrite H23, H12.
Qed.

#[local] Instance nothing_lost_preorder : PreOrder nothing_lost.
Proof.
  split.
  - intros st q n Hn. by exists n.
  - intros st1 st2 st3 H12 H23 q n Hn.
    destruct (H12 q n Hn) as (n2 & Hn2 & Hk2).
    destruct (H23 q n2 Hn2) as (n3 & Hn3 & Hk3).
    exists n3. split; [done | congruence].
Qed.

(** X1.  Handles in the cache are never evicted or replaced: whatever a
    batch does, every entry of [uploaded_files] it started with is still
    there, with the same handle, when it ends. *)
Theorem process_batch_keeps_cache fuel self video_list st :
  uploaded_files st
  ⊆ uploaded_files (snd (process_batch fuel self video_list st)).
Proof.
  apply (keeps_process_batch cache_grows).
  - intros ev st1. unfold cache_grows. simpl. reflexivity.
  - intros st1 k obj Hk. unfold cache_grows. simpl. by apply insert_subseteq.
  - intros v content out _ _ st1. unfold cache_grows.
    assert (uploaded_files (snd (save_markdown self content out v st1))
            = uploaded_files st1) as ->; [| reflexivity].
    unfold save_markdown. destruct out as [| p]; [done |]. unfold bind at 1.
    destruct (mkdir_parents _ _); try done.
    unfold _generate_metadata_header, bind, strftime_now, ret. simpl.
    by destruct (write_text _ _ _).
Qed.

(** X2.  A batch writes nowhere but at the output paths of its jobs and in
    the directories above them: every other path of the file system, the
    video files among them, is left as it was.  This is said of paths that
    name a file in one way only: the output paths and the path looked at
    are relative paths made of names, without [..]. *)
Theorem process_batch_writes_outputs_only fuel self video_list st q :
  plain q = true ->
  (forall v p, v ∈ select_videos self video_list ->
     v !! "output" = Some (VStr p) -> plain (Path p) = true) ->
  (forall v, v ∈ select_videos self video_list -> ~ output_paths v q) ->
  fs_lookup (fs (snd (process_batch fuel self video_list st))) q
  = fs_lookup (fs st) q.
Proof.
  intros _ _ Hq.
  set (S := fun q' => exists v, v ∈ select_videos self video_list
                                /\ output_paths v q').
  assert (HS : ~ S q) by (intros (v & Hv & Ho); by apply (Hq v)).
  clear Hq. revert q HS.
  change (same_outside S st (snd (process_batch fuel self video_list st))).
  apply (keeps_process_batch (same_outside S)).
  - by intros ev st1 q Hq.
  - by intros st1 k obj Hk q Hq.
  - intros v content out Hv Hout st1 q Hq. apply save_markdown_frame.
    intros (p & -> & Hp). apply Hq. exists v. split; [done |]. by exists p.
Qed.

(** X3.  A batch never removes anything: a path that exists before the run
    exists after it, a directory is still a directory and a regular file
    still a regular file. *)
Theorem process_batch_removes_nothing fuel self video_list st q n :
  fs_lookup (fs st) q = Some n ->
  exists n',
    fs_lookup (fs (snd (process_batch fuel self video_list st))) q = Some n'
    /\ kind_of n' = kind_of n.
Proof.
  revert q n.
  change (nothing_lost st (snd (process_batch fuel self video_list st))).
  apply (keeps_process_batch nothing_lost).
  - intros ev st1 q n Hn. by exists n.
  - intros st1 k obj Hk q n Hn. by exists n.
  - intros v content out _ _ st1. apply save_markdown_nothing_lost.
Qed.

Lemma process_batch_writes_outputs_only_witness :
  fs_lookup (fs (snd (process_batch 5 Demo.self None Demo.st0)))
    ["videos"; "c.mp4"] = Some (Reg "bytes").
Proof.
  rewrite (process_batch_writes_outputs_only 5 Demo.self None Demo.st0
             ["videos"; "c.mp4"]); [reflexivity | reflexivity | |].
  { intros v p Hv Hp.
    change (select_videos Demo.self None)
      with [Demo.job_a; Demo.job_b; Demo.job_c] in Hv.
    repeat (apply elem_of_cons in Hv as [-> | Hv]);
      [| | | by apply elem_of_nil in Hv];
      vm_compute in Hp; injection Hp as <-; reflexivity. }
  intros v Hv (p & Hp & Hq).
  change (select_videos Demo.self None)
    with [Demo.job_a; Demo.job_b; Demo.job_c] in Hv.
  repeat (apply elem_of_cons in Hv as [-> | Hv]);
    [| | | by apply elem_of_nil in Hv];
    vm_compute in Hp; injection Hp as <-; vm_compute in Hq;
    (destruct Hq as [Hq | Hq]; [discriminate |]);
    repeat (apply elem_of_cons in Hq as [Hq | Hq]; [discriminate |]);
    by apply elem_of_nil in Hq.
Defined.

Lemma process_batch_removes_nothing_witness :
  exists n',
    fs_lookup (fs (snd (process_batch 5 Demo.self None Demo.st_old)))
      ["out"; "a.md"] = Some n'
    /\ kind_of n' = false.
Proof.
  apply (process_batch_removes_nothing 5 Demo.self None Demo.st_old
           ["out"; "a.md"] (Reg "old text")).
  reflexivity.
Defined.

(** ** Counting the events a method adds *)

Lemma count_events_app p t1 t2 :
  count_events p (t1 ++ t2) = count_events p t1 + count_events p t2.
Proof. unfold count_events. by rewrite List.filter_app, length_app. Qed.

Lemma count_events_none p d :
  Forall (fun ev => negb (p ev) = true) d -> count_events p d = 0.
Proof.
  unfold count_events. induction 1 as [| ev d H _ IH]; [done |]. simpl.
  apply negb_true_iff in H. by rewrite H.
Qed.

Lemma emits_adds {A} p (m : M A) :
  emits (fun ev => negb (p ev)) m -> adds p 0 m.
Proof.
  intros H st. destruct (H st) as (d & E & Hd). exists d. split; [done |].
  by rewrite count_events_none.
Qed.

Lemma adds_mono {A} p n n' (m : M A) : n <= n' -> adds p n m -> adds p n' m.
Proof.
  intros Hn H st. destruct (H st) as (d & E & Hd). exists d. split; [done | lia].
Qed.

Lemma adds_ret {A} p (a : A) : adds p 0 (ret a).
Proof. intros st. exists []. split; [by rewrite app_nil_r | done]. Qed.

Lemma adds_event {A} p ev (m : M A) :
  (forall st, snd (m st) = add_event ev st) -> adds p 1 m.
Proof.
  intros H st. exists [ev]. rewrite H. split; [done |].
  unfold count_events. simpl. destruct (p ev); simpl; lia.
Qed.

Lemma adds_call {A} p ev (f : list event -> outcome A) : adds p 1 (call ev f).
Proof. by apply (adds_event p ev). Qed.

Lemma adds_bind {A B} p n1 n2 (m : M A) (k : A -> M B) :
  adds p n1 m -> (forall a, adds p n2 (k a)) -> adds p (n1 + n2) (bind m k).
Proof.
  intros Hm Hk st. unfold bind. destruct (Hm st) as (d1 & E1 & H1).
  destruct (m st) as [[a | e |] st1]; simpl in E1 |- *;
    [| exists d1; split; [done | lia] ..].
  destruct (Hk a st1) as (d2 & E2 & H2). exists (d1 ++ d2). split.
  - by rewrite E2, E1, app_assoc.
  - rewrite count_events_app. lia.
Qed.

Lemma adds_try_except {A} p n1 n2 (body : M A) (handler : exn -> M A) :
  adds p n1 body -> (forall e, adds p n2 (handler e)) ->
  adds p (n1 + n2) (try_except body handler).
Proof.
  intros Hb Hh st. unfold try_except. destruct (Hb st) as (d1 & E1 & H1).
  destruct (body st) as [[a | e |] st1]; simpl in E1 |- *;
    [exists d1; split; [done | lia] | | exists d1; split; [done | lia]].
  destruct (Hh e st1) as (d2 & E2 & H2). exists (d1 ++ d2). split.
  - by rewrite E2, E1, app_assoc.
  - rewrite count_events_app. lia.
Qed.

(** [upload_video] sends the file at most once. *)
Lemma adds_upload_video_uploads fuel self p dn :
  adds is_upload 1 (upload_video fuel self p dn).
Proof.
  intros st. unfold upload_video.
  destruct (negb (path_exists (fs st) (Path p)));
    [exists []; split; [by rewrite app_nil_r | unfold count_events; simpl; lia] |].
  destruct (uploaded_files st !! p);
    [exists []; split; [by rewrite app_nil_r | unfold count_events; simpl; lia] |].
  refine (adds_bind is_upload 0 1 _ _ _ _ st).
  { apply emits_adds, emits_lift. }
  intros f. change 1 with (1 + 0).
  apply adds_bind; [apply adds_call |]. intros up.
  change 0 with (0 + 0). apply adds_bind.
  { by apply emits_adds, emits_wait_while_processing. }
  intros obj. apply emits_adds.
  destruct (file_state obj); try apply emits_raise;
    intros st1; by apply extends_same.
Qed.

(** [extract_content] asks the service at most once. *)
Lemma adds_extract_content_requests self obj vc :
  adds is_generate 1 (extract_content self obj vc).
Proof.
  unfold extract_content. change 1 with (0 + (1 + 0)).
  apply adds_bind; [apply emits_adds, emits_lift |]. intros prompt.
  apply adds_bind; [apply adds_call |]. intros [t |].
  - destruct (String.eqb t ""); apply emits_adds;
      [apply emits_raise | apply emits_ret].
  - apply emits_adds, emits_raise.
Qed.

Lemma adds_process_video fuel self vc :
  adds is_upload 1 (process_video fuel self vc)
  /\ adds is_generate 1 (process_video fuel self vc).
Proof.
  unfold process_video.
  destruct (vc !! "output") as [out |];
    [| split; apply (adds_mono _ 0); [lia | | lia |];
       apply emits_adds, emits_raise].
  destruct (negb _ && negb _);
    [split; apply (adds_mono _ 0); [lia | | lia |];
     apply emits_adds, emits_raise |].
  split.
  - change 1 with (0 + ((1 + (0 + (0 + (0 + 0)))) + (0 + 0))).
    apply adds_bind; [by apply emits_adds, emits_emit |]. intros _.
    apply adds_try_except.
    + unfold process_video_body. apply adds_bind.
      { destruct (truthy _).
        - apply (adds_mono _ 0); [lia |].
          apply emits_adds, emits_create_youtube_video_object.
        - apply adds_upload_video_uploads. }
      intros obj. apply adds_bind.
      { by apply emits_adds, emits_extract_content. }
      intros content. apply adds_bind.
      { apply emits_adds, emits_save_markdown. }
      intros _. apply adds_bind; [by apply emits_adds, emits_emit |].
      intros _. apply adds_ret.
    + intros e. apply adds_bind; [by apply emits_adds, emits_emit |].
      intros _. apply adds_ret.
  - change 1 with (0 + ((0 + (1 + (0 + (0 + 0)))) + (0 + 0))).
    apply adds_bind; [by apply emits_adds, emits_emit |]. intros _.
    apply adds_try_except.
    + unfold process_video_body. apply adds_bind.
      { destruct (truthy _).
        - apply emits_adds, emits_create_youtube_video_object.
        - by apply emits_adds, emits_upload_video. }
      intros obj. apply adds_bind; [apply adds_extract_content_requests |].
      intros content. apply adds_bind.
      { apply emits_adds, emits_save_markdown. }
      intros _. apply adds_bind; [by apply emits_adds, emits_emit |].
      intros _. apply adds_ret.
    + intros e. apply adds_bind; [by apply emits_adds, emits_emit |].
      intros _. apply adds_ret.
Qed.

Lemma adds_batch_loop p fuel self n i videos r :
  p (Sleep RateLimit (rate_limit_delay self)) = false ->
  (forall v, adds p 1 (process_video fuel self v)) ->
  adds p (length videos) (batch_loop fuel self n i videos r).
Proof.
  intros Hs Hv. revert i r.
  induction videos as [| v videos IH]; intros i r; simpl; [apply adds_ret |].
  change (S (length videos)) with (1 + (0 + length videos)).
  apply adds_bind; [apply Hv |]. intros ok.
  apply adds_bind; [| intros _; apply IH].
  apply emits_adds. destruct (i <? n)%nat; [| apply emits_ret].
  apply emits_time_sleep. fold (rate_limit_delay self). by rewrite Hs.
Qed.

(** X4.  Nothing is retried: along a batch there are at most as many
    uploads, and at most as many generation requests, as there are jobs. *)
Theorem process_batch_no_retry fuel self video_list st :
  exists d,
    trace (snd (process_batch fuel self video_list st)) = trace st ++ d
    /\ count_events is_upload d <= length (select_videos self video_list)
    /\ count_events is_generate d <= length (select_videos self video_list).
Proof.
  assert (H : forall p,
    p (Sleep RateLimit (rate_limit_delay self)) = false ->
    (forall v, adds p 1 (process_video fuel self v)) ->
    adds p (length (select_videos self video_list))
      (process_batch fuel self video_list)).
  { intros p Hs Hv. unfold process_batch.
    destruct (select_videos self video_list) as [| v vs] eqn:E;
      [apply adds_ret |].
    by apply adds_batch_loop. }
  destruct (H is_upload eq_refl (fun v => proj1 (adds_process_video fuel self v)) st)
    as (d1 & E1 & H1).
  destruct (H is_generate eq_refl
              (fun v => proj2 (adds_process_video fuel self v)) st)
    as (d2 & E2 & H2).
  assert (d1 = d2) as <- by (rewrite E1 in E2; by apply app_inv_head in E2).
  eauto.
Qed.

(** ** The summary and the log *)

Lemma failed_sources_app t1 t2 :
  failed_sources (t1 ++ t2) = failed_sources t1 ++ failed_sources t2.
Proof.
  induction t1 as [| ev t1 IH]; [done |].
  destruct ev as [| | | |[]]; simpl; by rewrite IH.
Qed.

Lemma succeeded_titles_app t1 t2 :
  succeeded_titles (t1 ++ t2) = succeeded_titles t1 ++ succeeded_titles t2.
Proof.
  induction t1 as [| ev t1 IH]; [done |].
  destruct ev as [| | | |[]]; simpl; by rewrite IH.
Qed.

Lemma no_verdict_lines d :
  Forall (fun ev => negb (is_verdict ev) = true) d ->
  failed_sources d = [] /\ succeeded_titles d = [].
Proof.
  induction 1 as [| ev d H _ [IH1 IH2]]; [done |].
  by destruct ev as [| | | |[]].
Qed.

Lemma emits_prepare_any P fuel self vc :
  P (Sleep PollWait 2) = true -> (forall n, P (FilesGet n) = true) ->
  (forall c d m, P (FilesUpload c d m) = true) ->
  emits P (prepare fuel self vc).
Proof.
  intros. unfold prepare. destruct (truthy _).
  - apply emits_create_youtube_video_object.
  - by apply emits_upload_video.
Qed.

(** The stages of a job before its success line print no verdict. *)
Lemma emits_stages_no_verdict fuel self vc out :
  emits (fun ev => negb (is_verdict ev))
    (video_file_obj <~ prepare fuel self vc;;
     content <~ extract_content self video_file_obj vc;;
     save_markdown self content out vc).
Proof.
  apply emits_bind; [by apply emits_prepare_any |]. intros obj.
  apply emits_bind; [by apply emits_extract_content |]. intros content.
  apply emits_save_markdown.
Qed.

(** What one job adds to the log: after its start line, events that are no
    verdict, and then one verdict, which agrees with what it returns. *)
Lemma process_video_verdict fuel self vc st b st' :
  process_video fuel self vc st = (Ok b, st') ->
  exists d,
    trace st' = trace st ++ d
    /\ failed_sources d = (if b then [] else [source_of vc])
    /\ succeeded_titles d = (if b then [title_of vc] else []).
Proof.
  destruct (valid_job vc) eqn:Hv.
  2:{ destruct (process_video_invalid fuel self vc st Hv) as (e & ->). done. }
  destruct (valid_job_output _ Hv) as (out & Hout & _).
  rewrite (process_video_valid _ _ _ out) by done.
  rewrite process_video_body_stages.
  set (st1 := add_event _ st).
  pose proof (emits_stages_no_verdict fuel self vc out st1) as (d0 & E0 & H0).
  apply no_verdict_lines in H0 as [Hf Hs].
  unfold try_except. rewrite <- !bind_assoc.
  unfold bind at 1. unfold bind at 1.
  rewrite !bind_assoc in *.
  destruct ((video_file_obj <~ prepare fuel self vc;;
             content <~ extract_content self video_file_obj vc;;
             save_markdown self content out vc) st1) as [[[] | e |] st2] eqn:E;
    simpl in E0 |- *; intros [= <- <-]; simpl; rewrite E0; simpl.
  - exists (Printed (Processing (title_of vc)) :: d0
            ++ [Printed (Succeeded (title_of vc))]).
    rewrite <- !app_assoc. split; [done |]. simpl.
    by rewrite failed_sources_app, succeeded_titles_app, Hf, Hs.
  - exists (Printed (Processing (title_of vc)) :: d0
            ++ [Printed (FailedToProcess (source_of vc) e)]).
    rewrite <- !app_assoc. split; [done |]. simpl.
    by rewrite failed_sources_app, succeeded_titles_app, Hf, Hs.
Qed.

Lemma pause_no_verdict (c : bool) dly st st' :
  (if c then time_sleep RateLimit dly else ret tt) st = (Ok tt, st') ->
  exists d, trace st' = trace st ++ d
            /\ failed_sources d = [] /\ succeeded_titles d = [].
Proof.
  intros H. apply pause_inv in H as [[_ ->] | (e & ?)]; [| done].
  destruct c; [by exists [Sleep RateLimit dly] |].
  exists []. by rewrite app_nil_r.
Qed.

Lemma batch_loop_verdicts fuel self n i videos r st r' st' l0 :
  errors r = Some l0 ->
  batch_loop fuel self n i videos r st = (Ok r', st') ->
  exists d l,
    trace st' = trace st ++ d
    /\ errors r' = Some (l0 ++ l)
    /\ failed_sources d = List.map source l
    /\ success r' = success r + length (succeeded_titles d).
Proof.
  revert i r st l0. induction videos as [| v videos IH]; intros i r st l0 He.
  - intros [= <- <-]. exists [], []. rewrite !app_nil_r. simpl.
    repeat split; [done | lia].
  - rewrite batch_loop_cons.
    destruct (process_video fuel self v st) as [[b | e |] st1] eqn:Ev; try done.
    apply process_video_verdict in Ev as (d1 & E1 & Hf1 & Hs1).
    destruct ((if (i <? n)%nat then _ else ret tt) st1) as [[[] | e |] st2] eqn:Ep;
      try done.
    apply pause_no_verdict in Ep as (d2 & E2 & Hf2 & Hs2).
    intros H. destruct b.
    + eapply IH in H as (d & l & E & Hl & Hf & Hs); [| simpl; exact He].
      exists (d1 ++ d2 ++ d), l. rewrite E, E2, E1, <- !app_assoc.
      rewrite !failed_sources_app, !succeeded_titles_app, Hf1, Hf2, Hs1, Hs2.
      simpl in *. repeat split; [done | done | lia].
    + eapply IH in H as (d & l & E & Hl & Hf & Hs);
        [| unfold record_result; simpl; rewrite He; reflexivity].
      exists (d1 ++ d2 ++ d), (error_of v :: l).
      rewrite E, E2, E1, <- !app_assoc.
      rewrite !failed_sources_app, !succeeded_titles_app, Hf1, Hf2, Hs1, Hs2.
      simpl in *. rewrite Hl, Hf, <- app_assoc. repeat split; done.
Qed.

(** X5.  The summary a batch returns agrees with what it printed: the
    sources in its failure list are those of the failure lines, in the
    order of the lines, and its success counter is the number of success
    lines. *)
Theorem process_batch_summary_matches_log fuel self video_list st r st' :
  process_batch fuel self video_list st = (Ok r, st') ->
  exists d,
    trace st' = trace st ++ d
    /\ List.map source (default [] (errors r)) = failed_sources d
    /\ success r = length (succeeded_titles d).
Proof.
  unfold process_batch.
  destruct (select_videos self video_list) as [| v vs] eqn:E.
  - intros [= <- <-]. exists []. by rewrite app_nil_r.
  - intros H.
    eapply batch_loop_verdicts in H as (d & l & Ed & Hl & Hf & Hs);
      [| reflexivity].
    exists d. rewrite Hl. simpl in *. by rewrite Hf.
Qed.

Lemma process_batch_summary_matches_log_witness :
  exists r st' d,
    process_batch 5 Demo.self None Demo.st0 = (Ok r, st')
    /\ trace st' = trace Demo.st0 ++ d
    /\ List.map source (default [] (errors r)) = failed_sources d
    /\ success r = length (succeeded_titles d).
Proof.
  destruct (process_batch 5 Demo.self None Demo.st0) as [o st'] eqn:E.
  assert (Ho : exists r, o = Ok r).
  { apply (f_equal fst) in E. simpl in E. subst o. vm_compute. eauto. }
  destruct Ho as [r ->].
  destruct (process_batch_summary_matches_log 5 Demo.self None Demo.st0 r st' E)
    as (d & H).
  by exists r, st', d.
Defined.

(** ** What a successful job has done *)

Lemma extract_content_inv self obj vc st content st' :
  extract_content self obj vc st = (Ok content, st') ->
  exists prompt,
    _build_extraction_prompt self vc = Ok prompt
    /\ generate_content (self_client self) (trace st) (self_model_name self)
         (uri obj) (mime_type obj) prompt = Ok (Some content)
    /\ content <> ""
    /\ st' = add_event (GenerateContent (self_model_name self) (uri obj)
                          (mime_type obj) prompt) st.
Proof.
  unfold extract_content, bind, lift, call.
  destruct (_build_extraction_prompt self vc) as [prompt | e |]; try done.
  destruct (generate_content _ _ _ _ _ _) as [[t |] | e |] eqn:Eg; try done.
  destruct (String.eqb_spec t "") as [-> | Hne]; [done |].
  intros [= <- <-]. by exists prompt.
Qed.

Lemma prepare_inv fuel self vc st obj st' :
  prepare fuel self vc st = (Ok obj, st') ->
  uploaded_files st' !! str (source_of vc) = Some obj
  /\ fs st' = fs st
  /\ exists d, trace st' = trace st ++ d.
Proof.
  unfold prepare, source_of, py_or.
  destruct (truthy (get vc "youtube_url")).
  - intros H.
    destruct (create_youtube_video_object_ok self
                (str (get vc "youtube_url")) (get vc "title") st)
      as (obj' & st1 & E & Hc & Ht & Hf).
    rewrite E in H. injection H as <- <-.
    repeat split; [done | done |]. exists []. by rewrite app_nil_r.
  - intros H.
    pose proof (emits_upload_video (fun _ => true) fuel self
                  (str (get vc "path")) (get vc "title")
                  eq_refl (fun _ => eq_refl) (fun _ _ _ => eq_refl) st)
      as (d & Hd & _).
    rewrite H in Hd. apply upload_video_ok in H as (Hc & Hf & _). eauto.
Qed.

Lemma save_markdown_cache self content out vm st :
  uploaded_files (snd (save_markdown self content out vm st))
  = uploaded_files st.
Proof.
  unfold save_markdown. destruct out as [| p]; [done |]. unfold bind at 1.
  destruct (mkdir_parents _ _); try done.
  unfold _generate_metadata_header, bind, strftime_now, ret. simpl.
  by destruct (write_text _ _ _).
Qed.

(** X6.  What the value [True] of [process_video] stands for.  The job has
    an output path; the handle of its source is in the cache; the prompt
    could be built from the template; the request sent with this handle and
    this prompt is the last event before the success line, and the service
    answered it with a text that is not empty; and the file at the output
    path holds the header of the job, an empty line and that text. *)
Theorem process_video_success_document fuel self vc st st' :
  process_video fuel self vc st = (Ok true, st') ->
  exists p obj prompt content d,
    let request :=
      GenerateContent (self_model_name self) (uri obj) (mime_type obj) prompt in
    let asked := trace st ++ Printed (Processing (title_of vc)) :: d in
    vc !! "output" = Some (VStr p)
    /\ uploaded_files st' !! str (source_of vc) = Some obj
    /\ _build_extraction_prompt self vc = Ok prompt
    /\ trace st' = asked ++ [request; Printed (Succeeded (title_of vc))]
    /\ generate_content (self_client self) asked (self_model_name self)
         (uri obj) (mime_type obj) prompt = Ok (Some content)
    /\ content <> ""
    /\ fs_lookup (fs st') (Path p)
       = Some (Reg (header_text vc
                      (today (self_client self) (asked ++ [request]))
                    +:+ nl +:+ nl +:+ content)).
Proof.
  destruct (valid_job vc) eqn:Hv.
  2:{ destruct (process_video_invalid fuel self vc st Hv) as (e & ->). done. }
  destruct (valid_job_output _ Hv) as (out & Hout & _).
  rewrite (process_video_valid _ _ _ out) by done.
  rewrite process_video_body_stages.
  set (st1 := add_event _ st).
  unfold try_except, bind.
  destruct (prepare fuel self vc st1) as [[obj | e |] st2] eqn:Ep; try done.
  destruct (extract_content self obj vc st2) as [[content | e |] st3] eqn:Ee;
    try done.
  destruct (save_markdown self content out vc st3) as [[[] | e |] st4] eqn:Es;
    try done.
  simpl. intros [= <-].
  apply prepare_inv in Ep as (Hc & _ & d & Hd).
  apply extract_content_inv in Ee as (prompt & Hp & Hg & Hne & ->).
  pose proof (save_markdown_cache self content out vc
                (add_event (GenerateContent (self_model_name self) (uri obj)
                              (mime_type obj) prompt) st2)) as Hcache.
  rewrite Es in Hcache. simpl in Hcache.
  apply save_markdown_inv in Es as (p & -> & Hdoc & Ht).
  assert (Ht2 : trace st2
                = trace st ++ Printed (Processing (title_of vc)) :: d).
  { rewrite Hd. unfold st1. simpl. by rewrite <- app_assoc. }
  exists p, obj, prompt, content, d. simpl.
  rewrite Hcache, Ht. simpl. rewrite <- Ht2.
  repeat split; try done.
  by rewrite <- app_assoc.
Qed.

Lemma process_video_success_document_witness :
  exists st' p obj prompt content d,
    let request :=
      GenerateContent (self_model_name Demo.self) (uri obj) (mime_type obj)
        prompt in
    let asked :=
      trace Demo.st0 ++ Printed (Processing (title_of Demo.job_vimeo)) :: d in
    process_video 5 Demo.self Demo.job_vimeo Demo.st0 = (Ok true, st')
    /\ Demo.job_vimeo !! "output" = Some (VStr p)
    /\ uploaded_files st' !! str (source_of Demo.job_vimeo) = Some obj
    /\ _build_extraction_prompt Demo.self Demo.job_vimeo = Ok prompt
    /\ trace st'
       = asked ++ [request; Printed (Succeeded (title_of Demo.job_vimeo))]
    /\ generate_content (self_client Demo.self) asked
         (self_model_name Demo.self) (uri obj) (mime_type obj) prompt
       = Ok (Some content)
    /\ content <> ""
    /\ fs_lookup (fs st') (Path p)
       = Some (Reg (header_text Demo.job_vimeo
                      (today (self_client Demo.self) (asked ++ [request]))
                    +:+ nl +:+ nl +:+ content)).
Proof.
  destruct (process_video 5 Demo.self Demo.job_vimeo Demo.st0) as [o st'] eqn:E.
  assert (Ho : o = Ok true).
  { apply (f_equal fst) in E. simpl in E. subst o. by vm_compute. }
  subst o.
  destruct (process_video_success_document 5 Demo.self Demo.job_vimeo
              Demo.st0 st' E)
    as (p & obj & prompt & content & d & H).
  exists st', p, obj, prompt, content, d. split; [reflexivity | exact H].
Defined.

(** ** [str.format], clause by clause *)

Lemma format_go_plain c t kw :
  c <> "{"%char -> c <> "}"%char ->
  format_go (String c t) None kw = prepend (String c "") (format_go t None kw).
Proof.
  intros H1 H2.
  destruct c as [[] [] [] [] [] [] [] []]; try reflexivity; congruence.
Qed.

Lemma format_go_open c t kw :
  c <> "{"%char ->
  format_go (String "{" (String c t)) None kw
  = format_go (String c t) (Some "") kw.
Proof.
  intros H. destruct c as [[] [] [] [] [] [] [] []]; try reflexivity; congruence.
Qed.

Lemma format_go_close t kw :
  (forall t', t <> String "}" t') ->
  format_go (String "}" t) None kw
  = Raise (ValueError "Single '}' encountered in format string").
Proof.
  intros H. destruct t as [| c t]; [reflexivity |].
  destruct c as [[] [] [] [] [] [] [] []]; try reflexivity.
  by destruct (H t).
Qed.

Lemma format_go_field c t f kw :
  c <> "}"%char ->
  format_go (String c t) (Some f) kw
  = format_go t (Some (f +:+ String c "")) kw.
Proof.
  intros H. destruct c as [[] [] [] [] [] [] [] []]; try reflexivity; congruence.
Qed.

Lemma prepend_prepend a b o : prepend a (prepend b o) = prepend (a +:+ b) o.
Proof. destruct o; simpl; try done. by rewrite string_app_assoc. Qed.

Lemma format_go_literal s t kw :
  format_go (escape_braces s +:+ t) None kw = prepend s (format_go t None kw).
Proof.
  induction s as [| c s IH].
  { change (escape_braces "" +:+ t) with t. by destruct (format_go t None kw). }
  cbn [escape_braces].
  destruct (Ascii.eqb_spec c "{") as [-> | H1].
  { change (format_go (String "{" (String "{" (escape_braces s)) +:+ t) None kw)
      with (prepend "{" (format_go (escape_braces s +:+ t) None kw)).
    by rewrite IH, prepend_prepend. }
  destruct (Ascii.eqb_spec c "}") as [-> | H2].
  { change (format_go (String "}" (String "}" (escape_braces s)) +:+ t) None kw)
      with (prepend "}" (format_go (escape_braces s +:+ t) None kw)).
    by rewrite IH, prepend_prepend. }
  change (String c (escape_braces s) +:+ t)
    with (String c (escape_braces s +:+ t)).
  rewrite format_go_plain by done. by rewrite IH, prepend_prepend.
Qed.

Lemma build_extraction_prompt_format self vc :
  _build_extraction_prompt self vc
  = format (default "" (cfg_prompt_template (self_config self)))
      (prompt_fields self vc).
Proof. reflexivity. Qed.

Lemma format_go_known_field self vc k t :
  k ∈ ["title"; "section"; "course_context"; "output_format"] ->
  format_go (("{" +:+ k +:+ "}") +:+ t) None (prompt_fields self vc)
  = prepend (default "" (assoc k (prompt_fields self vc)))
      (format_go t None (prompt_fields self vc)).
Proof.
  intros Hk.
  repeat (apply elem_of_cons in Hk as [-> | Hk]; [reflexivity |]).
  by apply elem_of_nil in Hk.
Qed.

(** X7.  How the prompt is made.  For a template made of literal texts, with
    their braces doubled, and of the fields [title], [section],
    [course_context] and [output_format], the prompt is the template with
    every literal text as it is and every field replaced by its value: the
    title and the section of the job, [Unknown] for the one the job does not
    have, and the two texts of the configuration, empty when absent. *)
Theorem build_extraction_prompt_fills_template self vc ps :
  Forall known_field ps ->
  cfg_prompt_template (self_config self) = Some (template_of ps) ->
  _build_extraction_prompt self vc = Ok (fill (prompt_fields self vc) ps).
Proof.
  intros Hps Ht. rewrite build_extraction_prompt_format, Ht. simpl.
  unfold format. clear Ht.
  induction Hps as [| p ps Hp _ IH]; [reflexivity |].
  destruct p as [s | k].
  - change (template_of (Text s :: ps))
      with (escape_braces s +:+ template_of ps).
    by rewrite format_go_literal, IH.
  - change (template_of (Field k :: ps))
      with (("{" +:+ k +:+ "}") +:+ template_of ps).
    rewrite format_go_known_field by exact Hp. by rewrite IH.
Qed.

Lemma build_extraction_prompt_fills_template_witness :
  _build_extraction_prompt Demo.self Demo.job_vimeo
  = Ok (fill (prompt_fields Demo.self Demo.job_vimeo)
          [Text "Extract "; Field "title"; Text " / "; Field "section"]).
Proof.
  apply (build_extraction_prompt_fills_template Demo.self Demo.job_vimeo
           [Text "Extract "; Field "title"; Text " / "; Field "section"]).
  - repeat constructor; simpl; by apply (bool_decide_unpack _).
  - reflexivity.
Defined.

(** ** A template that cannot be filled *)

Lemma same_error_prepend a b (o o' : outcome string) :
  same_error o o' -> same_error (prepend a o) (prepend b o').
Proof. by destruct o, o'. Qed.

Lemma same_error_refl_raise {A} e : same_error (@Raise A e) (Raise e).
Proof. done. Qed.

Lemma assoc_same_keys k (kw kw' : list (string * string)) :
  List.map fst kw = List.map fst kw' ->
  assoc k kw = None <-> assoc k kw' = None.
Proof.
  revert kw'. induction kw as [| [k1 v1] kw IH]; intros [| [k2 v2] kw'];
    try done.
  simpl. intros [= <- H]. destruct (String.eqb k k1); [done | by apply IH].
Qed.

Lemma format_field_same_error f kw kw' :
  List.map fst kw = List.map fst kw' ->
  same_error (format_field f kw) (format_field f kw').
Proof.
  intros H. unfold format_field. destruct (all_digits f); [done |].
  pose proof (assoc_same_keys f kw kw' H) as Hk.
  destruct (assoc f kw) as [v |], (assoc f kw') as [v' |]; try done.
  - discriminate (proj2 Hk eq_refl).
  - discriminate (proj1 Hk eq_refl).
Qed.

(** Whether [format] raises, and what, depends on the template and on the
    names of the keyword arguments, not on their values.  ([format] reads
    every replacement field as a plain name.) *)
Lemma format_go_same_error kw kw' :
  List.map fst kw = List.map fst kw' ->
  forall n t field,
    String.length t <= n ->
    same_error (format_go t field kw) (format_go t field kw').
Proof.
  intros Hk. induction n as [| n IH]; intros t field Hn.
  { destruct t; [| simpl in Hn; lia]. by destruct field. }
  destruct t as [| c t]; [by destruct field |].
  simpl in Hn. destruct field as [f |].
  - destruct (Ascii.eqb_spec c "}") as [-> | Hc].
    + change (same_error
                match format_field f kw with
                | Ok v => prepend v (format_go t None kw)
                | other => other
                end
                match format_field f kw' with
                | Ok v => prepend v (format_go t None kw')
                | other => other
                end).
      pose proof (format_field_same_error f kw kw' Hk) as Hf.
      destruct (format_field f kw), (format_field f kw'); try done.
      apply same_error_prepend, IH. lia.
    + rewrite !format_go_field by done. apply IH. lia.
  - destruct (Ascii.eqb_spec c "{") as [-> | H1].
    { destruct t as [| c2 t]; [done |].
      destruct (Ascii.eqb_spec c2 "{") as [-> | H2].
      - change (same_error (prepend "{" (format_go t None kw))
                  (prepend "{" (format_go t None kw'))).
        apply same_error_prepend, IH. simpl in Hn. lia.
      - rewrite !format_go_open by done. apply IH. lia. }
    destruct (Ascii.eqb_spec c "}") as [-> | H2].
    { destruct t as [| c2 t]; [done |].
      destruct (Ascii.eqb_spec c2 "}") as [-> | H3].
      - change (same_error (prepend "}" (format_go t None kw))
                  (prepend "}" (format_go t None kw'))).
        apply same_error_prepend, IH. simpl in Hn. lia.
      - rewrite !format_go_close; [done | |]; intros t' [= ?]; done. }
    rewrite !format_go_plain by done. apply same_error_prepend, IH. lia.
Qed.

Lemma build_extraction_prompt_same_error self vc vc' :
  same_error (_build_extraction_prompt self vc)
    (_build_extraction_prompt self vc').
Proof.
  rewrite !build_extraction_prompt_format. unfold format.
  by eapply format_go_same_error.
Qed.

Lemma build_extraction_prompt_raise_any self vc vc' e :
  _build_extraction_prompt self vc = Raise e ->
  _build_extraction_prompt self vc' = Raise e.
Proof.
  intros H. pose proof (build_extraction_prompt_same_error self vc vc') as Hs.
  rewrite H in Hs. destruct (_build_extraction_prompt self vc'); try done.
  simpl in Hs. by subst.
Qed.

Lemma extract_content_unfillable self obj vc e st :
  _build_extraction_prompt self vc = Raise e ->
  extract_content self obj vc st = (Raise e, st).
Proof. intros H. unfold extract_content, bind, lift. by rewrite H. Qed.

Lemma process_video_unfillable fuel self vc e st b st' :
  _build_extraction_prompt self vc = Raise e ->
  process_video fuel self vc st = (Ok b, st') ->
  b = false
  /\ exists d, trace st' = trace st ++ d /\ count_events is_generate d = 0.
Proof.
  intros He.
  destruct (valid_job vc) eqn:Hv.
  2:{ destruct (process_video_invalid fuel self vc st Hv) as (e' & ->). done. }
  destruct (valid_job_output _ Hv) as (out & Hout & _).
  rewrite (process_video_valid _ _ _ out) by done.
  rewrite process_video_body_stages.
  set (st1 := add_event _ st).
  pose proof (emits_prepare_any (fun ev => negb (is_generate ev)) fuel self vc
                eq_refl (fun _ => eq_refl) (fun _ _ _ => eq_refl) st1)
    as (d & Hd & Hnone).
  apply count_events_none in Hnone.
  unfold try_except, bind.
  destruct (prepare fuel self vc st1) as [[obj | e' |] st2]; simpl in Hd.
  - rewrite (extract_content_unfillable _ _ _ e) by done. simpl.
    intros [= <- <-]. split; [done |].
    exists (Printed (Processing (title_of vc)) :: d
            ++ [Printed (FailedToProcess (source_of vc) e)]).
    simpl. rewrite Hd. unfold st1. simpl. rewrite <- !app_assoc.
    split; [done |].
    unfold count_events in *. simpl. rewrite List.filter_app, length_app.
    simpl. lia.
  - simpl. intros [= <- <-]. split; [done |].
    exists (Printed (Processing (title_of vc)) :: d
            ++ [Printed (FailedToProcess (source_of vc) e')]).
    simpl. rewrite Hd. unfold st1. simpl. rewrite <- !app_assoc.
    split; [done |].
    unfold count_events in *. simpl. rewrite List.filter_app, length_app.
    simpl. lia.
  - done.
Qed.

Lemma batch_loop_unfillable fuel self n i videos r st r' st' vc e :
  _build_extraction_prompt self vc = Raise e ->
  batch_loop fuel self n i videos r st = (Ok r', st') ->
  success r' = success r
  /\ failed r' = failed r + length videos
  /\ exists d, trace st' = trace st ++ d /\ count_events is_generate d = 0.
Proof.
  intros He. revert i r st.
  induction videos as [| v videos IH]; intros i r st.
  - intros [= <- <-]. simpl. repeat split; [lia |].
    exists []. by rewrite app_nil_r.
  - rewrite batch_loop_cons.
    destruct (process_video fuel self v st) as [[b | e' |] st1] eqn:Ev;
      try done.
    apply (process_video_unfillable _ _ _ e) in Ev as (-> & d1 & E1 & H1);
      [| by apply (build_extraction_prompt_raise_any self vc)].
    destruct ((if (i <? n)%nat then _ else ret tt) st1) as [o st2] eqn:Ep.
    apply pause_inv in Ep as [(-> & ->) | (e2 & ->)]; [| done].
    intros H. apply IH in H as (Hs & Hf & d & E & Hd).
    simpl in Hs, Hf. repeat split; [done | simpl; lia |].
    destruct (i <? n)%nat.
    + exists (d1 ++ Sleep RateLimit (rate_limit_delay self) :: d).
      rewrite E. simpl. rewrite E1, <- !app_assoc. split; [done |].
      rewrite count_events_app.
      change (Sleep RateLimit (rate_limit_delay self) :: d)
        with ([Sleep RateLimit (rate_limit_delay self)] ++ d).
      rewrite count_events_app. rewrite H1, Hd. reflexivity.
    + exists (d1 ++ d). rewrite E, E1, <- app_assoc. split; [done |].
      rewrite count_events_app. lia.
Qed.

(** X8.  A template that cannot be filled spoils the whole batch, and only
    job by job.  When the replacement fields of the template are plain
    names, whether [format] raises does not depend on the job; so if the
    prompt of one job, of the batch or not, cannot be built, then in a
    batch that completes every job is counted as failed and no generation
    request is sent at all, while each source is still prepared first.
    (A field with an index or an attribute, as in [{title[0]}], looks into
    the value, and may fail for one job and not for another.) *)
Theorem unfillable_template_fails_every_job
    fuel self video_list st vc e r st' :
  plain_fields (default "" (cfg_prompt_template (self_config self))) = true ->
  _build_extraction_prompt self vc = Raise e ->
  process_batch fuel self video_list st = (Ok r, st') ->
  success r = 0
  /\ failed r = length (select_videos self video_list)
  /\ exists d, trace st' = trace st ++ d /\ count_events is_generate d = 0.
Proof.
  intros _ He. unfold process_batch.
  destruct (select_videos self video_list) as [| v vs] eqn:E.
  - intros [= <- <-]. repeat split. exists []. by rewrite app_nil_r.
  - intros H. by apply (batch_loop_unfillable _ _ _ _ _ _ _ _ _ vc e) in H.
Qed.

Lemma unfillable_template_fails_every_job_witness :
  exists r st',
    process_batch 5 unfillable None Demo.st0 = (Ok r, st')
    /\ success r = 0
    /\ failed r = 2
    /\ exists d, trace st' = trace Demo.st0 ++ d
                 /\ count_events is_generate d = 0.
Proof.
  destruct (process_batch 5 unfillable None Demo.st0) as [o st'] eqn:E.
  assert (Ho : exists r, o = Ok r).
  { apply (f_equal fst) in E. simpl in E. subst o. vm_compute. eauto. }
  destruct Ho as [r ->]. exists r, st'. split; [reflexivity |].
  apply (unfillable_template_fails_every_job 5 unfillable None Demo.st0
           ∅ (KeyError "speaker") r st'); [reflexivity | reflexivity | exact E].
Defined.

(** ** The URLs [_is_youtube_url] accepts *)

Lemma youtube_patterns_hosts :
  youtube_patterns = List.map youtube_pattern youtube_hosts.
Proof. reflexivity. Qed.

Lemma matches_Str s : Re.matches (Re.Str s) s.
Proof.
  induction s as [| c s IH]; [constructor |]. simpl.
  change (String c s) with (String c "" +:+ s). by repeat constructor.
Qed.

Lemma matches_Str_inv s w : Re.matches (Re.Str s) w -> w = s.
Proof.
  revert w. induction s as [| c s IH]; intros w; simpl.
  - by inversion 1.
  - inversion 1 as [| | | ? ? s1 s2 H1 H2 | | | |]; subst.
    inversion H1; subst. simpl. f_equal. by apply IH.
Qed.

Lemma matches_Cat_inv r1 r2 w :
  Re.matches (Re.Cat r1 r2) w ->
  exists w1 w2, w = w1 +:+ w2 /\ Re.matches r1 w1 /\ Re.matches r2 w2.
Proof. inversion 1; subst; eauto. Qed.

Lemma matches_Opt_inv r w :
  Re.matches (Re.Opt r) w -> Re.matches r w \/ w = "".
Proof.
  inversion 1 as [| | | | ? ? ? H1 | ? ? ? H1 | |]; subst; [by left |].
  right. by inversion H1.
Qed.

Lemma matches_Plus_Class_inv p w :
  Re.matches (Re.Plus (Re.Class p)) w ->
  exists c w', w = String c w' /\ p c = true.
Proof.
  intros (w1 & w2 & -> & H1 & _)%matches_Cat_inv.
  inversion H1; subst. simpl. eauto.
Qed.

Lemma matches_Plus_Class p c : p c = true ->
  Re.matches (Re.Plus (Re.Class p)) (String c "").
Proof.
  intros H. change (String c "") with (String c "" +:+ "").
  constructor; [by constructor | constructor].
Qed.

Lemma youtube_pattern_inv host w :
  Re.matches (youtube_pattern host) w ->
  exists scheme www c w',
    scheme ∈ [""; "http://"; "https://"] /\ www ∈ [""; "www."]
    /\ Re.word_or_dash c = true
    /\ w = scheme +:+ www +:+ host +:+ String c w'.
Proof.
  unfold youtube_pattern.
  intros (s1 & w1 & -> & Hs & H)%matches_Cat_inv.
  apply matches_Cat_inv in H as (s2 & w2 & -> & Hw & H).
  apply matches_Cat_inv in H as (s3 & w3 & -> & Hh & H).
  apply matches_Str_inv in Hh as ->.
  apply matches_Plus_Class_inv in H as (c & w' & -> & Hc).
  exists s1, s2, c, w'. repeat split; [| | done].
  - apply matches_Opt_inv in Hs as [Hs | ->]; [| set_solver].
    apply matches_Cat_inv in Hs as (a & b & -> & Ha & Hb).
    apply matches_Str_inv in Ha as ->.
    apply matches_Cat_inv in Hb as (b1 & b2 & -> & Hb1 & Hb2).
    apply matches_Str_inv in Hb2 as ->.
    apply matches_Opt_inv in Hb1 as [Hb1 | ->].
    + inversion Hb1; subst. set_solver.
    + set_solver.
  - apply matches_Opt_inv in Hw as [Hw | ->]; [| set_solver].
    apply matches_Str_inv in Hw as ->. set_solver.
Qed.

Lemma youtube_pattern_intro host scheme www c :
  scheme ∈ [""; "http://"; "https://"] -> www ∈ [""; "www."] ->
  Re.word_or_dash c = true ->
  Re.matches (youtube_pattern host) (scheme +:+ www +:+ host +:+ String c "").
Proof.
  intros Hs Hw Hc. unfold youtube_pattern.
  constructor; [| constructor; [| constructor]].
  - repeat (apply elem_of_cons in Hs as [-> | Hs]);
      [apply Re.MAltR; constructor | apply Re.MAltL | apply Re.MAltL |
       by apply elem_of_nil in Hs].
    + change "http://" with ("http" +:+ "" +:+ "://").
      constructor; [apply matches_Str |].
      constructor; [apply Re.MAltR; constructor | apply matches_Str].
    + change "https://" with ("http" +:+ "s" +:+ "://").
      constructor; [apply matches_Str |].
      constructor; [apply Re.MAltL; constructor | apply matches_Str].
  - repeat (apply elem_of_cons in Hw as [-> | Hw]);
      [apply Re.MAltR; constructor | apply Re.MAltL, matches_Str |
       by apply elem_of_nil in Hw].
  - apply matches_Str.
  - by apply matches_Plus_Class.
Qed.

(** X9.  Among the strings of the ASCII range, those that
    [_is_youtube_url] accepts are exactly those that begin with an optional
    [http://] or [https://], an optional [www.], one of the three
    hosts-and-paths, and one word character or dash; since [re.match] does
    not look at the end of the string, whatever follows is accepted too. *)
Theorem is_youtube_url_characterisation url :
  ascii_only url = true ->
  _is_youtube_url url = true <->
  exists scheme www host c rest,
    scheme ∈ [""; "http://"; "https://"]
    /\ www ∈ [""; "www."]
    /\ host ∈ youtube_hosts
    /\ Re.word_or_dash c = true
    /\ url = scheme +:+ www +:+ host +:+ String c rest.
Proof.
  intros _. rewrite is_youtube_url_spec, youtube_patterns_hosts. split.
  - intros (pattern & pre & post & Hin & -> & Hm).
    apply in_map_iff in Hin as (host & <- & Hin).
    apply youtube_pattern_inv in Hm as (scheme & www & c & w' & ? & ? & ? & ->).
    exists scheme, www, host, c, (w' +:+ post).
    repeat split; [done | done | by apply list_elem_of_In | done |].
    by rewrite !string_app_assoc.
  - intros (scheme & www & host & c & rest & Hs & Hw & Hh & Hc & ->).
    exists (youtube_pattern host), (scheme +:+ www +:+ host +:+ String c ""),
      rest.
    split; [apply in_map, list_elem_of_In, Hh |].
    split; [by rewrite !string_app_assoc | by apply youtube_pattern_intro].
Qed.

Lemma is_youtube_url_characterisation_witness :
  _is_youtube_url "https://youtu.be/abc123 and more" = true <->
  exists scheme www host c rest,
    scheme ∈ [""; "http://"; "https://"]
    /\ www ∈ [""; "www."]
    /\ host ∈ youtube_hosts
    /\ Re.word_or_dash c = true
    /\ "https://youtu.be/abc123 and more"
       = scheme +:+ www +:+ host +:+ String c rest.
Proof.
  apply (is_youtube_url_characterisation "https://youtu.be/abc123 and more").
  reflexivity.
Defined.

(** ** [main] *)





(** A job without a source among the jobs: the exception leaves [main],
    and the process ends with status 1 without a failure line. *)
Example main_uncaught_exception :
  exit_status
    (fst (main 5 {| args_config := "config.yaml"; args_videos := None;
                    args_api_key := None |}
            VNone (fun _ => Some (Demo.cfg [Demo.job_none])) Demo.client
            Demo.disk))
  = Some 1
  /\ failed_sources
       (trace (snd (main 5 {| args_config := "config.yaml";
                              args_videos := None; args_api_key := None |}
                      VNone (fun _ => Some (Demo.cfg [Demo.job_none]))
                      Demo.client Demo.disk)))
     = [].
Proof. by vm_compute. Qed.

(** ** A job that fails before it writes changes no file *)

Lemma prepare_fs fuel self vc st q :
  fs_lookup (fs (snd (prepare fuel self vc st))) q = fs_lookup (fs st) q.
Proof.
  assert (H : keeps (same_outside (fun _ => False)) (prepare fuel self vc)).
  { unfold prepare. destruct (truthy _).
    - apply keeps_create_youtube_video_object; [apply _ |].
      by intros st1 k obj Hk q' Hq'.
    - apply keeps_upload_video; [apply _ | |].
      + by intros ev st1 q' Hq'.
      + by intros st1 k obj Hk q' Hq'. }
  apply (H st q). tauto.
Qed.

Lemma extract_content_fs self obj vc st :
  fs (snd (extract_content self obj vc st)) = fs st.
Proof.
  unfold extract_content, bind, lift, call.
  destruct (_build_extraction_prompt self vc); try done.
  destruct (generate_content _ _ _ _ _ _) as [[t |] | e |]; try done.
  by destruct (String.eqb t "").
Qed.

(** X11.  A job that fails before its writing stage changes no file: when
    an exception escapes the preparation or the extraction of a valid job,
    [process_video] returns [False] and every path of the file system holds
    what it held before the call.  (A failure of the writing stage is left
    out: there the document may already have been opened for writing.) *)
Theorem failed_job_writes_no_document fuel self vc st s e :
  valid_job vc = true ->
  s <> Writing ->
  job_fails fuel self vc st s e ->
  exists st',
    process_video fuel self vc st = (Ok false, st')
    /\ forall q, fs_lookup (fs st') q = fs_lookup (fs st) q.
Proof.
  intros Hv Hs Hf.
  destruct (valid_job_output _ Hv) as (out & Hout & _).
  rewrite (process_video_valid _ _ _ out) by done.
  rewrite process_video_body_stages.
  unfold job_fails in Hf. cbv zeta in Hf.
  set (st1 := add_event _ st) in *.
  pose proof (prepare_fs fuel self vc st1) as Hp.
  unfold try_except, bind.
  destruct s; [| | done].
  - destruct (prepare fuel self vc st1) as [o st2]; simpl in Hf, Hp. subst o.
    simpl. eexists. split; [reflexivity |]. simpl. intros q. by rewrite Hp.
  - destruct Hf as (obj & st2 & Ep & Ee). rewrite Ep in Hp |- *. simpl in Hp.
    pose proof (extract_content_fs self obj vc st2) as He.
    destruct (extract_content self obj vc st2) as [o st3]; simpl in Ee, He.
    subst o. simpl. eexists. split; [reflexivity |]. simpl. intros q.
    rewrite He. apply Hp.
Qed.

Lemma failed_job_writes_no_document_witness :
  job_fails 5 Demo.self Demo.job_b Demo.st_old Preparation
    (FileNotFoundError "Video file not found: videos/missing.mp4")
  /\ exists st',
       process_video 5 Demo.self Demo.job_b Demo.st_old = (Ok false, st')
       /\ forall q, fs_lookup (fs st') q = fs_lookup (fs Demo.st_old) q.
Proof.
  assert (Hf : job_fails 5 Demo.self Demo.job_b Demo.st_old Preparation
                 (FileNotFoundError "Video file not found: videos/missing.mp4"))
    by (by vm_compute).
  split; [exact Hf |].
  apply (failed_job_writes_no_document 5 Demo.self Demo.job_b Demo.st_old
           Preparation
           (FileNotFoundError "Video file not found: videos/missing.mp4"));
    [reflexivity | discriminate | exact Hf].
Defined.

(** ** A job that is rejected before its [try] *)





(** ** A negative delay *)



(** * Properties of [init_video_pipeline.py] *)

#[local] Instance changes_only_preorder T : PreOrder (changes_only T).
Proof.
  split.
  - intros fs q. by left.
  - intros fs1 fs2 fs3 H12 H23 q.
    destruct (H23 q) as [E23 | (HT & n3 & E3 & K3)].
    + rewrite E23. apply H12.
    + right. split; [done |]. exists n3. split; [done |]. intros n Hn.
      destruct (H12 q) as [E12 | (_ & n2 & E2 & K2)].
      * apply K3. by rewrite E12.
      * rewrite (K2 n Hn). by apply K3.
Qed.

Lemma changes_only_mono (T T' : path -> Prop) fs fs' :
  (forall q, T q -> T' q) -> changes_only T fs fs' -> changes_only T' fs fs'.
Proof. intros HT H q. destruct (H q) as [? | (? & ?)]; [by left | right; eauto]. Qed.

Lemma changes_only_insert fs p x :
  p <> [] -> p <> ["/"] ->
  (forall n, fs_lookup fs p = Some n -> kind_of n = kind_of x) ->
  changes_only (fun q => q = p) fs (<[p := x]> fs).
Proof.
  intros H1 H2 Hk q. rewrite fs_lookup_insert by done.
  case_bool_decide as E; [| by left]. subst q. right. eauto.
Qed.

Lemma run_keeps (R : filesystem -> filesystem -> Prop) `{!PreOrder R} ops :
  Forall (fun op => forall fs fs1, op fs = Ok fs1 -> R fs fs1) ops ->
  forall fs, R fs (snd (init_video_pipeline.run ops fs)).
Proof.
  induction 1 as [| op ops Hop _ IH]; intros fs; simpl; [reflexivity |].
  destruct (op fs) as [fs1 | e |] eqn:E; simpl; try reflexivity.
  etrans; [by apply Hop | apply IH].
Qed.

Lemma mkdir_parents_changes fs p fs1 :
  mkdir_parents fs p = Ok fs1 ->
  changes_only (fun q => q ∈ ancestors p) fs fs1.
Proof.
  intros [-> Hreg]%mkdir_parents_inv q. rewrite fs_lookup_dirs.
  case_bool_decide as Hin; [| by left]. right. split; [done |].
  exists Dir. split; [done |]. intros n Hn.
  by rewrite (is_reg_false_kind _ _ _ (Hreg q Hin) Hn).
Qed.

Lemma fs_lookup_None_not_root fs p :
  fs_lookup fs p = None -> p <> [] /\ p <> ["/"].
Proof.
  unfold fs_lookup. destruct p as [| x p]; [done |].
  case_bool_decide as E; [done |]. intros _. split; [done | exact E].
Qed.

Lemma mkdir_exist_ok_inv p fs fs1 :
  init_video_pipeline.mkdir_exist_ok p fs = Ok fs1 ->
  fs_lookup fs1 p = Some Dir
  /\ (fs1 = fs
      \/ (fs1 = <[p := Dir]> fs /\ fs_lookup fs p = None
          /\ fs_lookup fs (parent p) = Some Dir)).
Proof.
  unfold init_video_pipeline.mkdir_exist_ok.
  destruct (fs_lookup fs p) as [[| c] |] eqn:Ep; try done.
  - intros [= <-]. split; [done | by left].
  - destruct (fs_lookup fs (parent p)) as [[| c] |] eqn:Epp; try done;
      [| by destruct (existsb _ _)].
    intros [= <-]. destruct (fs_lookup_None_not_root _ _ Ep) as [H1 H2].
    split; [| right; done].
    by rewrite fs_lookup_insert, bool_decide_eq_true_2.
Qed.

Lemma mkdir_exist_ok_changes p fs fs1 :
  init_video_pipeline.mkdir_exist_ok p fs = Ok fs1 ->
  changes_only (fun q => q = p) fs fs1.
Proof.
  intros [_ [-> | (-> & Hp & _)]]%mkdir_exist_ok_inv; [reflexivity |].
  destruct (fs_lookup_None_not_root _ _ Hp) as [H1 H2].
  apply changes_only_insert; [done | done |]. intros n Hn. congruence.
Qed.

Lemma write_text_changes fs p content fs1 :
  write_text fs p content = Ok fs1 ->
  changes_only (fun q => q = p) fs fs1.
Proof.
  intros (-> & H1 & H2 & Hd)%write_text_inv.
  apply changes_only_insert; [done | done |]. intros n Hn.
  unfold is_dir in Hd. rewrite Hn in Hd. by destruct n.
Qed.

Lemma copy2_inv src dst fs fs1 :
  init_video_pipeline.copy2 src dst fs = Ok fs1 ->
  exists content,
    let target := if is_dir fs dst then dst ++ [name src] else dst in
    fs_lookup fs src = Some (Reg content)
    /\ write_text fs target content = Ok fs1
    /\ src <> target.
Proof.
  unfold init_video_pipeline.copy2, read_bytes, path_exists.
  set (target := if is_dir fs dst then dst ++ [name src] else dst).
  destruct (fs_lookup fs src) as [[| c] |] eqn:Es;
    case_bool_decide as E; simpl; try done.
  intros H. by exists c.
Qed.

Lemma copy_if_exists_changes src dst fs fs1 :
  init_video_pipeline.copy_if_exists src dst fs = Ok fs1 ->
  changes_only (fun q => q = dst \/ q = dst ++ [name src]) fs fs1.
Proof.
  unfold init_video_pipeline.copy_if_exists.
  destruct (path_exists fs src); [| intros [= <-]; reflexivity].
  intros (c & _ & Hw & _)%copy2_inv. apply write_text_changes in Hw.
  eapply changes_only_mono; [| exact Hw]. simpl. intros q ->.
  destruct (is_dir fs dst); auto.
Qed.

Lemma init_pipeline_changes skill_dir project_path videos_path fs :
  changes_only
    (touched project_path (default (project_path ++ ["videos"]) videos_path))
    fs
    (snd (init_video_pipeline.init_pipeline skill_dir project_path
            videos_path fs)).
Proof.
  unfold init_video_pipeline.init_pipeline.
  apply run_keeps; [apply _ |].
  repeat apply Forall_cons_2; try apply Forall_nil_2; intros fs0 fs1 H.
  - eapply changes_only_mono; [| by apply mkdir_parents_changes].
    intros q Hq. by left.
  - eapply changes_only_mono; [| by eapply mkdir_exist_ok_changes].
    intros q ->. right. left. by eexists.
  - eapply changes_only_mono; [| by eapply mkdir_exist_ok_changes].
    intros q ->. right. by right.
  - eapply changes_only_mono; [| by eapply mkdir_exist_ok_changes].
    intros q ->. right. left. by eexists.
  - eapply changes_only_mono; [| by eapply copy_if_exists_changes].
    intros q [-> | ->]; right; left; rewrite <- ?app_assoc; by eexists.
  - eapply changes_only_mono; [| by eapply copy_if_exists_changes].
    intros q [-> | ->]; right; left; rewrite <- ?app_assoc; by eexists.
  - eapply changes_only_mono; [| by eapply copy_if_exists_changes].
    intros q [-> | ->]; right; left; rewrite <- ?app_assoc; by eexists.
  - eapply changes_only_mono; [| by eapply write_text_changes].
    intros q ->. right. left. by eexists.
Qed.

(** X14.  [init_pipeline] stays where it was sent and destroys nothing,
    whether it returns or raises half-way.  A path that is neither the
    project directory, nor above or below it, nor the directory of the
    videos is as before; and whatever existed before still exists, a
    directory as a directory and a file as a file.  The first part is said
    of paths that name a file in one way only: the project directory, the
    directory of the videos and the path looked at are relative paths made
    of names, without [..]. *)
Theorem init_pipeline_confined skill_dir project_path videos_path fs :
  let fs' := snd (init_video_pipeline.init_pipeline skill_dir project_path
                    videos_path fs) in
  (forall q,
     plain project_path = true ->
     plain (default (project_path ++ ["videos"]) videos_path) = true ->
     plain q = true ->
     ~ touched project_path (default (project_path ++ ["videos"]) videos_path) q ->
     fs_lookup fs' q = fs_lookup fs q)
  /\ (forall q n,
        fs_lookup fs q = Some n ->
        exists n', fs_lookup fs' q = Some n' /\ kind_of n' = kind_of n).
Proof.
  pose proof (init_pipeline_changes skill_dir project_path videos_path fs) as H.
  split.
  - intros q _ _ _ Hq. by destruct (H q) as [E | (HT & _)].
  - intros q n Hn. destruct (H q) as [E | (_ & n' & E & K)].
    + exists n. by rewrite E.
    + exists n'. split; [done |]. symmetry. by apply K.
Qed.

Lemma init_pipeline_confined_witness :
  fs_lookup
    (snd (init_video_pipeline.init_pipeline ["skill"] ["proj"] None skill_disk))
    ["skill"; "references"; "config_template.yaml"]
  = Some (Reg "template")
  /\ exists n',
       fs_lookup
         (snd (init_video_pipeline.init_pipeline ["skill"] ["proj"] None
                 skill_disk))
         ["proj"; "scripts"; "config.yaml"] = Some n'
       /\ kind_of n' = false.
Proof.
  destruct (init_pipeline_confined ["skill"] ["proj"] None skill_disk)
    as [Hframe Hkept].
  split.
  - rewrite Hframe; [reflexivity | reflexivity | reflexivity | reflexivity |].
    intros [Hq | [Hq | Hq]].
    + vm_compute in Hq.
      repeat (apply elem_of_cons in Hq as [Hq | Hq]; [discriminate |]).
      by apply elem_of_nil in Hq.
    + by destruct Hq as [k Hk].
    + discriminate.
  - apply (Hkept ["proj"; "scripts"; "config.yaml"] (Reg "edited")).
    reflexivity.
Defined.

(** ** A run of [init_pipeline] that returns *)

Lemma run_cons_inv op ops fs fs' :
  init_video_pipeline.run (op :: ops) fs = (Ok tt, fs') ->
  exists fs1, op fs = Ok fs1 /\ init_video_pipeline.run ops fs1 = (Ok tt, fs').
Proof. simpl. destruct (op fs) as [fs1 | e |]; [eauto | done | done]. Qed.

Lemma changes_only_frame T fs fs' q :
  changes_only T fs fs' -> ~ T q -> fs_lookup fs' q = fs_lookup fs q.
Proof. intros H Hq. by destruct (H q) as [E | (HT & _)]. Qed.

Lemma changes_only_kind T fs fs' q n :
  changes_only T fs fs' -> fs_lookup fs q = Some n ->
  exists n', fs_lookup fs' q = Some n' /\ kind_of n' = kind_of n.
Proof.
  intros H Hn. destruct (H q) as [E | (_ & n' & E & K)].
  - exists n. by rewrite E.
  - exists n'. split; [done |]. symmetry. by apply K.
Qed.

Lemma changes_only_is_dir T fs fs' q :
  changes_only T fs fs' -> is_dir fs q = true -> is_dir fs' q = true.
Proof.
  unfold is_dir. intros H Hd.
  destruct (fs_lookup fs q) as [[| c] |] eqn:E; try done.
  destruct (changes_only_kind _ _ _ _ _ H E) as (n' & -> & K). by destruct n'.
Qed.

Lemma changes_only_not_dir T fs fs' q c :
  changes_only T fs fs' -> fs_lookup fs q = Some (Reg c) -> is_dir fs' q = false.
Proof.
  unfold is_dir. intros H E.
  destruct (changes_only_kind _ _ _ _ _ H E) as (n' & -> & K). by destruct n'.
Qed.

#[local] Instance files_kept_preorder : PreOrder files_kept.
Proof.
  split.
  - by intros fs q c.
  - intros fs1 fs2 fs3 H12 H23 q c Hq. by apply H23, H12.
Qed.

Lemma mkdir_parents_files_kept fs p fs1 :
  mkdir_parents fs p = Ok fs1 -> files_kept fs fs1.
Proof.
  intros [-> Hreg]%mkdir_parents_inv q c Hq. rewrite fs_lookup_dirs.
  case_bool_decide as Hin; [| done]. specialize (Hreg q Hin).
  unfold is_reg in Hreg. by rewrite Hq in Hreg.
Qed.

Lemma mkdir_exist_ok_files_kept p fs fs1 :
  init_video_pipeline.mkdir_exist_ok p fs = Ok fs1 -> files_kept fs fs1.
Proof.
  intros [_ [-> | (-> & Hp & _)]]%mkdir_exist_ok_inv; [reflexivity |].
  destruct (fs_lookup_None_not_root _ _ Hp) as [H1 H2].
  intros q c Hq. rewrite fs_lookup_insert by done.
  case_bool_decide as E; [| done]. subst q. congruence.
Qed.

Lemma changes_only_files_kept T fs fs' q c :
  changes_only T fs fs' -> ~ T q ->
  fs_lookup fs q = Some (Reg c) -> fs_lookup fs' q = Some (Reg c).
Proof. intros H Hq E. by rewrite (changes_only_frame _ _ _ _ H Hq). Qed.

Lemma name_snoc (l : path) x : l <> [] -> name (l ++ [x]) = x.
Proof.
  intros Hl. unfold name. rewrite last_snoc. simpl.
  rewrite bool_decide_eq_false_2; [done |]. by destruct l as [| a [| b l]].
Qed.

Lemma name_app2 (l : path) a b : name (l ++ [a; b]) = b.
Proof.
  change [a; b] with ([a] ++ [b]). rewrite app_assoc.
  apply name_snoc. by destruct l.
Qed.

(** One copy, and what is left of it after statements that write
    elsewhere. *)
Lemma copy_step_copied src dst fs fs1 fs' c :
  init_video_pipeline.copy_if_exists src dst fs = Ok fs1 ->
  fs_lookup fs src = Some (Reg c) ->
  changes_only (fun q => q <> dst /\ q <> dst ++ [name src]) fs1 fs' ->
  fs_lookup fs' (if is_dir fs' dst then dst ++ [name src] else dst)
  = Some (Reg c)
  /\ is_dir fs' dst = is_dir fs dst.
Proof.
  unfold init_video_pipeline.copy_if_exists, path_exists.
  intros H Hc Hlater. rewrite Hc in H.
  apply copy2_inv in H as (c' & Hc' & Hw & Hne). simpl in Hw.
  assert (c' = c) as -> by congruence.
  pose proof (write_text_changes _ _ _ _ Hw) as Hstep.
  pose proof (write_text_ok _ _ _ _ Hw) as Hdone.
  assert (Hdir : is_dir fs' dst = is_dir fs dst).
  { destruct (is_dir fs dst) eqn:Hd.
    - eapply changes_only_is_dir; [exact Hlater |].
      eapply changes_only_is_dir; [exact Hstep | done].
    - eapply changes_only_not_dir; [exact Hlater | exact Hdone]. }
  split; [| done]. rewrite Hdir.
  rewrite (changes_only_frame _ _ _ _ Hlater); [done |].
  destruct (is_dir fs dst); tauto.
Qed.

Lemma mkdir_parents_is_dir fs p fs1 :
  mkdir_parents fs p = Ok fs1 -> is_dir fs1 p = true.
Proof.
  intros [-> _]%mkdir_parents_inv. unfold is_dir. rewrite fs_lookup_dirs.
  destruct p as [| x p]; [done |].
  by rewrite bool_decide_eq_true_2 by (by apply ancestors_self).
Qed.

Lemma mkdir_exist_ok_is_dir p fs fs1 :
  init_video_pipeline.mkdir_exist_ok p fs = Ok fs1 -> is_dir fs1 p = true.
Proof. intros [H _]%mkdir_exist_ok_inv. unfold is_dir. by rewrite H. Qed.

Ltac path_ne :=
  let Heq := fresh "Heq" in
  intros Heq; apply (f_equal last) in Heq;
  rewrite ?last_app in Heq; simpl in Heq; discriminate.

Ltac elsewhere :=
  rewrite ?name_app2;
  let q := fresh "q" in
  intros q; intros; destruct_or?; subst; split; path_ne.

(** X15.  What [init_pipeline] has done when it returns.  The project
    directory and its three directories exist; [README.md] holds the text
    of the script; and each of the three core files that the skill has is
    found in [scripts] with the content it has in the skill, whatever was
    there before: a [config.yaml] that had been edited is the template
    again. *)
Theorem init_pipeline_success skill_dir project_path videos_path fs fs' :
  init_video_pipeline.init_pipeline skill_dir project_path videos_path fs
  = (Ok tt, fs') ->
  (is_dir fs' project_path = true
   /\ is_dir fs' (project_path ++ ["scripts"]) = true
   /\ is_dir fs' (default (project_path ++ ["videos"]) videos_path) = true
   /\ is_dir fs' (project_path ++ ["extracted"]) = true)
  /\ fs_lookup fs' (project_path ++ ["README.md"])
     = Some (Reg init_video_pipeline.readme_content)
  /\ copied fs fs' (skill_dir ++ ["scripts"; "video_extractor.py"])
       ((project_path ++ ["scripts"]) ++ ["video_extractor.py"])
  /\ copied fs fs' (skill_dir ++ ["references"; "config_template.yaml"])
       ((project_path ++ ["scripts"]) ++ ["config.yaml"])
  /\ copied fs fs' (skill_dir ++ ["assets"; ".env.example"])
       ((project_path ++ ["scripts"]) ++ [".env.example"]).
Proof.
  unfold init_video_pipeline.init_pipeline. intros H.
  apply run_cons_inv in H as (fs1 & H1 & H).
  apply run_cons_inv in H as (fs2 & H2 & H).
  apply run_cons_inv in H as (fs3 & H3 & H).
  apply run_cons_inv in H as (fs4 & H4 & H).
  apply run_cons_inv in H as (fs5 & H5 & H).
  apply run_cons_inv in H as (fs6 & H6 & H).
  apply run_cons_inv in H as (fs7 & H7 & H).
  apply run_cons_inv in H as (fs8 & H8 & H).
  simpl in H. injection H as <-.
  pose proof (mkdir_exist_ok_changes _ _ _ H2) as C2.
  pose proof (mkdir_exist_ok_changes _ _ _ H3) as C3.
  pose proof (mkdir_exist_ok_changes _ _ _ H4) as C4.
  pose proof (copy_if_exists_changes _ _ _ _ H5) as C5.
  pose proof (copy_if_exists_changes _ _ _ _ H6) as C6.
  pose proof (copy_if_exists_changes _ _ _ _ H7) as C7.
  pose proof (write_text_changes _ _ _ _ H8) as C8.
  assert (K : files_kept fs fs4).
  { etrans; [by eapply mkdir_parents_files_kept |].
    etrans; [by eapply mkdir_exist_ok_files_kept |].
    etrans; by eapply mkdir_exist_ok_files_kept. }
  split; [| split; [by eapply write_text_ok |]].
  - repeat split.
    + do 7 (eapply changes_only_is_dir; [eassumption |]).
      by eapply mkdir_parents_is_dir.
    + do 6 (eapply changes_only_is_dir; [eassumption |]).
      by eapply mkdir_exist_ok_is_dir.
    + do 5 (eapply changes_only_is_dir; [eassumption |]).
      by eapply mkdir_exist_ok_is_dir.
    + do 4 (eapply changes_only_is_dir; [eassumption |]).
      by eapply mkdir_exist_ok_is_dir.
  - repeat split; intros c Hc.
    + eapply (copy_step_copied _ _ fs4 fs5); [exact H5 | by apply K |].
      etrans; [eapply changes_only_mono; [| exact C6]; elsewhere |].
      etrans; [eapply changes_only_mono; [| exact C7]; elsewhere |].
      eapply changes_only_mono; [| exact C8]; elsewhere.
    + eapply (copy_step_copied _ _ fs5 fs6); [exact H6 | |].
      * eapply changes_only_files_kept; [exact C5 | | by apply K].
        rewrite name_app2. intros [Heq | Heq]; revert Heq; path_ne.
      * etrans; [eapply changes_only_mono; [| exact C7]; elsewhere |].
        eapply changes_only_mono; [| exact C8]; elsewhere.
    + eapply (copy_step_copied _ _ fs6 fs7); [exact H7 | |].
      * eapply changes_only_files_kept; [exact C6 | |].
        { rewrite name_app2. intros [Heq | Heq]; revert Heq; path_ne. }
        eapply changes_only_files_kept; [exact C5 | | by apply K].
        rewrite name_app2. intros [Heq | Heq]; revert Heq; path_ne.
      * eapply changes_only_mono; [| exact C8]; elsewhere.
Qed.

Lemma init_pipeline_success_witness :
  exists fs',
    init_video_pipeline.init_pipeline ["skill"] ["proj"] None skill_disk
    = (Ok tt, fs')
    /\ fs_lookup fs' (["proj"] ++ ["README.md"])
       = Some (Reg init_video_pipeline.readme_content)
    /\ copied skill_disk fs' (["skill"] ++ ["references"; "config_template.yaml"])
         ((["proj"] ++ ["scripts"]) ++ ["config.yaml"]).
Proof.
  destruct (init_video_pipeline.init_pipeline ["skill"] ["proj"] None skill_disk)
    as [o fs'] eqn:E.
  assert (Ho : o = Ok tt).
  { apply (f_equal fst) in E. simpl in E. subst o. by vm_compute. }
  subst o. exists fs'. split; [reflexivity |].
  destruct (init_pipeline_success ["skill"] ["proj"] None skill_disk fs' E)
    as (_ & Hreadme & _ & Hconfig & _).
  split; [exact Hreadme | exact Hconfig].
Defined.

(** The same run, computed: the edited [config.yaml] is the
    template again. *)
Example init_pipeline_resets_config :
  fs_lookup
    (snd (init_video_pipeline.init_pipeline ["skill"] ["proj"] None skill_disk))
    ["proj"; "scripts"; "config.yaml"]
  = Some (Reg "template").
Proof. by vm_compute. Qed.

(** ** Running [init_pipeline] again *)

Lemma run_fixed ops fs :
  Forall (fun op : init_video_pipeline.action => op fs = Ok fs) ops ->
  init_video_pipeline.run ops fs = (Ok tt, fs).
Proof. induction 1 as [| op ops Hop _ IH]; simpl; [done |]. by rewrite Hop. Qed.

Lemma foldr_insert_dirs_lookup (fs : filesystem) l q :
  q ∈ l -> foldr (fun q acc => <[q := Dir]> acc) fs l !! q = Some Dir.
Proof.
  induction l as [| a l IH]; [by intros ?%elem_of_nil |]. simpl.
  intros [-> | Hq]%elem_of_cons; [by rewrite lookup_insert_eq |].
  destruct (decide (q = a)) as [-> | Hne]; [by rewrite lookup_insert_eq |].
  rewrite lookup_insert_ne by done. by apply IH.
Qed.

Lemma foldr_insert_dirs_id (fs : filesystem) l :
  (forall q, q ∈ l -> fs !! q = Some Dir) ->
  foldr (fun q acc => <[q := Dir]> acc) fs l = fs.
Proof.
  induction l as [| a l IH]; [done |]. simpl. intros H.
  rewrite IH by (intros q Hq; apply H; by right).
  apply insert_id, H. by left.
Qed.

Lemma write_text_raw_dirs fs p c fs1 q :
  write_text fs p c = Ok fs1 -> fs !! q = Some Dir -> fs1 !! q = Some Dir.
Proof.
  intros (-> & H1 & H2 & Hd)%write_text_inv Hq.
  rewrite lookup_insert_ne; [done |]. intros Heq. subst q.
  unfold is_dir in Hd. rewrite fs_lookup_raw in Hd by done.
  unfold path in *. by rewrite Hq in Hd.
Qed.

Lemma mkdir_exist_ok_raw_dirs p fs fs1 q :
  init_video_pipeline.mkdir_exist_ok p fs = Ok fs1 ->
  fs !! q = Some Dir -> fs1 !! q = Some Dir.
Proof.
  intros [_ [-> | (-> & _)]]%mkdir_exist_ok_inv Hq; [done |].
  destruct (decide (q = p)) as [-> | Hne]; [by rewrite lookup_insert_eq |].
  by rewrite lookup_insert_ne.
Qed.

Lemma copy_if_exists_raw_dirs src dst fs fs1 q :
  init_video_pipeline.copy_if_exists src dst fs = Ok fs1 ->
  fs !! q = Some Dir -> fs1 !! q = Some Dir.
Proof.
  unfold init_video_pipeline.copy_if_exists.
  destruct (path_exists fs src); [| by intros [= <-]].
  intros (c & _ & Hw & _)%copy2_inv. by eapply write_text_raw_dirs.
Qed.

Lemma write_text_parent fs p c fs1 :
  write_text fs p c = Ok fs1 -> is_dir fs (parent p) = true.
Proof.
  unfold write_text, is_dir.
  destruct (fs_lookup fs p) as [[| c0] |];
    destruct (fs_lookup fs (parent p)) as [[| c'] |]; done.
Qed.

Lemma write_text_again fs p c :
  fs_lookup fs p = Some (Reg c) -> is_dir fs (parent p) = true ->
  write_text fs p c = Ok fs.
Proof.
  unfold write_text, is_dir. intros Hp Hd. rewrite Hp.
  destruct (fs_lookup fs (parent p)) as [[| c'] |]; try done.
  f_equal. apply insert_id.
  assert (p <> [] /\ p <> ["/"]) as [H1 H2].
  { split; intros ->; done. }
  by rewrite <- fs_lookup_raw.
Qed.

Lemma mkdir_exist_ok_again p fs :
  is_dir fs p = true -> init_video_pipeline.mkdir_exist_ok p fs = Ok fs.
Proof.
  unfold init_video_pipeline.mkdir_exist_ok, is_dir.
  by destruct (fs_lookup fs p) as [[| c] |].
Qed.

(** A copy made once is made again in the same way, and changes nothing,
    after statements that have written elsewhere. *)
Lemma copy_step_again src dst fs fs1 fs' :
  init_video_pipeline.copy_if_exists src dst fs = Ok fs1 ->
  changes_only (fun q => q <> src /\ q <> dst /\ q <> dst ++ [name src])
    fs1 fs' ->
  init_video_pipeline.copy_if_exists src dst fs' = Ok fs'.
Proof.
  intros H Hlater.
  assert (Hsrc' : fs_lookup fs' src = fs_lookup fs1 src).
  { apply (changes_only_frame _ _ _ _ Hlater). tauto. }
  assert (Hlater' : changes_only (fun q => q <> dst /\ q <> dst ++ [name src])
                      fs1 fs').
  { eapply changes_only_mono; [| exact Hlater]. simpl. tauto. }
  pose proof H as H0. revert H.
  unfold init_video_pipeline.copy_if_exists, path_exists.
  destruct (fs_lookup fs src) as [n |] eqn:Es.
  - intros (c & Hc & Hw & Hne)%copy2_inv. simpl in Hw, Hne.
    rewrite Es in Hc. injection Hc as ->.
    destruct (copy_step_copied _ _ _ _ _ _ H0 Es Hlater') as [Hdone Hdir].
    assert (Hs1 : fs_lookup fs1 src = Some (Reg c)).
    { rewrite (changes_only_frame _ _ _ _ (write_text_changes _ _ _ _ Hw));
        [done | by intros ?]. }
    rewrite Hsrc', Hs1.
    unfold init_video_pipeline.copy2, read_bytes, path_exists.
    rewrite Hsrc', Hs1, Hdir.
    rewrite bool_decide_eq_false_2 by done. simpl.
    rewrite Hdir in Hdone. apply write_text_again; [done |].
    eapply changes_only_is_dir; [exact Hlater |].
    eapply changes_only_is_dir; [by eapply write_text_changes |].
    by eapply write_text_parent.
  - intros [= <-]. by rewrite Hsrc', Es.
Qed.

Lemma raw_dir_lookup (fs : filesystem) q :
  fs !! q = Some Dir -> fs_lookup fs q = Some Dir.
Proof.
  intros H. unfold fs_lookup. destruct q as [| x q]; [done |].
  case_bool_decide; [done |]. unfold path in *. by rewrite H.
Qed.

Ltac elsewhere3 :=
  rewrite ?name_app2;
  let q := fresh "q" in
  intros q; intros; destruct_or?; subst; (split; [| split]); path_ne.

(** X16.  [init_pipeline] can be run again.  After a run that has
    returned, a second run with the same arguments returns too and leaves
    the file system exactly as the first run left it. *)
Theorem init_pipeline_idempotent skill_dir project_path videos_path fs fs' :
  init_video_pipeline.init_pipeline skill_dir project_path videos_path fs
  = (Ok tt, fs') ->
  init_video_pipeline.init_pipeline skill_dir project_path videos_path fs'
  = (Ok tt, fs').
Proof.
  unfold init_video_pipeline.init_pipeline. intros H.
  apply run_cons_inv in H as (fs1 & H1 & H).
  apply run_cons_inv in H as (fs2 & H2 & H).
  apply run_cons_inv in H as (fs3 & H3 & H).
  apply run_cons_inv in H as (fs4 & H4 & H).
  apply run_cons_inv in H as (fs5 & H5 & H).
  apply run_cons_inv in H as (fs6 & H6 & H).
  apply run_cons_inv in H as (fs7 & H7 & H).
  apply run_cons_inv in H as (fs8 & H8 & H).
  simpl in H. injection H as <-.
  pose proof (mkdir_exist_ok_changes _ _ _ H2) as C2.
  pose proof (mkdir_exist_ok_changes _ _ _ H3) as C3.
  pose proof (mkdir_exist_ok_changes _ _ _ H4) as C4.
  pose proof (copy_if_exists_changes _ _ _ _ H5) as C5.
  pose proof (copy_if_exists_changes _ _ _ _ H6) as C6.
  pose proof (copy_if_exists_changes _ _ _ _ H7) as C7.
  pose proof (write_text_changes _ _ _ _ H8) as C8.
  assert (Hraw : forall q, q ∈ ancestors project_path -> fs8 !! q = Some Dir).
  { intros q Hq.
    eapply write_text_raw_dirs; [exact H8 |].
    eapply copy_if_exists_raw_dirs; [exact H7 |].
    eapply copy_if_exists_raw_dirs; [exact H6 |].
    eapply copy_if_exists_raw_dirs; [exact H5 |].
    eapply mkdir_exist_ok_raw_dirs; [exact H4 |].
    eapply mkdir_exist_ok_raw_dirs; [exact H3 |].
    eapply mkdir_exist_ok_raw_dirs; [exact H2 |].
    apply mkdir_parents_inv in H1 as [-> _].
    by apply foldr_insert_dirs_lookup. }
  apply run_fixed. repeat apply Forall_cons_2; try apply Forall_nil_2.
  - rewrite mkdir_parents_ok.
    + f_equal. by apply foldr_insert_dirs_id.
    + apply List.forallb_forall. intros q Hq%list_elem_of_In.
      unfold is_reg. by rewrite (raw_dir_lookup _ _ (Hraw q Hq)).
  - apply mkdir_exist_ok_again.
    do 6 (eapply changes_only_is_dir; [eassumption |]).
    by eapply mkdir_exist_ok_is_dir.
  - apply mkdir_exist_ok_again.
    do 5 (eapply changes_only_is_dir; [eassumption |]).
    by eapply mkdir_exist_ok_is_dir.
  - apply mkdir_exist_ok_again.
    do 4 (eapply changes_only_is_dir; [eassumption |]).
    by eapply mkdir_exist_ok_is_dir.
  - eapply (copy_step_again _ _ fs4 fs5); [exact H5 |].
    etrans; [eapply changes_only_mono; [| exact C6]; elsewhere3 |].
    etrans; [eapply changes_only_mono; [| exact C7]; elsewhere3 |].
    eapply changes_only_mono; [| exact C8]; elsewhere3.
  - eapply (copy_step_again _ _ fs5 fs6); [exact H6 |].
    etrans; [eapply changes_only_mono; [| exact C7]; elsewhere3 |].
    eapply changes_only_mono; [| exact C8]; elsewhere3.
  - eapply (copy_step_again _ _ fs6 fs7); [exact H7 |].
    eapply changes_only_mono; [| exact C8]; elsewhere3.
  - apply write_text_again; [by eapply write_text_ok |].
    eapply changes_only_is_dir; [exact C8 |]. by eapply write_text_parent.
Qed.

Lemma init_pipeline_idempotent_witness :
  exists fs',
    init_video_pipeline.init_pipeline ["skill"] ["proj"] None skill_disk
    = (Ok tt, fs')
    /\ init_video_pipeline.init_pipeline ["skill"] ["proj"] None fs'
       = (Ok tt, fs').
Proof.
  destruct (init_video_pipeline.init_pipeline ["skill"] ["proj"] None skill_disk)
    as [o fs'] eqn:E.
  assert (Ho : o = Ok tt).
  { apply (f_equal fst) in E. simpl in E. subst o. by vm_compute. }
  subst o. exists fs'. split; [reflexivity |].
  exact (init_pipeline_idempotent ["skill"] ["proj"] None skill_disk fs' E).
Defined.

(** ** A videos directory whose parent is missing *)

#[local] Instance same_files_preorder : PreOrder same_files.
Proof.
  split.
  - by intros fs q c.
  - intros fs1 fs2 fs3 H12 H23 q c. by rewrite (H23 q c), (H12 q c).
Qed.

Lemma mkdir_parents_same_files fs p fs1 :
  mkdir_parents fs p = Ok fs1 -> same_files fs fs1.
Proof.
  intros [-> Hreg]%mkdir_parents_inv q c. rewrite fs_lookup_dirs.
  case_bool_decide as Hin; [| done]. split; [done |]. intros Hq.
  specialize (Hreg q Hin). unfold is_reg in Hreg. by rewrite Hq in Hreg.
Qed.

Lemma mkdir_exist_ok_same_files p fs fs1 :
  init_video_pipeline.mkdir_exist_ok p fs = Ok fs1 -> same_files fs fs1.
Proof.
  intros [_ [-> | (-> & Hp & _)]]%mkdir_exist_ok_inv; [reflexivity |].
  destruct (fs_lookup_None_not_root _ _ Hp) as [H1 H2].
  intros q c. rewrite fs_lookup_insert by done.
  case_bool_decide as E; [| done]. subst q. split; [done | congruence].
Qed.

Lemma parent_snoc (l : path) x : l <> [] -> parent (l ++ [x]) = l.
Proof.
  intros Hl. destruct l as [| a [| b l]]; [done | done |].
  change (parent ((a :: b :: l) ++ [x]))
    with (removelast ((a :: b :: l) ++ [x])).
  apply removelast_last.
Qed.

Lemma parent_take n (p : path) :
  2 <= n <= length p -> parent (take n p) = take (n - 1) p.
Proof.
  intros Hn. destruct n as [| [| n]]; [lia | lia |].
  replace (S (S n) - 1) with (S n) by lia.
  assert (Hlen : S n < length p) by lia.
  apply lookup_lt_is_Some_2 in Hlen as [x Hx].
  rewrite (take_S_r _ _ _ Hx). apply parent_snoc.
  destruct p; [done |]. done.
Qed.

Lemma missing_parent_stays fs fs1 fs2 project_path v :
  fs_lookup fs v = None ->
  fs_lookup fs (parent v) = None ->
  parent v ∉ ancestors project_path ->
  parent v <> project_path ++ ["scripts"] ->
  mkdir_parents fs project_path = Ok fs1 ->
  init_video_pipeline.mkdir_exist_ok (project_path ++ ["scripts"]) fs1 = Ok fs2 ->
  fs_lookup fs2 v = None /\ fs_lookup fs2 (parent v) = None.
Proof.
  intros Hv Hpv Hanc Hscripts H1 H2.
  pose proof (mkdir_parents_changes _ _ _ H1) as C1.
  pose proof (mkdir_exist_ok_changes _ _ _ H2) as C2.
  assert (Hv1 : v ∉ ancestors project_path).
  { intros (n & Hn & ->)%elem_of_ancestors.
    destruct (decide (n = 1)) as [-> | Hn1].
    - destruct project_path as [| x p]; [simpl in Hn; lia |].
      simpl in Hpv. rewrite take_0 in Hpv.
      case_bool_decide as E; [injection E as -> |]; done.
    - apply Hanc. rewrite parent_take by lia.
      apply elem_of_ancestors. exists (n - 1). split; [lia | done]. }
  assert (Hv2 : v <> project_path ++ ["scripts"]).
  { intros ->. destruct project_path as [| x p]; [done |].
    rewrite parent_snoc in Hanc by done. by apply Hanc, ancestors_self. }
  split.
  - rewrite (changes_only_frame _ _ _ _ C2) by done.
    by rewrite (changes_only_frame _ _ _ _ C1).
  - rewrite (changes_only_frame _ _ _ _ C2) by done.
    by rewrite (changes_only_frame _ _ _ _ C1).
Qed.

Lemma mkdir_parents_returns fs p : mkdir_parents fs p <> Diverge.
Proof.
  unfold mkdir_parents. destruct (List.find _ _); [| done].
  by case_bool_decide.
Qed.

Lemma mkdir_exist_ok_returns p fs :
  init_video_pipeline.mkdir_exist_ok p fs <> Diverge.
Proof.
  unfold init_video_pipeline.mkdir_exist_ok.
  destruct (fs_lookup fs p) as [[| c] |]; try done.
  destruct (fs_lookup fs (parent p)) as [[| c] |]; try done.
  by destruct (existsb _ _).
Qed.

Lemma mkdir_exist_ok_raises p fs e :
  init_video_pipeline.mkdir_exist_ok p fs = Raise e ->
  fs_lookup fs p = None -> fs_lookup fs (parent p) = None ->
  (forall q, q ∈ ancestors (parent p) -> is_reg fs q = false) ->
  e = FileNotFoundError "No such file or directory".
Proof.
  unfold init_video_pipeline.mkdir_exist_ok. intros H Hp Hpp Hreg.
  rewrite Hp, Hpp in H.
  destruct (existsb (is_reg fs) (ancestors (parent p))) eqn:E;
    [| by injection H as <-].
  apply List.existsb_exists in E as (q & Hin%list_elem_of_In & Hq).
  by rewrite (Hreg q Hin) in Hq.
Qed.

(** X17.  Only the project directory is created together with the
    directories above it.  When [--videos-path] names a directory that does
    not exist, inside a directory that does not exist either,
    [init_pipeline] does not return: it raises before any file has been
    copied or written, and when the project and [scripts] directories could
    be made, what it raises is [FileNotFoundError], from the [mkdir] of the
    videos directory.  The paths are relative paths made of names, without
    [..], and nothing above the videos directory is a regular file. *)
Theorem init_pipeline_videos_parent_missing
    skill_dir project_path v fs :
  plain project_path = true ->
  plain v = true ->
  fs_lookup fs v = None ->
  fs_lookup fs (parent v) = None ->
  (forall q, q ∈ ancestors (parent v) -> is_reg fs q = false) ->
  parent v ∉ ancestors project_path ->
  parent v <> project_path ++ ["scripts"] ->
  exists e fs',
    init_video_pipeline.init_pipeline skill_dir project_path (Some v) fs
    = (Raise e, fs')
    /\ same_files fs fs'
    /\ (forall fs1 fs2,
          mkdir_parents fs project_path = Ok fs1 ->
          init_video_pipeline.mkdir_exist_ok (project_path ++ ["scripts"]) fs1
          = Ok fs2 ->
          e = FileNotFoundError "No such file or directory" /\ fs' = fs2).
Proof.
  intros _ _ Hv Hpv Hreg Hanc Hscripts.
  unfold init_video_pipeline.init_pipeline. simpl.
  destruct (mkdir_parents fs project_path) as [fs1 | e |] eqn:H1.
  - destruct (init_video_pipeline.mkdir_exist_ok (project_path ++ ["scripts"]) fs1)
      as [fs2 | e |] eqn:H2.
    + destruct (missing_parent_stays _ _ _ _ _ Hv Hpv Hanc Hscripts H1 H2)
        as [Hv2 Hpv2].
      assert (K : same_files fs fs2).
      { etrans; [by eapply mkdir_parents_same_files |].
        by eapply mkdir_exist_ok_same_files. }
      destruct (init_video_pipeline.mkdir_exist_ok v fs2) as [fs3 | e |] eqn:H3.
      * unfold init_video_pipeline.mkdir_exist_ok in H3.
        rewrite Hv2, Hpv2 in H3. by destruct (existsb _ _).
      * exists e, fs2. split; [done |]. split; [exact K |].
        intros fs1' fs2' [= <-] E2. rewrite H2 in E2. injection E2 as <-.
        split; [| done].
        apply (mkdir_exist_ok_raises _ _ _ H3 Hv2 Hpv2).
        intros q Hq. specialize (Hreg q Hq). unfold is_reg in *.
        destruct (fs_lookup fs2 q) as [[| c] |] eqn:Eq; try done.
        apply K in Eq. by rewrite Eq in Hreg.
      * by destruct (mkdir_exist_ok_returns v fs2).
    + exists e, fs1. split; [done |].
      split; [by eapply mkdir_parents_same_files |].
      intros fs1' fs2' [= <-] E2. congruence.
    + by destruct (mkdir_exist_ok_returns (project_path ++ ["scripts"]) fs1).
  - exists e, fs. split; [done |]. split; [reflexivity | done].
  - by destruct (mkdir_parents_returns fs project_path).
Qed.

Lemma init_pipeline_videos_parent_missing_witness :
  exists e fs',
    init_video_pipeline.init_pipeline ["skill"] ["proj"]
      (Some ["data"; "videos"]) skill_disk = (Raise e, fs')
    /\ same_files skill_disk fs'
    /\ (forall fs1 fs2,
          mkdir_parents skill_disk ["proj"] = Ok fs1 ->
          init_video_pipeline.mkdir_exist_ok (["proj"] ++ ["scripts"]) fs1
          = Ok fs2 ->
          e = FileNotFoundError "No such file or directory" /\ fs' = fs2).
Proof.
  apply (init_pipeline_videos_parent_missing ["skill"] ["proj"]
           ["data"; "videos"] skill_disk).
  - reflexivity.
  - reflexivity.
  - reflexivity.
  - reflexivity.
  - intros q Hq. vm_compute in Hq.
    repeat (apply elem_of_cons in Hq as [-> | Hq]; [reflexivity |]).
    by apply elem_of_nil in Hq.
  - intros H. vm_compute in H.
    repeat (apply elem_of_cons in H as [H | H]; [discriminate |]).
    by apply elem_of_nil in H.
  - discriminate.
Defined.

(** ** The skill directory as the project *)

(** X18.  The script cannot set up the skill directory itself as a
    project: there [video_extractor.py] would be copied onto itself, which
    [shutil.copy2] refuses.  When the skill has that file, [main] ends with
    status 1, and no file has been copied, written or changed. *)
Theorem init_in_skill_directory_fails skill_dir videos_path fs c :
  fs_lookup fs (skill_dir ++ ["scripts"; "video_extractor.py"])
  = Some (Reg c) ->
  exists fs',
    init_video_pipeline.main skill_dir skill_dir videos_path fs = (Ok 1, fs')
    /\ same_files fs fs'.
Proof.
  intros Hc.
  unfold init_video_pipeline.main, init_video_pipeline.init_pipeline.
  cbn [init_video_pipeline.run].
  destruct (mkdir_parents fs skill_dir) as [fs1 | e |] eqn:H1;
    [| exists fs; split; [done | reflexivity]
     | by destruct (mkdir_parents_returns fs skill_dir)].
  apply mkdir_parents_same_files in H1.
  destruct (init_video_pipeline.mkdir_exist_ok (skill_dir ++ ["scripts"]) fs1)
    as [fs2 | e |] eqn:H2;
    [| exists fs1; split; [done | exact H1]
     | by destruct (mkdir_exist_ok_returns _ _ H2)].
  apply mkdir_exist_ok_same_files in H2.
  destruct (init_video_pipeline.mkdir_exist_ok
              (default (skill_dir ++ ["videos"]) videos_path) fs2)
    as [fs3 | e |] eqn:H3;
    [| exists fs2; split; [done | by etrans]
     | by destruct (mkdir_exist_ok_returns _ _ H3)].
  apply mkdir_exist_ok_same_files in H3.
  destruct (init_video_pipeline.mkdir_exist_ok (skill_dir ++ ["extracted"]) fs3)
    as [fs4 | e |] eqn:H4;
    [| exists fs3; split; [done | by do 2 (etrans; [eassumption |])]
     | by destruct (mkdir_exist_ok_returns _ _ H4)].
  apply mkdir_exist_ok_same_files in H4.
  assert (K : same_files fs fs4) by (by do 3 (etrans; [eassumption |])).
  assert (Hc4 : fs_lookup fs4 ((skill_dir ++ ["scripts"]) ++ ["video_extractor.py"])
                = Some (Reg c)).
  { rewrite <- app_assoc. by apply K. }
  unfold init_video_pipeline.copy_if_exists at 1, path_exists.
  change (skill_dir ++ ["scripts"; "video_extractor.py"])
    with (skill_dir ++ ["scripts"] ++ ["video_extractor.py"]).
  rewrite (app_assoc skill_dir ["scripts"] ["video_extractor.py"]), Hc4.
  unfold init_video_pipeline.copy2, is_dir, path_exists. rewrite Hc4.
  rewrite bool_decide_eq_true_2 by done. simpl.
  exists fs4. split; [done | exact K].
Qed.

Lemma init_in_skill_directory_fails_witness :
  exists fs',
    init_video_pipeline.main ["skill"] ["skill"] None skill_disk = (Ok 1, fs')
    /\ same_files skill_disk fs'.
Proof.
  apply (init_in_skill_directory_fails ["skill"] None skill_disk "code").
  reflexivity.
Defined.

(** ** The source line of a local job *)

Lemma process_video_true_document fuel self vc st st' :
  process_video fuel self vc st = (Ok true, st') ->
  exists p date content,
    vc !! "output" = Some (VStr p)
    /\ fs_lookup (fs st') (Path p)
       = Some (Reg (header_text vc date +:+ nl +:+ nl +:+ content)).
Proof.
  destruct (valid_job vc) eqn:Hv.
  2:{ destruct (process_video_invalid fuel self vc st Hv) as (e & ->). done. }
  destruct (valid_job_output _ Hv) as (out & Hout & _).
  rewrite (process_video_valid _ _ _ out) by done.
  rewrite process_video_body_stages.
  set (st1 := add_event _ st).
  unfold try_except, bind.
  destruct (prepare fuel self vc st1) as [[obj | e |] st2]; try done.
  destruct (extract_content self obj vc st2) as [[content | e |] st3]; try done.
  destruct (save_markdown self content out vc st3) as [[[] | e |] st4] eqn:Es;
    try done.
  simpl. intros [= <-].
  apply save_markdown_inv in Es as (p & -> & Hdoc & _).
  exists p, (today (self_client self) (trace st3)), content. by split.
Qed.

Lemma header_text_local_line vc date :
  truthy (get vc "youtube_url") = false ->
  contains (header_text vc date)
    ("**Video File:** " +:+ str (get_default vc "filename" (VStr "Unknown"))
     +:+ nl).
Proof.
  intros Hu. unfold header_text, py_or. rewrite Hu.
  do 10 apply contains_app_r.
  exists "", (nl +:+ "---" +:+ nl).
  rewrite (string_app_assoc "**Video File:** "), string_app_assoc.
  reflexivity.
Qed.

Lemma header_text_insert_path vc date v :
  header_text (<["path" := v]> vc) date = header_text vc date.
Proof.
  unfold header_text, get, get_default. by rewrite !lookup_insert_ne.
Qed.

(** X19.  The document of a local job does not name the file by its path.
    When the job has no [youtube_url], the source line of the document it
    writes is the [Video File] line, and what follows the label is the
    [filename] field of the job, [Unknown] when the job has none; the
    header is the same whatever the [path] of the job is. *)
Theorem local_document_names_filename fuel self vc st st' :
  truthy (get vc "youtube_url") = false ->
  process_video fuel self vc st = (Ok true, st') ->
  exists p date content,
    vc !! "output" = Some (VStr p)
    /\ fs_lookup (fs st') (Path p)
       = Some (Reg (header_text vc date +:+ nl +:+ nl +:+ content))
    /\ contains (header_text vc date)
         ("**Video File:** "
          +:+ str (get_default vc "filename" (VStr "Unknown")) +:+ nl)
    /\ forall v, header_text (<["path" := v]> vc) date = header_text vc date.
Proof.
  intros Hu H.
  destruct (process_video_true_document _ _ _ _ _ H) as (p & date & content & Ho & Hd).
  exists p, date, content. split; [done |]. split; [done |].
  split; [by apply header_text_local_line |].
  intros v. apply header_text_insert_path.
Qed.

Lemma local_document_names_filename_witness :
  exists st' p date content,
    process_video 5 Demo.self Demo.job_c Demo.st0 = (Ok true, st')
    /\ Demo.job_c !! "output" = Some (VStr p)
    /\ fs_lookup (fs st') (Path p)
       = Some (Reg (header_text Demo.job_c date +:+ nl +:+ nl +:+ content))
    /\ contains (header_text Demo.job_c date)
         ("**Video File:** " +:+ "Unknown" +:+ nl).
Proof.
  destruct (process_video 5 Demo.self Demo.job_c Demo.st0) as [o st'] eqn:E.
  assert (Ho : o = Ok true).
  { apply (f_equal fst) in E. simpl in E. subst o. by vm_compute. }
  subst o.
  destruct (local_document_names_filename 5 Demo.self Demo.job_c Demo.st0 st'
              eq_refl E) as (p & date & content & H1 & H2 & H3 & _).
  by exists st', p, date, content.
Defined.

(** ** Batches of remote jobs *)











(** ** [_print_summary] *)

(** X21.  The summary can always be printed where [process_batch] prints
    it.  After a batch that has run its jobs, [_print_summary] returns: it
    prints the three counters and, when a job has failed, the heading
    [Failed videos:] followed by one line for each failed job, with its
    title, in the order of the failures.  The summary of a run without
    jobs has no [errors] key: printing it would raise [KeyError], and
    [process_batch] returns it before the call. *)
Theorem print_summary_after_batch fuel self video_list st r st' :
  process_batch fuel self video_list st = (Ok r, st') ->
  select_videos self video_list <> [] ->
  (exists l,
     errors r = Some l /\ length l = failed r
     /\ snd (_print_summary r) = Ok tt
     /\ drop 6 (fst (_print_summary r))
        = if (failed r =? 0)%nat then []
          else (nl +:+ "Failed videos:")
               :: List.map (fun error => "  - " +:+ str (video error)) l)
  /\ snd (_print_summary empty_summary) = Raise (KeyError "errors").
Proof.
  intros H Hne. split; [| done].
  destruct (process_batch_completed _ _ _ _ _ _ Hne H)
    as (_ & _ & (l & Hl & Hlen) & _).
  exists l. split; [done |]. split; [done |].
  unfold _print_summary. rewrite Hl, <- Hlen.
  destruct l as [| e l]; [done |]. simpl length. simpl Nat.eqb. cbv iota.
  split; [done |]. reflexivity.
Qed.

Lemma print_summary_after_batch_witness :
  exists r st' l,
    process_batch 5 Demo.self None Demo.st0 = (Ok r, st')
    /\ errors r = Some l /\ length l = failed r
    /\ snd (_print_summary r) = Ok tt
    /\ drop 6 (fst (_print_summary r))
       = if (failed r =? 0)%nat then []
         else (nl +:+ "Failed videos:")
              :: List.map (fun error => "  - " +:+ str (video error)) l.
Proof.
  destruct (process_batch 5 Demo.self None Demo.st0) as [o st'] eqn:E.
  assert (Ho : exists r, o = Ok r).
  { apply (f_equal fst) in E. simpl in E. subst o. vm_compute. eauto. }
  destruct Ho as [r ->].
  destruct (print_summary_after_batch 5 Demo.self None Demo.st0 r st' E)
    as [(l & H) _]; [done |].
  by exists r, st', l.
Defined.
